(** * DBTChain gov-sdk: a shallow embedding of the SDK and its properties

    The SDK is a thin TypeScript client over three deployed contracts
    (DBTC registry, Department, Agency).  This development embeds

    - [utils.ts]      : [stringToBytes32], [bytes32ToString],
                        [waitForTransaction], [prepareProposalData];
    - [config.ts]     : the module state [_config] / [_provider] and the
                        functions around it (second half of
                        src/src/department.ts);
    - [agency.ts]     : every exported wrapper (src/unnamed/part_002);
    - [department.ts] : every exported wrapper (src/src/department.ts);
    - [dbtc.ts]       : every exported wrapper (src/unnamed/part_000);
    - [types.ts]      : [getPhaseName], [getStatusName];
    - [index.ts]      : the list of exported functions
                        (src/unnamed/part_001).

    JavaScript exceptions are an explicit [Completion]; the module state and
    the interaction with the chain are threaded through a small state and
    error monad [M] over a [World] that also records every contract
    interaction in a trace. *)

From Stdlib Require Import ZArith List String Ascii Bool Lia.
Import ListNotations.
Local Open Scope Z_scope.

Set Implicit Arguments.
Set Warnings "-register-all".

(* ===================================================================== *)
(** ** JavaScript values *)
(* ===================================================================== *)

(** A thrown JavaScript error; only its message is kept. *)
Inductive Exn : Type := Err (msg : string).

(** The outcome of evaluating an expression or calling a function. *)
Inductive Completion (A : Type) : Type :=
| Normal (a : A)
| Throw (e : Exn).
Arguments Normal {A} a.
Arguments Throw {A} e.

Definition is_throw {A} (c : Completion A) : bool :=
  match c with Throw _ => true | Normal _ => false end.

(** A JavaScript string is a sequence of UTF-16 code units; [length]
    counts code units. *)
Definition JsString : Type := list Z.

Definition code_unit (c : Z) : bool := (0 <=? c) && (c <? 65536).

Definition lit (s : string) : JsString :=
  map (fun a => Z.of_N (N_of_ascii a)) (list_ascii_of_string s).

Definition length (s : JsString) : Z := Z.of_nat (List.length s).

Fixpoint str_eqb (a b : JsString) : bool :=
  match a, b with
  | [], [] => true
  | x :: a', y :: b' => (x =? y) && str_eqb a' b'
  | _, _ => false
  end.

(** Numbers are IEEE doubles in JavaScript.  The SDK only tests them for
    truthiness and converts them to BigInt, so a number is kept as: an
    integral value (both zeros are [NumInt 0]), NaN, or any other value
    (a finite non-integer or an infinity). *)
Inductive JsNumber : Type :=
| NumInt (z : Z)
| NumNaN
| NumOther.

Inductive JsVal : Type :=
| VUndefined
| VNull
| VBool (b : bool)
| VNumber (n : JsNumber)
| VBigInt (z : Z)
| VString (s : JsString)
| VArray (items : list JsVal)
| VObject (fields : list (string * JsVal)).

(** ToBoolean. *)
Definition truthy (v : JsVal) : bool :=
  match v with
  | VUndefined | VNull => false
  | VBool b => b
  | VNumber (NumInt z) => negb (z =? 0)
  | VNumber NumNaN => false
  | VNumber NumOther => true
  | VBigInt z => negb (z =? 0)
  | VString s => match s with [] => false | _ => true end
  | VArray _ | VObject _ => true
  end.

(** [!s] on a value of type [string]. *)
Definition str_truthy (s : JsString) : bool :=
  match s with [] => false | _ => true end.

(** [!s] on a value of type [string | undefined]. *)
Definition opt_truthy (s : option JsString) : bool :=
  match s with Some (_ :: _) => true | _ => false end.

(** ECMAScript's StringToBigInt, which [BigInt(string)] applies: the text is
    parsed as a StringIntegerLiteral, that is optional white space around
    nothing (the value 0), a decimal integer with an optional sign, or an
    unsigned binary, octal or hexadecimal literal; any other text is a
    SyntaxError. *)
Definition StrWhiteSpaceChar (c : Z) : bool :=
  (* WhiteSpace: TAB, VT, FF, ZWNBSP and the space separators *)
  (c =? 0x9) || (c =? 0xb) || (c =? 0xc) || (c =? 0xfeff)
  || (c =? 0x20) || (c =? 0xa0) || (c =? 0x1680)
  || ((0x2000 <=? c) && (c <=? 0x200a))
  || (c =? 0x202f) || (c =? 0x205f) || (c =? 0x3000)
  (* LineTerminator: LF, CR, LS, PS *)
  || (c =? 0xa) || (c =? 0xd) || (c =? 0x2028) || (c =? 0x2029).

Fixpoint skipWhiteSpace (s : JsString) : JsString :=
  match s with
  | c :: rest => if StrWhiteSpaceChar c then skipWhiteSpace rest else s
  | [] => []
  end.

Definition trimWhiteSpace (s : JsString) : JsString :=
  rev (skipWhiteSpace (rev (skipWhiteSpace s))).

(** The value of a digit in the given radix. *)
Definition digitValue (radix c : Z) : option Z :=
  let d := if (48 <=? c) && (c <=? 57) then c - 48
           else if (97 <=? c) && (c <=? 102) then c - 87
           else if (65 <=? c) && (c <=? 70) then c - 55
           else radix in
  if d <? radix then Some d else None.

Fixpoint digitsValue (radix acc : Z) (s : JsString) : option Z :=
  match s with
  | [] => Some acc
  | c :: rest =>
      match digitValue radix c with
      | Some d => digitsValue radix (acc * radix + d) rest
      | None => None
      end
  end.

(** One digit or more. *)
Definition Digits (radix : Z) (s : JsString) : option Z :=
  match s with
  | [] => None
  | _ => digitsValue radix 0 s
  end.

Definition StringIntegerLiteral (s : JsString) : option Z :=
  match trimWhiteSpace s with
  | [] => Some 0
  | c :: rest =>
      if c =? 43 (* + *) then Digits 10 rest
      else if c =? 45 (* - *) then option_map Z.opp (Digits 10 rest)
      else
        match c =? 48, rest with
        | true, p :: digits =>
            if (p =? 98) || (p =? 66) (* 0b, 0B *) then Digits 2 digits
            else if (p =? 111) || (p =? 79) (* 0o, 0O *) then Digits 8 digits
            else if (p =? 120) || (p =? 88) (* 0x, 0X *) then Digits 16 digits
            else Digits 10 (c :: rest)
        | _, _ => Digits 10 (c :: rest)
        end
  end.

(* ===================================================================== *)
(** ** The ethers functions used by [utils.ts]

    [ethers] (imported at utils.ts:1) is a dependency of the SDK.  The
    functions below follow ethers v6: [toUtf8Bytes], [toUtf8String] and
    [getUtf8CodePoints] of utils/utf8.ts, [hexlify], [getBytes] and
    [zeroPadBytes] of utils/data.ts, [encodeBytes32String] and
    [decodeBytes32String] of abi/bytes32.ts.  Bytes are integers in
    [0, 256). *)
(* ===================================================================== *)

Module Ethers.

Definition push {A} (xs : list A) (c : Completion (list A)) : Completion (list A) :=
  match c with
  | Normal ys => Normal (xs ++ ys)
  | Throw e => Throw e
  end.

(** The loop of [toUtf8Bytes] over [str.charCodeAt(i)]; a surrogate pair
    consumes two code units. *)
Fixpoint toUtf8Bytes (str : JsString) : Completion (list Z) :=
  match str with
  | [] => Normal []
  | c :: rest =>
      if c <? 0x80 then
        push [c] (toUtf8Bytes rest)
      else if c <? 0x800 then
        push [Z.lor (Z.shiftr c 6) 0xc0;
              Z.lor (Z.land c 0x3f) 0x80] (toUtf8Bytes rest)
      else if Z.land c 0xfc00 =? 0xd800 then
        match rest with
        | c2 :: rest' =>
            if Z.land c2 0xfc00 =? 0xdc00 then
              let pair := 0x10000 + Z.shiftl (Z.land c 0x03ff) 10 + Z.land c2 0x03ff in
              push [Z.lor (Z.shiftr pair 18) 0xf0;
                    Z.lor (Z.land (Z.shiftr pair 12) 0x3f) 0x80;
                    Z.lor (Z.land (Z.shiftr pair 6) 0x3f) 0x80;
                    Z.lor (Z.land pair 0x3f) 0x80] (toUtf8Bytes rest')
            else Throw (Err "invalid surrogate pair")
        | [] => Throw (Err "invalid surrogate pair")
        end
      else
        push [Z.lor (Z.shiftr c 12) 0xe0;
              Z.lor (Z.land (Z.shiftr c 6) 0x3f) 0x80;
              Z.lor (Z.land c 0x3f) 0x80] (toUtf8Bytes rest)
  end.

Definition HexCharacters : JsString := lit "0123456789abcdef".

Definition hexlify (bytes : list Z) : JsString :=
  lit "0x" ++
  flat_map (fun v => [nth (Z.to_nat (Z.shiftr (Z.land v 0xf0) 4)) HexCharacters 0;
                      nth (Z.to_nat (Z.land v 0x0f)) HexCharacters 0]) bytes.

(** [zeroPadBytes(data, length)]: pad on the right, then [hexlify]. *)
Definition zeroPadBytes (bytes : list Z) (len : nat) : Completion JsString :=
  if (len <? List.length bytes)%nat then Throw (Err "padding exceeds data length")
  else Normal (hexlify (bytes ++ repeat 0 (len - List.length bytes))).

Definition encodeBytes32String (text : JsString) : Completion JsString :=
  match toUtf8Bytes text with
  | Throw e => Throw e
  | Normal bytes =>
      if (31 <? List.length bytes)%nat
      then Throw (Err "bytes32 string must be less than 32 bytes")
      else zeroPadBytes bytes 32
  end.

(** One character of [[0-9a-f]] under the [i] flag, as [parseInt(_, 16)]
    reads it. *)
Definition hexDigit (c : Z) : option Z :=
  if (48 <=? c) && (c <=? 57) then Some (c - 48)
  else if (97 <=? c) && (c <=? 102) then Some (c - 87)
  else if (65 <=? c) && (c <=? 70) then Some (c - 55)
  else None.

Fixpoint parseHexPairs (s : JsString) : option (list Z) :=
  match s with
  | [] => Some []
  | h :: l :: rest =>
      match hexDigit h, hexDigit l, parseHexPairs rest with
      | Some a, Some b, Some bs => Some (16 * a + b :: bs)
      | _, _, _ => None
      end
  | [_] => None
  end.

(** [getBytes] on a string: it must match [/^0x(?:[0-9a-f][0-9a-f])*$/i]. *)
Definition getBytes (value : JsString) : Completion (list Z) :=
  match value with
  | z :: x :: digits =>
      if (z =? 48) && ((x =? 120) || (x =? 88)) then
        match parseHexPairs digits with
        | Some bs => Normal bs
        | None => Throw (Err "invalid BytesLike value")
        end
      else Throw (Err "invalid BytesLike value")
  | _ => Throw (Err "invalid BytesLike value")
  end.

(** The final checks of [getUtf8CodePoints] on a decoded multi-byte
    value; the default error function throws on every error. *)
Definition checkCodePoint (res overlongMask : Z) (k : Completion (list Z))
  : Completion (list Z) :=
  if 0x10ffff <? res then Throw (Err "invalid codepoint; OUT_OF_RANGE")
  else if (0xd800 <=? res) && (res <=? 0xdfff)
  then Throw (Err "invalid codepoint; UTF16_SURROGATE")
  else if res <=? overlongMask then Throw (Err "invalid codepoint; OVERLONG")
  else push [res] k.

Definition isContinuation (b : Z) : bool := Z.land b 0xc0 =? 0x80.

Definition addBits (res next : Z) : Z := Z.lor (Z.shiftl res 6) (Z.land next 0x3f).

Fixpoint getUtf8CodePoints (bytes : list Z) : Completion (list Z) :=
  match bytes with
  | [] => Normal []
  | c :: rest =>
      if Z.shiftr c 7 =? 0 then push [c] (getUtf8CodePoints rest)
      else if Z.land c 0xe0 =? 0xc0 then
        (* extraLength = 1, overlongMask = 0x7f *)
        match rest with
        | b1 :: rest1 =>
            if negb (isContinuation b1) then Throw (Err "invalid codepoint; MISSING_CONTINUE")
            else checkCodePoint (addBits (Z.land c 0x1f) b1) 0x7f
                                (getUtf8CodePoints rest1)
        | _ => Throw (Err "invalid codepoint; OVERRUN")
        end
      else if Z.land c 0xf0 =? 0xe0 then
        (* extraLength = 2, overlongMask = 0x7ff *)
        match rest with
        | b1 :: b2 :: rest2 =>
            if negb (isContinuation b1) then Throw (Err "invalid codepoint; MISSING_CONTINUE")
            else if negb (isContinuation b2) then Throw (Err "invalid codepoint; MISSING_CONTINUE")
            else checkCodePoint (addBits (addBits (Z.land c 0x0f) b1) b2) 0x7ff
                                (getUtf8CodePoints rest2)
        | _ => Throw (Err "invalid codepoint; OVERRUN")
        end
      else if Z.land c 0xf8 =? 0xf0 then
        (* extraLength = 3, overlongMask = 0xffff *)
        match rest with
        | b1 :: b2 :: b3 :: rest3 =>
            if negb (isContinuation b1) then Throw (Err "invalid codepoint; MISSING_CONTINUE")
            else if negb (isContinuation b2) then Throw (Err "invalid codepoint; MISSING_CONTINUE")
            else if negb (isContinuation b3) then Throw (Err "invalid codepoint; MISSING_CONTINUE")
            else checkCodePoint (addBits (addBits (addBits (Z.land c 0x07) b1) b2) b3) 0xffff
                                (getUtf8CodePoints rest3)
        | _ => Throw (Err "invalid codepoint; OVERRUN")
        end
      else if Z.land c 0xc0 =? 0x80
      then Throw (Err "invalid codepoint; UNEXPECTED_CONTINUE")
      else Throw (Err "invalid codepoint; BAD_PREFIX")
  end.

(** [_toUtf8String]: code points back to UTF-16 code units. *)
Definition fromCodePoint (codePoint : Z) : list Z :=
  if codePoint <=? 0xffff then [codePoint]
  else
    let cp := codePoint - 0x10000 in
    [Z.land (Z.shiftr cp 10) 0x3ff + 0xd800; Z.land cp 0x3ff + 0xdc00].

Definition toUtf8String (bytes : list Z) : Completion JsString :=
  match getUtf8CodePoints bytes with
  | Normal cps => Normal (flat_map fromCodePoint cps)
  | Throw e => Throw e
  end.

(** [while (data[length - 1] === 0) { length--; }], by recursion on
    [length]; [data[-1]] is [undefined] and ends the loop. *)
Fixpoint trimLength (data : list Z) (len : nat) : nat :=
  match len with
  | O => O
  | S l =>
      match nth_error data l with
      | Some 0 => trimLength data l
      | _ => len
      end
  end.

Definition decodeBytes32String (_bytes : JsString) : Completion JsString :=
  match getBytes _bytes with
  | Throw e => Throw e
  | Normal data =>
      if negb (List.length data =? 32)%nat
      then Throw (Err "invalid bytes32 - not 32 bytes long")
      else
        match nth_error data 31 with
        | Some 0 =>
            toUtf8String (firstn (trimLength data 31) data)
        | _ => Throw (Err "invalid bytes32 string - no null terminator")
        end
  end.

(** [ethers.ZeroHash]. *)
Definition ZeroHash : JsString :=
  lit "0x0000000000000000000000000000000000000000000000000000000000000000".

End Ethers.

(* ===================================================================== *)
(** ** utils.ts: the two string conversions *)
(* ===================================================================== *)

Definition stringToBytes32 (str : JsString) : Completion JsString :=
  if 31 <? length str then
    Throw (Err "String too long for bytes32 (max 31 characters)")
  else Ethers.encodeBytes32String str.

Definition bytes32ToString (bytes32 : JsString) : Completion JsString :=
  Ethers.decodeBytes32String bytes32.

(* ===================================================================== *)
(** ** Chain data, as ethers hands it to the SDK *)
(* ===================================================================== *)

Record Log : Type := {
  log_address : JsString;
  topics : list JsString;
  data : JsString
}.

Module Receipt.
(** [ethers.TransactionReceipt]; [status] is [null | number]. *)
Record t : Type := {
  hash : JsString;
  blockNumber : Z;
  gasUsed : Z;
  status : option Z;
  logs : list Log
}.
End Receipt.

(** [ethers.Result]: the decoded arguments of an event, read by name
    ([args.tokenId]) or by position ([args[1]]).  A read yields a value
    ([VUndefined] for a name the event does not have) or throws: a position
    outside the arguments is a RangeError, and an argument whose decoding
    failed rethrows that failure when it is read. *)
Record Result : Type := {
  prop : string -> Completion JsVal;
  index : nat -> Completion JsVal
}.

Record LogDescription : Type := {
  name : JsString;
  args : Result
}.

(** [contract.interface], built from an ABI JSON that is not part of the
    sources: [parseLog({ topics, data })] returns a description, [null], or
    throws. *)
Record Interface : Type := {
  parseLog : list JsString * JsString -> Completion (option LogDescription)
}.

Record JsonRpcProvider : Type := {
  provider_url : JsString;
  provider_chainId : Z
}.

Record Wallet : Type := {
  wallet_key : JsString;
  wallet_provider : JsonRpcProvider
}.

Inductive Runner : Type :=
| RunnerSigner (signer : Wallet)
| RunnerProvider (provider : JsonRpcProvider).

Record Contract : Type := {
  target : JsString;
  interface : Interface;
  runner : Runner
}.

(** [ethers.ContractTransactionResponse]: [wait()] resolves to a receipt or
    to [null], or rejects. *)
Record ContractTransactionResponse : Type := {
  tx_hash : JsString;
  wait : Completion (option Receipt.t)
}.

(** Everything outside the SDK's sources that its functions consult: the
    three bundled ABIs, the validation done by the [ethers.Wallet]
    constructor, what the invocation of a contract method gives, and the two
    conversions [BigInt(string)] and [Number] of the runtime.  [transact] is
    the invocation of a state-changing method: ethers encodes the arguments,
    which it may refuse before anything is sent (an amount outside uint256,
    for instance), and submits the transaction, which the node may reject;
    [staticCall] is the invocation of a read-only method. *)
Record Env : Type := {
  AgencyABI : Interface;
  DepartmentABI : Interface;
  DBTCABI : Interface;
  validPrivateKey : JsString -> bool;
  transact : Contract -> string -> list JsVal -> Completion ContractTransactionResponse;
  staticCall : Contract -> string -> list JsVal -> Completion JsVal;
  StringToBigInt : JsString -> option Z;
  Number : JsVal -> JsNumber
}.

(** What the SDK asked of ethers and the chain, in order: the invocation of
    a state-changing contract method, the wait for a receipt, the invocation
    of a read-only method. *)
Inductive Event : Type :=
| EvSend (to : JsString) (method : string) (params : list JsVal)
| EvWait (tx : JsString)
| EvCall (to : JsString) (method : string) (params : list JsVal).

(* ===================================================================== *)
(** ** Module state of config.ts and the monad of the SDK *)
(* ===================================================================== *)

Record SDKConfig : Type := {
  chainMode : JsString;
  apiKey : JsString;
  privateKey : option JsString
}.

Record NetworkConfig : Type := {
  rpcUrl : JsString;
  chainId : Z;
  chainName : JsString
}.

Record Addresses : Type := {
  dbtc : JsString;
  budgetProposal : JsString
}.

Record AddressBook : Type := {
  testnet : Addresses;
  mainnet : Addresses
}.

Record ProcessEnv : Type := {
  DBTC_CHAIN_MODE : option JsString;
  DBTC_API_KEY : option JsString;
  PRIVATE_KEY : option JsString
}.

Record World : Type := {
  _config : option SDKConfig;
  _provider : option JsonRpcProvider;
  CONTRACT_ADDRESSES : AddressBook;
  process_env : ProcessEnv;
  trace : list Event
}.

Definition M (A : Type) : Type := World -> Completion A * World.

Definition ret {A} (a : A) : M A := fun w => (Normal a, w).

Definition throw {A} (e : Exn) : M A := fun w => (Throw e, w).

Definition bind {A B} (m : M A) (k : A -> M B) : M B :=
  fun w =>
    match m w with
    | (Normal a, w') => k a w'
    | (Throw e, w') => (Throw e, w')
    end.

Notation "x <- m ;; k" := (bind m (fun x => k))
  (at level 61, m at next level, right associativity).
Notation "m ;;; k" := (bind m (fun _ => k))
  (at level 61, right associativity).

Definition lift {A} (c : Completion A) : M A := fun w => (c, w).

Definition get : M World := fun w => (Normal w, w).

Definition set_config (c : option SDKConfig) : M unit := fun w =>
  (Normal tt,
   {| _config := c; _provider := _provider w;
      CONTRACT_ADDRESSES := CONTRACT_ADDRESSES w;
      process_env := process_env w; trace := trace w |}).

Definition set_provider (p : option JsonRpcProvider) : M unit := fun w =>
  (Normal tt,
   {| _config := _config w; _provider := p;
      CONTRACT_ADDRESSES := CONTRACT_ADDRESSES w;
      process_env := process_env w; trace := trace w |}).

Definition set_addresses (b : AddressBook) : M unit := fun w =>
  (Normal tt,
   {| _config := _config w; _provider := _provider w;
      CONTRACT_ADDRESSES := b;
      process_env := process_env w; trace := trace w |}).

(** The world after one more request to the chain. *)
Definition log_event (w : World) (e : Event) : World :=
  {| _config := _config w; _provider := _provider w;
     CONTRACT_ADDRESSES := CONTRACT_ADDRESSES w;
     process_env := process_env w; trace := trace w ++ [e] |}.

Definition emit (e : Event) : M unit := fun w => (Normal tt, log_event w e).

(* ===================================================================== *)
(** ** config.ts *)
(* ===================================================================== *)

Definition NETWORKS (mode : JsString) : option NetworkConfig :=
  if str_eqb mode (lit "testnet") then
    Some {| rpcUrl := lit "https://amoy.dbtc.bayanichain.io";
            chainId := 80002;
            chainName := lit "Polygon Amoy" |}
  else if str_eqb mode (lit "mainnet") then
    Some {| rpcUrl := lit "https://polygon.dbtc.bayanichain.io";
            chainId := 137;
            chainName := lit "Polygon" |}
  else None.

(** The bundled address book, before any [setContractAddresses]. *)
Definition CONTRACT_ADDRESSES_init : AddressBook :=
  {| testnet := {| dbtc := lit "0x8972bc4dea1d2760E3f5b0a90675Dde15506aA8E";
                   budgetProposal := lit "0xf73aB0E2069029c881EFB825f74aC602472d3ace" |};
     mainnet := {| dbtc := []; budgetProposal := [] |} |}.

Definition lookup_addresses (b : AddressBook) (mode : JsString) : option Addresses :=
  if str_eqb mode (lit "testnet") then Some (testnet b)
  else if str_eqb mode (lit "mainnet") then Some (mainnet b)
  else None.

(** [['testnet', 'mainnet'].includes(mode)]. *)
Definition includes_mode (mode : JsString) : bool :=
  str_eqb (lit "testnet") mode || str_eqb (lit "mainnet") mode.

Definition configure (config : SDKConfig) : M unit :=
  if negb (str_truthy (chainMode config)) || negb (includes_mode (chainMode config)) then
    throw (Err "chainMode must be 'testnet' or 'mainnet'")
  else if negb (str_truthy (apiKey config)) then
    throw (Err "apiKey is required. Contact DBTC to obtain your API key.")
  else
    set_config (Some {| chainMode := chainMode config;
                        apiKey := apiKey config;
                        privateKey := privateKey config |}) ;;;
    (* Reset provider when config changes *)
    set_provider None.

Definition getConfig : M SDKConfig :=
  w <- get ;;
  match _config w with
  | Some c => ret c
  | None =>
      (* Try to auto-configure from environment variables *)
      match DBTC_CHAIN_MODE (process_env w), DBTC_API_KEY (process_env w) with
      | Some (c :: cs), Some (k :: ks) =>
          configure {| chainMode := c :: cs; apiKey := k :: ks;
                       privateKey := PRIVATE_KEY (process_env w) |} ;;;
          w' <- get ;;
          match _config w' with
          | Some c' => ret c'
          | None => throw (Err "TypeError: null configuration")
          end
      | _, _ =>
          (* first line of the message *)
          throw (Err "SDK not configured. Call configure() first or set environment variables:")
      end
  end.

Definition getNetworkConfig : M (option NetworkConfig) :=
  config <- getConfig ;;
  ret (NETWORKS (chainMode config)).

Definition getRpcUrl : M JsString :=
  config <- getConfig ;;
  match NETWORKS (chainMode config) with
  | Some network => ret (rpcUrl network ++ lit "?apiKey=" ++ apiKey config)
  | None => throw (Err "TypeError: Cannot read properties of undefined (reading 'rpcUrl')")
  end.

Definition getProvider : M JsonRpcProvider :=
  w <- get ;;
  match _provider w with
  | Some p => ret p
  | None =>
      network <- getNetworkConfig ;;
      url <- getRpcUrl ;;
      match network with
      | Some n =>
          let p := {| provider_url := url; provider_chainId := chainId n |} in
          set_provider (Some p) ;;;
          ret p
      | None => throw (Err "TypeError: Cannot read properties of undefined (reading 'chainId')")
      end
  end.

Definition getContractAddresses : M (option Addresses) :=
  config <- getConfig ;;
  w <- get ;;
  ret (lookup_addresses (CONTRACT_ADDRESSES w) (chainMode config)).

(** The properties that the address book, an object literal, inherits from
    [Object.prototype] in a runtime that has left the prototype as it is:
    each of them is a function, except [__proto__], which is the prototype
    itself. *)
Definition Object_prototype : list string :=
  ["constructor"; "hasOwnProperty"; "isPrototypeOf"; "propertyIsEnumerable";
   "toLocaleString"; "toString"; "valueOf"; "__proto__";
   "__defineGetter__"; "__defineSetter__"; "__lookupGetter__";
   "__lookupSetter__"]%string.

(** [CONTRACT_ADDRESSES[mode]] is an inherited object, not an entry of the
    address book and not [undefined]. *)
Definition inherited (mode : JsString) : bool :=
  existsb (fun key => str_eqb mode (lit key)) Object_prototype.

(** The address book after [(CONTRACT_ADDRESSES[mode] as any).field = value],
    or nothing when the assignment throws.  For a mode that names an
    inherited object the property is set on that object, which is no part of
    the address book; for a mode that names nothing, [CONTRACT_ADDRESSES[mode]]
    is [undefined] and the assignment is a TypeError. *)
Definition update_addresses (b : AddressBook) (mode : JsString)
    (f : Addresses -> Addresses) : option AddressBook :=
  if str_eqb mode (lit "testnet") then
    Some {| testnet := f (testnet b); mainnet := mainnet b |}
  else if str_eqb mode (lit "mainnet") then
    Some {| testnet := testnet b; mainnet := f (mainnet b) |}
  else if inherited mode then Some b
  else None.

(** [(CONTRACT_ADDRESSES[mode] as any).field = value]. *)
Definition assign_address (mode : JsString) (f : Addresses -> Addresses) : M unit :=
  w <- get ;;
  match update_addresses (CONTRACT_ADDRESSES w) mode f with
  | Some b => set_addresses b
  | None => throw (Err "TypeError: Cannot set properties of undefined")
  end.

(** The first two arguments are what [addresses.dbtc] and
    [addresses.budgetProposal] evaluate to. *)
Definition setContractAddresses (addresses_dbtc addresses_budgetProposal : option JsString)
    (mode_arg : option JsString) : M unit :=
  (* chainMode || getConfig().chainMode *)
  mode <- match mode_arg with
          | Some (c :: cs) => ret (c :: cs)
          | _ => (c <- getConfig ;; ret (chainMode c))
          end ;;
  match addresses_dbtc with
  | Some (a :: al) =>
      assign_address mode (fun x => {| dbtc := a :: al; budgetProposal := budgetProposal x |})
  | _ => ret tt
  end ;;;
  match addresses_budgetProposal with
  | Some (a :: al) =>
      assign_address mode (fun x => {| dbtc := dbtc x; budgetProposal := a :: al |})
  | _ => ret tt
  end.

Definition getChainMode : M JsString :=
  c <- getConfig ;; ret (chainMode c).

Definition isTestnet : M bool :=
  c <- getConfig ;; ret (str_eqb (chainMode c) (lit "testnet")).

Definition isMainnet : M bool :=
  c <- getConfig ;; ret (str_eqb (chainMode c) (lit "mainnet")).

(* ===================================================================== *)
(** ** types.ts *)
(* ===================================================================== *)

(** [enum BudgetPhase] and [enum ProposalStatus] are numbers at run time. *)
Module BudgetPhase.
Definition PRE_BUDGET : Z := 0.
Definition BUDGET_CALL : Z := 1.
Definition TECHNICAL_REVIEW : Z := 2.
Definition NEP_CONSOLIDATION : Z := 3.
Definition GAB_SEPARATE : Z := 4.
Definition GAB_BICAM : Z := 5.
Definition GAA_ENACTMENT : Z := 6.
End BudgetPhase.

Module ProposalStatus.
Definition DRAFT : Z := 0.
Definition SUBMITTED : Z := 1.
Definition UNDER_REVIEW : Z := 2.
Definition APPROVED : Z := 3.
Definition REVISED : Z := 4.
Definition AMENDED : Z := 5.
Definition REJECTED : Z := 6.
Definition ENACTED : Z := 7.
End ProposalStatus.

(** [names[key] ?? 'Unknown'] over a table of (key, name) entries. *)
Fixpoint lookup_name (names : list (Z * string)) (key : Z) : JsString :=
  match names with
  | [] => lit "Unknown"
  | (k, n) :: rest => if k =? key then lit n else lookup_name rest key
  end.

Definition getPhaseName (phase : Z) : JsString :=
  lookup_name
    [(BudgetPhase.PRE_BUDGET, "Pre-Budget");
     (BudgetPhase.BUDGET_CALL, "Budget Call");
     (BudgetPhase.TECHNICAL_REVIEW, "Technical Review");
     (BudgetPhase.NEP_CONSOLIDATION, "NEP Consolidation");
     (BudgetPhase.GAB_SEPARATE, "GAB Separate (House & Senate)");
     (BudgetPhase.GAB_BICAM, "GAB Bicameral");
     (BudgetPhase.GAA_ENACTMENT, "GAA Enactment")]%string phase.

Definition getStatusName (status : Z) : JsString :=
  lookup_name
    [(ProposalStatus.DRAFT, "Draft");
     (ProposalStatus.SUBMITTED, "Submitted");
     (ProposalStatus.UNDER_REVIEW, "Under Review");
     (ProposalStatus.APPROVED, "Approved");
     (ProposalStatus.REVISED, "Revised");
     (ProposalStatus.AMENDED, "Amended");
     (ProposalStatus.REJECTED, "Rejected");
     (ProposalStatus.ENACTED, "Enacted")]%string status.

(** [amount: bigint | string | number]. *)
Inductive Amount : Type :=
| AmountBigInt (z : Z)
| AmountString (s : JsString)
| AmountNumber (n : JsNumber).

Record ProposalData : Type := {
  prexcFpapId : JsString;
  uacsObjCode : JsString;
  amount : Amount
}.

Record TransactionResult : Type := {
  txHash : JsString;
  blockNumber : Z;
  gasUsed : Z;
  success : bool;
  logs : list Log
}.

(** [TransactionResult & { field: ... }], the value of [{ ...result, field }]. *)
Record Extended (field : string) : Type := {
  result : TransactionResult;
  value : JsVal
}.
Arguments result {field} _.
Arguments value {field} _.

Section WithEnv.

Variable E : Env.

(** [new ethers.Wallet(key, provider)]. *)
Definition newWallet (key : JsString) (provider : JsonRpcProvider) : M Wallet :=
  if validPrivateKey E key then ret {| wallet_key := key; wallet_provider := provider |}
  else throw (Err "invalid private key").

Definition getSigner (pk : option JsString) : M Wallet :=
  (* privateKey || getConfig().privateKey *)
  key <- (if opt_truthy pk then ret pk
          else (c <- getConfig ;; ret (privateKey c))) ;;
  match key with
  | Some (k :: ks) =>
      provider <- getProvider ;;
      newWallet (k :: ks) provider
  | _ =>
      throw (Err "No private key provided. Pass privateKey parameter or configure SDK with privateKey, or set PRIVATE_KEY environment variable.")
  end.

(* ===================================================================== *)
(** ** utils.ts: transactions and proposal data *)
(* ===================================================================== *)

(** [await tx.wait()]. *)
Definition await_wait (tx : ContractTransactionResponse) : M (option Receipt.t) :=
  emit (EvWait (tx_hash tx)) ;;;
  lift (wait tx).

Definition waitForTransaction (tx : ContractTransactionResponse) : M TransactionResult :=
  receipt <- await_wait tx ;;
  match receipt with
  | None => throw (Err "Transaction failed - no receipt")
  | Some receipt =>
      ret {| txHash := Receipt.hash receipt;
             blockNumber := Receipt.blockNumber receipt;
             gasUsed := Receipt.gasUsed receipt;
             success := match Receipt.status receipt with
                        | Some s => s =? 1
                        | None => false
                        end;
             logs := Receipt.logs receipt |}
  end.

(** [BigInt(value)] for [value: bigint | string | number]. *)
Definition BigInt (a : Amount) : Completion Z :=
  match a with
  | AmountBigInt z => Normal z
  | AmountNumber (NumInt z) => Normal z
  | AmountNumber _ =>
      Throw (Err "RangeError: The number cannot be converted to a BigInt because it is not an integer")
  | AmountString s =>
      match StringToBigInt E s with
      | Some z => Normal z
      | None => Throw (Err "SyntaxError: Cannot convert to a BigInt")
      end
  end.

Record OnChainProposalData : Type := {
  oc_fiscalYear : Z;
  oc_departmentCode : JsString;
  oc_agencyCode : JsString;
  oc_prexcFpapId : JsString;
  oc_uacsObjCode : JsString;
  oc_amount : Z
}.

Definition prepareProposalData (data : ProposalData) : Completion OnChainProposalData :=
  match stringToBytes32 (prexcFpapId data) with
  | Throw e => Throw e
  | Normal p =>
      match stringToBytes32 (uacsObjCode data) with
      | Throw e => Throw e
      | Normal u =>
          match BigInt (amount data) with
          | Throw e => Throw e
          | Normal a =>
              Normal {| oc_fiscalYear := 0; (* Will be enriched by contract *)
                        oc_departmentCode := Ethers.ZeroHash;
                        oc_agencyCode := Ethers.ZeroHash;
                        oc_prexcFpapId := p;
                        oc_uacsObjCode := u;
                        oc_amount := a |}
          end
      end
  end.

(** The object as it is passed to a contract method. *)
Definition proposal_object (d : OnChainProposalData) : JsVal :=
  VObject [("fiscalYear", VNumber (NumInt (oc_fiscalYear d)));
           ("departmentCode", VString (oc_departmentCode d));
           ("agencyCode", VString (oc_agencyCode d));
           ("prexcFpapId", VString (oc_prexcFpapId d));
           ("uacsObjCode", VString (oc_uacsObjCode d));
           ("amount", VBigInt (oc_amount d))]%string.

(* ===================================================================== *)
(** ** Contract method invocations *)
(* ===================================================================== *)

(** [await contract.method(...)] for a method whose result the caller hands
    to [waitForTransaction]: the method is invoked, and either a transaction
    is submitted or the invocation throws. *)
Definition send (contract : Contract) (method : string) (params : list JsVal)
  : M ContractTransactionResponse :=
  emit (EvSend (target contract) method params) ;;;
  lift (transact E contract method params).

(** [await contract.method(...)] for a read-only method. *)
Definition call (contract : Contract) (method : string) (params : list JsVal)
  : M JsVal :=
  emit (EvCall (target contract) method params) ;;;
  lift (staticCall E contract method params).

(** The calls handed to [Promise.all] are all started, in order; the result
    is the list of their values, or the rejection of the first that failed. *)
Fixpoint start_all (ms : list (M JsVal)) (w : World) : list (Completion JsVal) * World :=
  match ms with
  | [] => ([], w)
  | m :: rest =>
      let '(c, w1) := m w in
      let '(cs, w2) := start_all rest w1 in
      (c :: cs, w2)
  end.

Fixpoint settle_all (cs : list (Completion JsVal)) : Completion (list JsVal) :=
  match cs with
  | [] => Normal []
  | Throw e :: _ => Throw e
  | Normal v :: rest =>
      match settle_all rest with
      | Normal vs => Normal (v :: vs)
      | Throw e => Throw e
      end
  end.

Definition Promise_all (ms : list (M JsVal)) : M (list JsVal) :=
  fun w => let '(cs, w') := start_all ms w in (settle_all cs, w').

(** [a || b] for two reads that may throw: [b] counts only when [a] yields a
    falsy value. *)
Definition or_else (a b : Completion JsVal) : Completion JsVal :=
  match a with
  | Throw e => Throw e
  | Normal v => if truthy v then Normal v else b
  end.

(** [signer || getProvider()]. *)
Definition runner_of (signer : option Wallet) : M Runner :=
  match signer with
  | Some s => ret (RunnerSigner s)
  | None => (p <- getProvider ;; ret (RunnerProvider p))
  end.

(* ===================================================================== *)
(** ** agency.ts *)
(* ===================================================================== *)

Definition getAgencyContract (agencyAddress : JsString) (signer : option Wallet) : M Contract :=
  runner <- runner_of signer ;;
  ret {| target := agencyAddress; interface := AgencyABI E; runner := runner |}.

(** The loop of [submitProposal] (agency.ts lines 39-48); [tokenId] is the
    variable declared before the loop.  [parsed?.name] of a [null]
    description is [undefined]; the [try] covers the decoding, the test and
    the read of the argument. *)
Fixpoint submitProposal_scan (contract : Contract) (logs : list Log)
    (tokenId : JsVal) : JsVal :=
  match logs with
  | [] => tokenId
  | log :: rest =>
      match parseLog (interface contract) (topics log, data log) with
      | Normal (Some parsed) =>
          if str_eqb (name parsed) (lit "ProposalSubmitted") then
            match prop (args parsed) "tokenId" with
            | Normal v => (* tokenId = v; break *) v
            | Throw _ => (* the read throws inside the try: skip *)
                submitProposal_scan contract rest tokenId
            end
          else submitProposal_scan contract rest tokenId
      | Normal None => submitProposal_scan contract rest tokenId
      | Throw _ => (* skip non-matching logs *)
          submitProposal_scan contract rest tokenId
      end
  end.

Definition submitProposal (agencyAddress uri : JsString) (data : ProposalData)
    (pk : option JsString)
  : M (Extended "tokenId") :=
  signer <- getSigner pk ;;
  contract <- getAgencyContract agencyAddress (Some signer) ;;
  proposalData <- lift (prepareProposalData data) ;;
  tx <- send contract "submitProposal" [VString uri; proposal_object proposalData] ;;
  result <- waitForTransaction tx ;;
  let tokenId := submitProposal_scan contract (logs result) (VBigInt 0) in
  ret {| result := result; value := tokenId |}.

(** The loop of [reviseProposal] (agency.ts lines 79-88); [newTokenId] is the
    variable declared before the loop.  [parsed?.name] of a [null]
    description is [undefined]; the [try] covers the decoding, the test and
    the read of the argument. *)
Fixpoint reviseProposal_scan (contract : Contract) (logs : list Log)
    (newTokenId : JsVal) : JsVal :=
  match logs with
  | [] => newTokenId
  | log :: rest =>
      match parseLog (interface contract) (topics log, data log) with
      | Normal (Some parsed) =>
          if str_eqb (name parsed) (lit "ProposalRevised") then
            match prop (args parsed) "newTokenId" with
            | Normal v => (* newTokenId = v; break *) v
            | Throw _ => (* the read throws inside the try: skip *)
                reviseProposal_scan contract rest newTokenId
            end
          else reviseProposal_scan contract rest newTokenId
      | Normal None => reviseProposal_scan contract rest newTokenId
      | Throw _ => (* skip non-matching logs *)
          reviseProposal_scan contract rest newTokenId
      end
  end.

Definition reviseProposal (agencyAddress : JsString) (originalTokenId : JsVal)
    (newUri : JsString) (newData : ProposalData) (reason : JsString)
    (pk : option JsString)
  : M (Extended "newTokenId") :=
  signer <- getSigner pk ;;
  contract <- getAgencyContract agencyAddress (Some signer) ;;
  proposalData <- lift (prepareProposalData newData) ;;
  tx <- send contract "reviseProposal"
          [originalTokenId; VString newUri; proposal_object proposalData;
           VString reason] ;;
  result <- waitForTransaction tx ;;
  let newTokenId := reviseProposal_scan contract (logs result) (VBigInt 0) in
  ret {| result := result; value := newTokenId |}.

(** The loop of [amendProposal] (agency.ts lines 119-128); [newTokenId] is the
    variable declared before the loop.  [parsed?.name] of a [null]
    description is [undefined]; the [try] covers the decoding, the test and
    the read of the argument. *)
Fixpoint amendProposal_scan (contract : Contract) (logs : list Log)
    (newTokenId : JsVal) : JsVal :=
  match logs with
  | [] => newTokenId
  | log :: rest =>
      match parseLog (interface contract) (topics log, data log) with
      | Normal (Some parsed) =>
          if str_eqb (name parsed) (lit "ProposalAmended") then
            match prop (args parsed) "newTokenId" with
            | Normal v => (* newTokenId = v; break *) v
            | Throw _ => (* the read throws inside the try: skip *)
                amendProposal_scan contract rest newTokenId
            end
          else amendProposal_scan contract rest newTokenId
      | Normal None => amendProposal_scan contract rest newTokenId
      | Throw _ => (* skip non-matching logs *)
          amendProposal_scan contract rest newTokenId
      end
  end.

Definition amendProposal (agencyAddress : JsString) (originalTokenId : JsVal)
    (newUri : JsString) (newData : ProposalData) (reason : JsString)
    (pk : option JsString)
  : M (Extended "newTokenId") :=
  signer <- getSigner pk ;;
  contract <- getAgencyContract agencyAddress (Some signer) ;;
  proposalData <- lift (prepareProposalData newData) ;;
  tx <- send contract "amendProposal"
          [originalTokenId; VString newUri; proposal_object proposalData;
           VString reason] ;;
  result <- waitForTransaction tx ;;
  let newTokenId := amendProposal_scan contract (logs result) (VBigInt 0) in
  ret {| result := result; value := newTokenId |}.

(** The loop of [submitSeparateGAB] (agency.ts lines 154-163); [tokenId] is the
    variable declared before the loop.  [parsed?.name] of a [null]
    description is [undefined]; the [try] covers the decoding, the test and
    the read of the argument. *)
Fixpoint submitSeparateGAB_scan (contract : Contract) (logs : list Log)
    (tokenId : JsVal) : JsVal :=
  match logs with
  | [] => tokenId
  | log :: rest =>
      match parseLog (interface contract) (topics log, data log) with
      | Normal (Some parsed) =>
          if str_eqb (name parsed) (lit "ProposalSubmitted") then
            match prop (args parsed) "tokenId" with
            | Normal v => (* tokenId = v; break *) v
            | Throw _ => (* the read throws inside the try: skip *)
                submitSeparateGAB_scan contract rest tokenId
            end
          else submitSeparateGAB_scan contract rest tokenId
      | Normal None => submitSeparateGAB_scan contract rest tokenId
      | Throw _ => (* skip non-matching logs *)
          submitSeparateGAB_scan contract rest tokenId
      end
  end.

Definition submitSeparateGAB (agencyAddress uri : JsString) (data : ProposalData)
    (pk : option JsString)
  : M (Extended "tokenId") :=
  signer <- getSigner pk ;;
  contract <- getAgencyContract agencyAddress (Some signer) ;;
  proposalData <- lift (prepareProposalData data) ;;
  tx <- send contract "submitSeparateGAB" [VString uri; proposal_object proposalData] ;;
  result <- waitForTransaction tx ;;
  let tokenId := submitSeparateGAB_scan contract (logs result) (VBigInt 0) in
  ret {| result := result; value := tokenId |}.

(** The loop of [submitJointGAB] (agency.ts lines 193-202); [tokenId] is the
    variable declared before the loop.  [parsed?.name] of a [null]
    description is [undefined]; the [try] covers the decoding, the test and
    the read of the argument. *)
Fixpoint submitJointGAB_scan (contract : Contract) (logs : list Log)
    (tokenId : JsVal) : JsVal :=
  match logs with
  | [] => tokenId
  | log :: rest =>
      match parseLog (interface contract) (topics log, data log) with
      | Normal (Some parsed) =>
          if str_eqb (name parsed) (lit "ProposalSubmitted") then
            match prop (args parsed) "tokenId" with
            | Normal v => (* tokenId = v; break *) v
            | Throw _ => (* the read throws inside the try: skip *)
                submitJointGAB_scan contract rest tokenId
            end
          else submitJointGAB_scan contract rest tokenId
      | Normal None => submitJointGAB_scan contract rest tokenId
      | Throw _ => (* skip non-matching logs *)
          submitJointGAB_scan contract rest tokenId
      end
  end.

Definition submitJointGAB (agencyAddress : JsString)
    (houseProposalId senateProposalId : JsVal) (uri : JsString) (data : ProposalData)
    (pk : option JsString)
  : M (Extended "tokenId") :=
  signer <- getSigner pk ;;
  contract <- getAgencyContract agencyAddress (Some signer) ;;
  proposalData <- lift (prepareProposalData data) ;;
  tx <- send contract "submitJointGAB"
          [houseProposalId; senateProposalId; VString uri; proposal_object proposalData] ;;
  result <- waitForTransaction tx ;;
  let tokenId := submitJointGAB_scan contract (logs result) (VBigInt 0) in
  ret {| result := result; value := tokenId |}.

Definition addDocumentManager (agencyAddress managerAddress : JsString)
    (pk : option JsString)
  : M TransactionResult :=
  signer <- getSigner pk ;;
  contract <- getAgencyContract agencyAddress (Some signer) ;;
  tx <- send contract "addDocumentManager" [VString managerAddress] ;;
  waitForTransaction tx.

Definition removeDocumentManager (agencyAddress managerAddress : JsString)
    (pk : option JsString)
  : M TransactionResult :=
  signer <- getSigner pk ;;
  contract <- getAgencyContract agencyAddress (Some signer) ;;
  tx <- send contract "removeDocumentManager" [VString managerAddress] ;;
  waitForTransaction tx.

Definition transferAgencyOwnership (agencyAddress newOwner : JsString)
    (pk : option JsString)
  : M TransactionResult :=
  signer <- getSigner pk ;;
  contract <- getAgencyContract agencyAddress (Some signer) ;;
  tx <- send contract "transferOwnership" [VString newOwner] ;;
  waitForTransaction tx.

Definition getAgencyInfo (agencyAddress : JsString) : M JsVal :=
  contract <- getAgencyContract agencyAddress None ;;
  rs <- Promise_all [call contract "getCode" [];
                     call contract "getName" [];
                     call contract "getDepartment" [];
                     call contract "getOwner" []] ;;
  match rs with
  | [code; name; department; owner] =>
      ret (VObject [("address", VString agencyAddress);
                    ("code", code);
                    ("name", name);
                    ("department", department);
                    ("owner", owner)]%string)
  | _ => throw (Err "TypeError: undefined is not iterable")
  end.

Definition isDocumentManager (agencyAddress address : JsString) : M JsVal :=
  contract <- getAgencyContract agencyAddress None ;;
  r <- call contract "isDocumentManager" [VString address] ;;
  ret r.

Definition getDocumentManagers (agencyAddress : JsString) : M JsVal :=
  contract <- getAgencyContract agencyAddress None ;;
  r <- call contract "getDocumentManagers" [] ;;
  ret r.

(* ===================================================================== *)
(** ** department.ts *)
(* ===================================================================== *)

Definition getDepartmentContract (departmentAddress : JsString) (signer : option Wallet)
  : M Contract :=
  runner <- runner_of signer ;;
  ret {| target := departmentAddress; interface := DepartmentABI E; runner := runner |}.

(** The loop of [addAgency] (department.ts lines 40-49); [agencyAddress] is the
    variable declared before the loop.  [parsed?.name] of a [null]
    description is [undefined]; the [try] covers the decoding, the test and
    the read of the argument. *)
Fixpoint addAgency_scan (contract : Contract) (logs : list Log)
    (agencyAddress : JsVal) : JsVal :=
  match logs with
  | [] => agencyAddress
  | log :: rest =>
      match parseLog (interface contract) (topics log, data log) with
      | Normal (Some parsed) =>
          if str_eqb (name parsed) (lit "AgencyAdded") then
            match or_else (prop (args parsed) "agencyContract") (index (args parsed) 1) with
            | Normal v => (* agencyAddress = v; break *) v
            | Throw _ => (* the read throws inside the try: skip *)
                addAgency_scan contract rest agencyAddress
            end
          else addAgency_scan contract rest agencyAddress
      | Normal None => addAgency_scan contract rest agencyAddress
      | Throw _ => (* skip non-matching logs *)
          addAgency_scan contract rest agencyAddress
      end
  end.

Definition addAgency (departmentAddress agencyCode agencyName ownerAddress : JsString)
    (pk : option JsString) : M (Extended "agencyAddress") :=
  signer <- getSigner pk ;;
  contract <- getDepartmentContract departmentAddress (Some signer) ;;
  tx <- send contract "addAgency"
          [VString agencyCode; VString agencyName; VString ownerAddress] ;;
  result <- waitForTransaction tx ;;
  let agencyAddress := addAgency_scan contract (logs result) (VString []) in
  ret {| result := result; value := agencyAddress |}.

Definition setHouseAndSenate (departmentAddress houseAddress senateAddress : JsString)
    (pk : option JsString)
  : M TransactionResult :=
  signer <- getSigner pk ;;
  contract <- getDepartmentContract departmentAddress (Some signer) ;;
  tx <- send contract "setHouseAndSenate" [VString houseAddress; VString senateAddress] ;;
  waitForTransaction tx.

Definition getDepartmentInfo (departmentAddress : JsString) : M JsVal :=
  contract <- getDepartmentContract departmentAddress None ;;
  rs <- Promise_all [call contract "getCode" [];
                     call contract "getName" [];
                     call contract "getDBTC" [];
                     call contract "getMainAgency" [];
                     call contract "isStandalone" [];
                     call contract "getIsActualDepartment" [];
                     call contract "getAgencyCount" []] ;;
  match rs with
  | [code; name; dbtc; mainAgency; isStandalone; isActualDepartment; agencyCount] =>
      ret (VObject [("address", VString departmentAddress);
                    ("code", code);
                    ("name", name);
                    ("dbtc", dbtc);
                    ("mainAgency", mainAgency);
                    ("isStandalone", isStandalone);
                    ("isActualDepartment", isActualDepartment);
                    ("agencyCount", VNumber (Number E agencyCount))]%string)
  | _ => throw (Err "TypeError: undefined is not iterable")
  end.

Definition getAgency (departmentAddress agencyCode : JsString) : M JsVal :=
  contract <- getDepartmentContract departmentAddress None ;;
  r <- call contract "getAgency" [VString agencyCode] ;;
  ret r.

Definition isAgencyRegistered (departmentAddress agencyCode : JsString) : M JsVal :=
  contract <- getDepartmentContract departmentAddress None ;;
  r <- call contract "isAgencyRegistered" [VString agencyCode] ;;
  ret r.

Definition getAgencyCodes (departmentAddress : JsString) : M JsVal :=
  contract <- getDepartmentContract departmentAddress None ;;
  r <- call contract "getAgencyCodes" [] ;;
  ret r.

Definition getMainAgency (departmentAddress : JsString) : M JsVal :=
  contract <- getDepartmentContract departmentAddress None ;;
  r <- call contract "getMainAgency" [] ;;
  ret r.

Definition getHouseAgency (departmentAddress : JsString) : M JsVal :=
  contract <- getDepartmentContract departmentAddress None ;;
  r <- call contract "getHouseAgency" [] ;;
  ret r.

Definition getSenateAgency (departmentAddress : JsString) : M JsVal :=
  contract <- getDepartmentContract departmentAddress None ;;
  r <- call contract "getSenateAgency" [] ;;
  ret r.

Definition getDepartmentOwner (departmentAddress : JsString) : M JsVal :=
  contract <- getDepartmentContract departmentAddress None ;;
  r <- call contract "getDepartmentOwner" [] ;;
  ret r.

(* ===================================================================== *)
(** ** dbtc.ts *)
(* ===================================================================== *)

Definition getDBTCContract (dbtcAddress : option JsString) (signer : option Wallet)
  : M Contract :=
  (* dbtcAddress || getContractAddresses().dbtc *)
  address <- match dbtcAddress with
             | Some (a :: al) => ret (a :: al)
             | _ =>
                 book <- getContractAddresses ;;
                 match book with
                 | Some b => ret (dbtc b)
                 | None => throw (Err "TypeError: Cannot read properties of undefined (reading 'dbtc')")
                 end
             end ;;
  match address with
  | [] =>
      throw (Err "DBTC contract address not configured. Use setContractAddresses() or provide address.")
  | _ :: _ =>
      runner <- runner_of signer ;;
      ret {| target := address; interface := DBTCABI E; runner := runner |}
  end.

(** The loop of [addDepartment] (dbtc.ts lines 58-67); [departmentAddress] is the
    variable declared before the loop.  [parsed?.name] of a [null]
    description is [undefined]; the [try] covers the decoding, the test and
    the read of the argument. *)
Fixpoint addDepartment_scan (contract : Contract) (logs : list Log)
    (departmentAddress : JsVal) : JsVal :=
  match logs with
  | [] => departmentAddress
  | log :: rest =>
      match parseLog (interface contract) (topics log, data log) with
      | Normal (Some parsed) =>
          if str_eqb (name parsed) (lit "DepartmentAdded") then
            match or_else (prop (args parsed) "deptContract") (index (args parsed) 1) with
            | Normal v => (* departmentAddress = v; break *) v
            | Throw _ => (* the read throws inside the try: skip *)
                addDepartment_scan contract rest departmentAddress
            end
          else addDepartment_scan contract rest departmentAddress
      | Normal None => addDepartment_scan contract rest departmentAddress
      | Throw _ => (* skip non-matching logs *)
          addDepartment_scan contract rest departmentAddress
      end
  end.

Definition addDepartment (deptCode deptName mainAgencyName mainAgencyOwner : JsString)
    (isStandalone isActualDept : bool) (pk dbtcAddress : option JsString)
  : M (Extended "departmentAddress") :=
  signer <- getSigner pk ;;
  contract <- getDBTCContract dbtcAddress (Some signer) ;;
  tx <- send contract "addDepartment"
          [VString deptCode; VString deptName; VString mainAgencyName;
           VString mainAgencyOwner; VBool isStandalone; VBool isActualDept] ;;
  result <- waitForTransaction tx ;;
  let departmentAddress := addDepartment_scan contract (logs result) (VString []) in
  ret {| result := result; value := departmentAddress |}.

(** The loop of [addRegularDepartment] (dbtc.ts lines 96-105); [departmentAddress] is the
    variable declared before the loop.  [parsed?.name] of a [null]
    description is [undefined]; the [try] covers the decoding, the test and
    the read of the argument. *)
Fixpoint addRegularDepartment_scan (contract : Contract) (logs : list Log)
    (departmentAddress : JsVal) : JsVal :=
  match logs with
  | [] => departmentAddress
  | log :: rest =>
      match parseLog (interface contract) (topics log, data log) with
      | Normal (Some parsed) =>
          if str_eqb (name parsed) (lit "DepartmentAdded") then
            match or_else (prop (args parsed) "deptContract") (index (args parsed) 1) with
            | Normal v => (* departmentAddress = v; break *) v
            | Throw _ => (* the read throws inside the try: skip *)
                addRegularDepartment_scan contract rest departmentAddress
            end
          else addRegularDepartment_scan contract rest departmentAddress
      | Normal None => addRegularDepartment_scan contract rest departmentAddress
      | Throw _ => (* skip non-matching logs *)
          addRegularDepartment_scan contract rest departmentAddress
      end
  end.

Definition addRegularDepartment
    (deptCode deptName mainAgencyName mainAgencyOwner : JsString)
    (pk dbtcAddress : option JsString) : M (Extended "departmentAddress") :=
  signer <- getSigner pk ;;
  contract <- getDBTCContract dbtcAddress (Some signer) ;;
  tx <- send contract "addRegularDepartment"
          [VString deptCode; VString deptName; VString mainAgencyName;
           VString mainAgencyOwner] ;;
  result <- waitForTransaction tx ;;
  let departmentAddress := addRegularDepartment_scan contract (logs result) (VString []) in
  ret {| result := result; value := departmentAddress |}.

Definition assignPhaseResponsibility (phase : Z) (deptCode : JsString)
    (pk dbtcAddress : option JsString)
  : M TransactionResult :=
  signer <- getSigner pk ;;
  contract <- getDBTCContract dbtcAddress (Some signer) ;;
  tx <- send contract "assignPhaseResponsibility"
          [VNumber (NumInt phase); VString deptCode] ;;
  waitForTransaction tx.

Definition startBudgetCall (pk dbtcAddress : option JsString)
  : M TransactionResult :=
  signer <- getSigner pk ;;
  contract <- getDBTCContract dbtcAddress (Some signer) ;;
  tx <- send contract "startBudgetCall" [] ;;
  waitForTransaction tx.

Definition advancePhase (pk dbtcAddress : option JsString)
  : M TransactionResult :=
  signer <- getSigner pk ;;
  contract <- getDBTCContract dbtcAddress (Some signer) ;;
  tx <- send contract "advancePhase" [] ;;
  waitForTransaction tx.

Definition getCurrentPhase (dbtcAddress : option JsString) : M JsVal :=
  contract <- getDBTCContract dbtcAddress None ;;
  r <- call contract "getCurrentPhase" [] ;;
  ret (VNumber (Number E r)).

Definition getCurrentFiscalYear (dbtcAddress : option JsString) : M JsVal :=
  contract <- getDBTCContract dbtcAddress None ;;
  r <- call contract "getCurrentFiscalYear" [] ;;
  ret (VNumber (Number E r)).

Definition getDepartment (deptCode : JsString) (dbtcAddress : option JsString) : M JsVal :=
  contract <- getDBTCContract dbtcAddress None ;;
  r <- call contract "getDepartment" [VString deptCode] ;;
  ret r.

Definition isDepartmentRegistered (deptCode : JsString) (dbtcAddress : option JsString) : M JsVal :=
  contract <- getDBTCContract dbtcAddress None ;;
  r <- call contract "isDepartmentRegistered" [VString deptCode] ;;
  ret r.

Definition getDepartmentCodes (dbtcAddress : option JsString) : M JsVal :=
  contract <- getDBTCContract dbtcAddress None ;;
  r <- call contract "getDepartmentCodes" [] ;;
  ret r.

Definition getDepartmentCount (dbtcAddress : option JsString) : M JsVal :=
  contract <- getDBTCContract dbtcAddress None ;;
  r <- call contract "getDepartmentCount" [] ;;
  ret (VNumber (Number E r)).

Definition getPhaseResponsibleDepartment (phase : Z) (dbtcAddress : option JsString) : M JsVal :=
  contract <- getDBTCContract dbtcAddress None ;;
  r <- call contract "getPhaseResponsibleDepartment" [VNumber (NumInt phase)] ;;
  ret r.

Definition getBudgetProposalContract (dbtcAddress : option JsString) : M JsVal :=
  contract <- getDBTCContract dbtcAddress None ;;
  r <- call contract "getBudgetProposalContract" [] ;;
  ret r.

Definition getDBTCOwner (dbtcAddress : option JsString) : M JsVal :=
  contract <- getDBTCContract dbtcAddress None ;;
  r <- call contract "owner" [] ;;
  ret r.

(* ===================================================================== *)
(** ** index.ts: the exported functions *)
(* ===================================================================== *)

(** One constructor per function exported by index.ts, with the arguments of
    a call: the six names re-exported from config.ts, the two functions of
    types.ts, everything agency.ts, department.ts and dbtc.ts export, and the
    two names re-exported from utils.ts. *)
Inductive Export : Type :=
(* ./config *)
| X_configure (config : SDKConfig)
| X_getConfig
| X_getChainMode
| X_isTestnet
| X_isMainnet
| X_setContractAddresses (addresses_dbtc addresses_budgetProposal mode : option JsString)
(* ./types *)
| X_getPhaseName (phase : Z)
| X_getStatusName (status : Z)
(* ./agency *)
| X_submitProposal (agencyAddress uri : JsString) (data : ProposalData) (pk : option JsString)
| X_reviseProposal (agencyAddress : JsString) (originalTokenId : JsVal) (newUri : JsString)
    (newData : ProposalData) (reason : JsString) (pk : option JsString)
| X_amendProposal (agencyAddress : JsString) (originalTokenId : JsVal) (newUri : JsString)
    (newData : ProposalData) (reason : JsString) (pk : option JsString)
| X_submitSeparateGAB (agencyAddress uri : JsString) (data : ProposalData) (pk : option JsString)
| X_submitJointGAB (agencyAddress : JsString) (houseProposalId senateProposalId : JsVal)
    (uri : JsString) (data : ProposalData) (pk : option JsString)
| X_addDocumentManager (agencyAddress managerAddress : JsString) (pk : option JsString)
| X_removeDocumentManager (agencyAddress managerAddress : JsString) (pk : option JsString)
| X_transferAgencyOwnership (agencyAddress newOwner : JsString) (pk : option JsString)
| X_getAgencyInfo (agencyAddress : JsString)
| X_isDocumentManager (agencyAddress address : JsString)
| X_getDocumentManagers (agencyAddress : JsString)
(* ./department *)
| X_addAgency (departmentAddress agencyCode agencyName ownerAddress : JsString)
    (pk : option JsString)
| X_setHouseAndSenate (departmentAddress houseAddress senateAddress : JsString)
    (pk : option JsString)
| X_getDepartmentInfo (departmentAddress : JsString)
| X_getAgency (departmentAddress agencyCode : JsString)
| X_isAgencyRegistered (departmentAddress agencyCode : JsString)
| X_getAgencyCodes (departmentAddress : JsString)
| X_getMainAgency (departmentAddress : JsString)
| X_getHouseAgency (departmentAddress : JsString)
| X_getSenateAgency (departmentAddress : JsString)
| X_getDepartmentOwner (departmentAddress : JsString)
(* ./dbtc *)
| X_addDepartment (deptCode deptName mainAgencyName mainAgencyOwner : JsString)
    (isStandalone isActualDept : bool) (pk dbtcAddress : option JsString)
| X_addRegularDepartment (deptCode deptName mainAgencyName mainAgencyOwner : JsString)
    (pk dbtcAddress : option JsString)
| X_assignPhaseResponsibility (phase : Z) (deptCode : JsString) (pk dbtcAddress : option JsString)
| X_startBudgetCall (pk dbtcAddress : option JsString)
| X_advancePhase (pk dbtcAddress : option JsString)
| X_getCurrentPhase (dbtcAddress : option JsString)
| X_getCurrentFiscalYear (dbtcAddress : option JsString)
| X_getDepartment (deptCode : JsString) (dbtcAddress : option JsString)
| X_isDepartmentRegistered (deptCode : JsString) (dbtcAddress : option JsString)
| X_getDepartmentCodes (dbtcAddress : option JsString)
| X_getDepartmentCount (dbtcAddress : option JsString)
| X_getPhaseResponsibleDepartment (phase : Z) (dbtcAddress : option JsString)
| X_getBudgetProposalContract (dbtcAddress : option JsString)
| X_getDBTCOwner (dbtcAddress : option JsString)
(* ./utils *)
| X_stringToBytes32 (str : JsString)
| X_bytes32ToString (bytes32 : JsString).

(** Run a computation for its effects and its completion only. *)
Definition discard {A} (m : M A) : M unit := _ <- m ;; ret tt.

(** Calling an exported function. *)
Definition invoke (x : Export) : M unit :=
  match x with
  | X_configure config => configure config
  | X_getConfig => discard getConfig
  | X_getChainMode => discard getChainMode
  | X_isTestnet => discard isTestnet
  | X_isMainnet => discard isMainnet
  | X_setContractAddresses d b m => setContractAddresses d b m
  | X_getPhaseName phase => discard (ret (getPhaseName phase))
  | X_getStatusName status => discard (ret (getStatusName status))
  | X_submitProposal a u d pk => discard (submitProposal a u d pk)
  | X_reviseProposal a o u d r pk => discard (reviseProposal a o u d r pk)
  | X_amendProposal a o u d r pk => discard (amendProposal a o u d r pk)
  | X_submitSeparateGAB a u d pk => discard (submitSeparateGAB a u d pk)
  | X_submitJointGAB a h s u d pk => discard (submitJointGAB a h s u d pk)
  | X_addDocumentManager a m pk => discard (addDocumentManager a m pk)
  | X_removeDocumentManager a m pk => discard (removeDocumentManager a m pk)
  | X_transferAgencyOwnership a n pk => discard (transferAgencyOwnership a n pk)
  | X_getAgencyInfo a => discard (getAgencyInfo a)
  | X_isDocumentManager a b => discard (isDocumentManager a b)
  | X_getDocumentManagers a => discard (getDocumentManagers a)
  | X_addAgency d c n o pk => discard (addAgency d c n o pk)
  | X_setHouseAndSenate d h s pk => discard (setHouseAndSenate d h s pk)
  | X_getDepartmentInfo d => discard (getDepartmentInfo d)
  | X_getAgency d c => discard (getAgency d c)
  | X_isAgencyRegistered d c => discard (isAgencyRegistered d c)
  | X_getAgencyCodes d => discard (getAgencyCodes d)
  | X_getMainAgency d => discard (getMainAgency d)
  | X_getHouseAgency d => discard (getHouseAgency d)
  | X_getSenateAgency d => discard (getSenateAgency d)
  | X_getDepartmentOwner d => discard (getDepartmentOwner d)
  | X_addDepartment c n a o s d pk addr => discard (addDepartment c n a o s d pk addr)
  | X_addRegularDepartment c n a o pk addr => discard (addRegularDepartment c n a o pk addr)
  | X_assignPhaseResponsibility p c pk addr => discard (assignPhaseResponsibility p c pk addr)
  | X_startBudgetCall pk addr => discard (startBudgetCall pk addr)
  | X_advancePhase pk addr => discard (advancePhase pk addr)
  | X_getCurrentPhase addr => discard (getCurrentPhase addr)
  | X_getCurrentFiscalYear addr => discard (getCurrentFiscalYear addr)
  | X_getDepartment c addr => discard (getDepartment c addr)
  | X_isDepartmentRegistered c addr => discard (isDepartmentRegistered c addr)
  | X_getDepartmentCodes addr => discard (getDepartmentCodes addr)
  | X_getDepartmentCount addr => discard (getDepartmentCount addr)
  | X_getPhaseResponsibleDepartment p addr => discard (getPhaseResponsibleDepartment p addr)
  | X_getBudgetProposalContract addr => discard (getBudgetProposalContract addr)
  | X_getDBTCOwner addr => discard (getDBTCOwner addr)
  | X_stringToBytes32 str => discard (lift (stringToBytes32 str))
  | X_bytes32ToString bytes32 => discard (lift (bytes32ToString bytes32))
  end.

End WithEnv.

(** The exports that come from agency.ts, department.ts and dbtc.ts. *)
Definition contract_export (x : Export) : bool :=
  match x with
  | X_configure _ | X_getConfig | X_getChainMode | X_isTestnet | X_isMainnet
  | X_setContractAddresses _ _ _
  | X_getPhaseName _ | X_getStatusName _
  | X_stringToBytes32 _ | X_bytes32ToString _ => false
  | _ => true
  end.

(* ===================================================================== *)
(** ** Notions used to state the properties *)
(* ===================================================================== *)

(** What the [try] block of an extraction loop obtains from one log entry:
    the value it assigns before [break], when the entry decodes to the event
    [event] and its argument can be read; nothing for an entry that fails to
    decode, decodes to [null] or to another event, or whose argument cannot be
    read. *)
Definition event_arg (iface : Interface) (event : string)
    (read : Result -> Completion JsVal) (log : Log) : option JsVal :=
  match parseLog iface (topics log, data log) with
  | Normal (Some d) =>
      if str_eqb (name d) (lit event) then
        match read (args d) with
        | Normal v => Some v
        | Throw _ => None
        end
      else None
  | _ => None
  end.

(** The extraction in words: the argument of the first log entry that
    decodes under the named event with a readable argument, or the initial
    value. *)
Fixpoint first_event_arg (iface : Interface) (event : string)
    (read : Result -> Completion JsVal) (logs : list Log) (default : JsVal) : JsVal :=
  match logs with
  | [] => default
  | log :: rest =>
      match event_arg iface event read log with
      | Some v => v
      | None => first_event_arg iface event read rest default
      end
  end.

(** [args.field]. *)
Definition named (field : string) (a : Result) : Completion JsVal := prop a field.

(** [args.field || args[1]]. *)
Definition named_or_second (field : string) (a : Result) : Completion JsVal :=
  or_else (prop a field) (index a 1).

(** The runtime converts strings to BigInt as ECMAScript says. *)
Definition conforming (E : Env) : Prop :=
  forall s, StringToBigInt E s = StringIntegerLiteral s.

(** A log entry that the interface decodes to the event [event]. *)
Definition decodes_to (iface : Interface) (event : string) (log : Log) : Prop :=
  exists d, parseLog iface (topics log, data log) = Normal (Some d) /\ name d = lit event.

(** A log entry that the interface decodes to the event [event] and whose
    argument reads as [v]. *)
Definition yields (iface : Interface) (event : string)
    (read : Result -> Completion JsVal) (log : Log) (v : JsVal) : Prop :=
  exists d, parseLog iface (topics log, data log) = Normal (Some d) /\
            name d = lit event /\ read (args d) = Normal v.

(** A log entry on which [parseLog] throws. *)
Definition undecodable (iface : Interface) (log : Log) : Prop :=
  exists e, parseLog iface (topics log, data log) = Throw e.

(** Well-formed UTF-16: every code unit is in range and surrogates come in
    (high, low) pairs. *)
Definition high_surrogate (c : Z) : bool := (0xd800 <=? c) && (c <=? 0xdbff).
Definition low_surrogate (c : Z) : bool := (0xdc00 <=? c) && (c <=? 0xdfff).

Fixpoint well_formed (s : JsString) : bool :=
  match s with
  | [] => true
  | c :: rest =>
      if high_surrogate c then
        match rest with
        | c2 :: rest' => low_surrogate c2 && well_formed rest'
        | [] => false
        end
      else code_unit c && negb (low_surrogate c) && well_formed rest
  end.

(** A high surrogate that no low surrogate follows. *)
Fixpoint unpaired_high (s : JsString) : bool :=
  match s with
  | [] => false
  | c :: rest =>
      if high_surrogate c then
        match rest with
        | c2 :: rest' => if low_surrogate c2 then unpaired_high rest' else true
        | [] => true
        end
      else unpaired_high rest
  end.

(** The number of bytes of the UTF-8 encoding. *)
Fixpoint utf8_length (s : JsString) : nat :=
  match s with
  | [] => 0%nat
  | c :: rest =>
      if c <? 0x80 then S (utf8_length rest)
      else if c <? 0x800 then (2 + utf8_length rest)%nat
      else if high_surrogate c then
        match rest with
        | _ :: rest' => (4 + utf8_length rest')%nat
        | [] => 0%nat
        end
      else (3 + utf8_length rest)%nat
  end.

Definition valid_string (s : JsString) : Prop := forallb code_unit s = true.

(** A string of ASCII characters other than the null character. *)
Definition ascii_string (s : JsString) : Prop :=
  Forall (fun c => 0 < c < 128) s.

(** A string that does not fit a bytes32: more than 31 code units, a high
    surrogate that no low surrogate follows, or more than 31 bytes of UTF-8. *)
Definition unencodable (s : JsString) : Prop :=
  31 < length s \/ unpaired_high s = true \/ (31 < utf8_length s)%nat.

(** The transaction result that corresponds to a receipt. *)
Definition receipt_result (r : Receipt.t) : TransactionResult :=
  {| txHash := Receipt.hash r;
     blockNumber := Receipt.blockNumber r;
     gasUsed := Receipt.gasUsed r;
     success := match Receipt.status r with Some 1 => true | _ => false end;
     logs := Receipt.logs r |}.

(** The events of a call that submitted a transaction and waited for its
    receipt. *)
Definition submitted_and_waited (E : Env) (evs : list Event) : Prop :=
  exists c method params tx receipt,
    transact E c method params = Normal tx /\
    wait tx = Normal (Some receipt) /\
    evs = [EvSend (target c) method params; EvWait (tx_hash tx)].

(** A computation that asks nothing of the chain, whatever its outcome. *)
Definition silent {A} (m : M A) : Prop :=
  forall w, trace (snd (m w)) = trace w.

(** A computation that, when it returns normally, has submitted one
    transaction and waited for its receipt, and nothing else. *)
Definition mutates (E : Env) {A} (m : M A) : Prop :=
  forall w a w', m w = (Normal a, w') ->
  exists evs, trace w' = trace w ++ evs /\ submitted_and_waited E evs.

Definition is_query (e : Event) : bool :=
  match e with EvCall _ _ _ => true | _ => false end.

(** The events of a call that only performed read-only queries. *)
Definition only_queries (evs : list Event) : Prop :=
  evs <> [] /\ forallb is_query evs = true.

(** A computation that, when it returns normally, has performed read-only
    queries, at least one, and nothing else. *)
Definition queries {A} (m : M A) : Prop :=
  forall w a w', m w = (Normal a, w') ->
  exists evs, trace w' = trace w ++ evs /\ only_queries evs.

(** Exhaustive checks over bytes and over code units. *)
Definition range (n : nat) : list Z := map Z.of_nat (seq 0 n).

Definition byte_facts (b : Z) : bool :=
  Bool.eqb (Z.shiftr b 7 =? 0) (b <? 128)
  && Bool.eqb (Z.land b 0xe0 =? 0xc0) ((192 <=? b) && (b <? 224))
  && Bool.eqb (Z.land b 0xf0 =? 0xe0) ((224 <=? b) && (b <? 240))
  && Bool.eqb (Z.land b 0xf8 =? 0xf0) ((240 <=? b) && (b <? 248))
  && Bool.eqb (Z.land b 0xc0 =? 0x80) ((128 <=? b) && (b <? 192)).

Definition hex_facts (v : Z) : bool :=
  match Ethers.hexDigit (nth (Z.to_nat (Z.shiftr (Z.land v 0xf0) 4)) Ethers.HexCharacters 0),
        Ethers.hexDigit (nth (Z.to_nat (Z.land v 0x0f)) Ethers.HexCharacters 0) with
  | Some a, Some b => 16 * a + b =? v
  | _, _ => false
  end.

Definition byte (b : Z) : Prop := 0 <= b < 256.

(* ===================================================================== *)
(** ** A concrete environment for examples *)
(* ===================================================================== *)

Module Demo.

(** An interface that reads the event name from the first topic, fails on
    the topic "garbage", and decodes a log without topics to [null]; the
    arguments are the data as a string (named) and its length (positional). *)
Definition iface : Interface :=
  {| parseLog := fun '(ts, d) =>
       match ts with
       | [] => Normal None
       | t :: _ =>
           if str_eqb t (lit "garbage") then Throw (Err "no matching event")
           else Normal (Some {| name := t;
                                args := {| prop := fun _ => Normal (VString d);
                                           index := fun _ => Normal (VBigInt (length d)) |} |})
       end |}.

Definition log (event payload : string) : Log :=
  {| log_address := lit "0xAgency"; topics := [lit event]; data := lit payload |}.

(** Log entries on which [iface] throws, and entries around them. *)
Definition noise : list Log := [log "garbage" "x"; log "garbage" "z"].
Definition before_noise : list Log := [log "Transfer" "y"].
Definition after_noise : list Log :=
  [log "ProposalSubmitted" "7"; log "DepartmentAdded" "0xDept"].

Definition contract : Contract :=
  {| target := lit "0xAgency"; interface := iface;
     runner := RunnerProvider {| provider_url := lit "http://localhost";
                                 provider_chainId := 31337 |} |}.

Definition receipt : Receipt.t :=
  {| Receipt.hash := lit "0xfeed";
     Receipt.blockNumber := 42;
     Receipt.gasUsed := 21000;
     Receipt.status := Some 1;
     Receipt.logs := [log "garbage" "x"; log "Transfer" "y";
                      log "ProposalSubmitted" "7"; log "ProposalSubmitted" "8"] |}.

Definition tx : ContractTransactionResponse :=
  {| tx_hash := lit "0xfeed"; wait := Normal (Some receipt) |}.

Definition dropped_tx : ContractTransactionResponse :=
  {| tx_hash := lit "0xdead"; wait := Normal None |}.

Definition env : Env :=
  {| AgencyABI := iface;
     DepartmentABI := iface;
     DBTCABI := iface;
     validPrivateKey := fun _ => true;
     transact := fun _ _ _ => Normal tx;
     staticCall := fun _ _ _ => Normal (VBigInt 1);
     StringToBigInt := StringIntegerLiteral;
     Number := fun _ => NumInt 1 |}.

(** A receipt in which no log belongs to an event the SDK looks for. *)
Definition quiet_receipt : Receipt.t :=
  {| Receipt.hash := lit "0xbeef";
     Receipt.blockNumber := 43;
     Receipt.gasUsed := 30000;
     Receipt.status := Some 1;
     Receipt.logs := [log "garbage" "x"; log "Transfer" "y"] |}.

Definition quiet_tx : ContractTransactionResponse :=
  {| tx_hash := lit "0xbeef"; wait := Normal (Some quiet_receipt) |}.

Definition quiet_env : Env :=
  {| AgencyABI := iface;
     DepartmentABI := iface;
     DBTCABI := iface;
     validPrivateKey := fun _ => true;
     transact := fun _ _ _ => Normal quiet_tx;
     staticCall := fun _ _ _ => Normal (VBigInt 1);
     StringToBigInt := StringIntegerLiteral;
     Number := fun _ => NumInt 1 |}.

(** An interface for which every log is the event [event], with every
    argument equal to [v]. *)
Definition const_iface (event : string) (v : JsVal) : Interface :=
  {| parseLog := fun _ =>
       Normal (Some {| name := lit event;
                       args := {| prop := fun _ => Normal v;
                                  index := fun _ => Normal v |} |}) |}.

Definition const_contract (event : string) (v : JsVal) : Contract :=
  {| target := lit "0xAgency"; interface := const_iface event v;
     runner := RunnerProvider {| provider_url := lit "http://localhost";
                                 provider_chainId := 31337 |} |}.

Definition config : SDKConfig :=
  {| chainMode := lit "testnet"; apiKey := lit "key"; privateKey := Some (lit "0x01") |}.

Definition world : World :=
  {| _config := Some config;
     _provider := None;
     CONTRACT_ADDRESSES := CONTRACT_ADDRESSES_init;
     process_env := {| DBTC_CHAIN_MODE := None; DBTC_API_KEY := None; PRIVATE_KEY := None |};
     trace := [] |}.

Definition fresh : World :=
  {| _config := None;
     _provider := None;
     CONTRACT_ADDRESSES := CONTRACT_ADDRESSES_init;
     process_env := {| DBTC_CHAIN_MODE := None; DBTC_API_KEY := None; PRIVATE_KEY := None |};
     trace := [] |}.

Definition proposal : ProposalData :=
  {| prexcFpapId := lit "PREXC-001"; uacsObjCode := lit "PS-001";
     amount := AmountBigInt 1000000 |}.

(** A proposal whose [prexcFpapId] has 32 characters. *)
Definition long_proposal : ProposalData :=
  {| prexcFpapId := lit "PREXC-0000000000000000000000-001"; uacsObjCode := lit "PS-001";
     amount := AmountBigInt 1000000 |}.

(** Sixteen times U+00E9: 16 code units, 32 bytes of UTF-8. *)
Definition eacute16 : JsString := repeat 0xe9 16.

(** U+1F600, U+00E9, U+20AC and "a". *)
Definition mixed : JsString := [0xd83d; 0xde00; 0xe9; 0x20ac; 97].

End Demo.

(* ===================================================================== *)
(** ** Notions used to state further properties *)
(* ===================================================================== *)

(** A configuration that [configure] accepts. *)
Definition config_ok (c : SDKConfig) : Prop :=
  (chainMode c = lit "testnet" \/ chainMode c = lit "mainnet") /\ apiKey c <> [].

(** The stored configuration, if any, is one that [configure] accepts. *)
Definition valid_state (w : World) : Prop :=
  forall c, _config w = Some c -> config_ok c.

(** The world with another stored configuration and cached provider. *)
Definition set_state (w : World) (c : option SDKConfig) (p : option JsonRpcProvider)
  : World :=
  {| _config := c; _provider := p;
     CONTRACT_ADDRESSES := CONTRACT_ADDRESSES w;
     process_env := process_env w; trace := trace w |}.

(** The world with another address book. *)
Definition set_book (w : World) (b : AddressBook) : World :=
  {| _config := _config w; _provider := _provider w;
     CONTRACT_ADDRESSES := b;
     process_env := process_env w; trace := trace w |}.

(** The provider that belongs to a configuration: the RPC endpoint of its
    network with the API key as a query parameter, and the network's chain
    identifier. *)
Definition provider_of (c : SDKConfig) : JsonRpcProvider :=
  if str_eqb (chainMode c) (lit "testnet") then
    {| provider_url := lit "https://amoy.dbtc.bayanichain.io?apiKey=" ++ apiKey c;
       provider_chainId := 80002 |}
  else
    {| provider_url := lit "https://polygon.dbtc.bayanichain.io?apiKey=" ++ apiKey c;
       provider_chainId := 137 |}.

(** [new || old] for an optional new address: an absent or empty one
    leaves the old address. *)
Definition override (new : option JsString) (old : JsString) : JsString :=
  match new with
  | Some (a :: al) => a :: al
  | _ => old
  end.

Definition override_addresses (d b : option JsString) (old : Addresses) : Addresses :=
  {| dbtc := override d (dbtc old); budgetProposal := override b (budgetProposal old) |}.

(** The [dbtcAddress] argument of the read-only exports of dbtc.ts. *)
Definition dbtc_read_address (x : Export) : option (option JsString) :=
  match x with
  | X_getCurrentPhase a | X_getCurrentFiscalYear a | X_getDepartment _ a
  | X_isDepartmentRegistered _ a | X_getDepartmentCodes a | X_getDepartmentCount a
  | X_getPhaseResponsibleDepartment _ a | X_getBudgetProposalContract a
  | X_getDBTCOwner a => Some a
  | _ => None
  end.

(** What becomes of a submitted transaction once it is waited for. *)
Definition transaction_outcome (tx : ContractTransactionResponse)
  : Completion TransactionResult :=
  match wait tx with
  | Normal (Some receipt) => Normal (receipt_result receipt)
  | Normal None => Throw (Err "Transaction failed - no receipt")
  | Throw e => Throw e
  end.

(** The private-key argument of the exports that sign a transaction. *)
Definition signer_key (x : Export) : option (option JsString) :=
  match x with
  | X_submitProposal _ _ _ pk | X_reviseProposal _ _ _ _ _ pk
  | X_amendProposal _ _ _ _ _ pk | X_submitSeparateGAB _ _ _ pk
  | X_submitJointGAB _ _ _ _ _ pk | X_addDocumentManager _ _ pk
  | X_removeDocumentManager _ _ pk | X_transferAgencyOwnership _ _ pk
  | X_addAgency _ _ _ _ pk | X_setHouseAndSenate _ _ _ pk
  | X_addDepartment _ _ _ _ _ _ pk _ | X_addRegularDepartment _ _ _ _ pk _
  | X_assignPhaseResponsibility _ _ pk _ | X_startBudgetCall pk _
  | X_advancePhase pk _ => Some pk
  | _ => None
  end.

(** The exports that sign and submit a transaction, and those that read. *)
Definition mutation_export (x : Export) : bool :=
  match signer_key x with Some _ => true | None => false end.

Definition query_export (x : Export) : bool :=
  contract_export x && negb (mutation_export x).

(** At most one submitted transaction, then at most one wait, and nothing
    else. *)
Definition send_prefix (evs : list Event) : Prop :=
  evs = [] \/
  (exists to method params, evs = [EvSend to method params]) \/
  (exists to method params tx, evs = [EvSend to method params; EvWait tx]).

(** A computation whose requests to the chain have a given shape, whatever
    its outcome. *)
Definition appends (S : list Event -> Prop) {A} (m : M A) : Prop :=
  forall w, exists evs, trace (snd (m w)) = trace w ++ evs /\ S evs.

Definition all_queries (evs : list Event) : Prop := forallb is_query evs = true.

(** What becomes of a request to submit a transaction: the outcome of
    waiting for it, or the error of the submission, after which nothing is
    waited for. *)
Definition submission_outcome (E : Env) (c : Contract) (method : string)
    (params : list JsVal) (w : World) : Completion TransactionResult * World :=
  match transact E c method params with
  | Normal tx =>
      (transaction_outcome tx,
       log_event (log_event w (EvSend (target c) method params)) (EvWait (tx_hash tx)))
  | Throw e => (Throw e, log_event w (EvSend (target c) method params))
  end.

(** The proposal data of the exports that submit a proposal. *)
Definition proposal_data (x : Export) : option ProposalData :=
  match x with
  | X_submitProposal _ _ d _ | X_reviseProposal _ _ _ d _ _
  | X_amendProposal _ _ _ d _ _ | X_submitSeparateGAB _ _ d _
  | X_submitJointGAB _ _ _ _ d _ => Some d
  | _ => None
  end.

(** The methods that [getAgencyInfo] and [getDepartmentInfo] read, in the
    order of their [Promise.all]. *)
Definition agency_info_methods : list string :=
  ["getCode"; "getName"; "getDepartment"; "getOwner"]%string.

Definition department_info_methods : list string :=
  ["getCode"; "getName"; "getDBTC"; "getMainAgency"; "isStandalone";
   "getIsActualDepartment"; "getAgencyCount"]%string.

(** One read-only call without arguments per method. *)
Definition call_events (address : JsString) (methods : list string) : list Event :=
  map (fun m => EvCall address m []) methods.

(** A relation between the state before and after that a computation
    keeps, whatever its outcome. *)
Definition keeps (R : World -> World -> Prop) {A} (m : M A) : Prop :=
  forall w, R w (snd (m w)).

(** The stored configuration stays what it is, and so does the provider
    cached for it. *)
Definition same_configuration (w w' : World) : Prop :=
  (forall c, _config w = Some c -> _config w' = Some c) /\
  (forall c p, _config w = Some c -> _provider w = Some p -> _provider w' = Some p).

Definition is_configure (x : Export) : bool :=
  match x with X_configure _ => true | _ => false end.

Definition is_setContractAddresses (x : Export) : bool :=
  match x with X_setContractAddresses _ _ _ => true | _ => false end.

(** The cached provider, if any, is the one of the stored configuration. *)
Definition coherent (w : World) : Prop :=
  forall p, _provider w = Some p -> exists c, _config w = Some c /\ p = provider_of c.

(** The state after a sequence of calls to exported functions, whatever
    their outcomes. *)
Definition session (E : Env) (calls : list Export) (w : World) : World :=
  fold_left (fun w x => snd (invoke E x w)) calls w.

(** The state is well configured afterwards if it was before. *)
Definition stays_configured (w w' : World) : Prop :=
  valid_state w /\ coherent w -> valid_state w' /\ coherent w'.

Module Sample.

Definition mainnet_config : SDKConfig :=
  {| chainMode := lit "mainnet"; apiKey := lit "key"; privateKey := None |}.

(** Nothing configured; the three environment variables are set. *)
Definition from_env : World :=
  {| _config := None;
     _provider := None;
     CONTRACT_ADDRESSES := CONTRACT_ADDRESSES_init;
     process_env := {| DBTC_CHAIN_MODE := Some (lit "mainnet");
                       DBTC_API_KEY := Some (lit "key");
                       PRIVATE_KEY := Some (lit "0x02") |};
     trace := [] |}.

(** Configured for mainnet without a private key, while PRIVATE_KEY is set
    in the environment. *)
Definition mainnet : World :=
  {| _config := Some mainnet_config;
     _provider := None;
     CONTRACT_ADDRESSES := CONTRACT_ADDRESSES_init;
     process_env := {| DBTC_CHAIN_MODE := None; DBTC_API_KEY := None;
                       PRIVATE_KEY := Some (lit "0x02") |};
     trace := [] |}.

Definition signer : Wallet :=
  {| wallet_key := lit "0x01"; wallet_provider := provider_of Demo.config |}.

(** An environment in which the chain rejects every request. *)
Definition failing_env : Env :=
  {| AgencyABI := Demo.iface;
     DepartmentABI := Demo.iface;
     DBTCABI := Demo.iface;
     validPrivateKey := fun _ => true;
     transact := fun _ _ _ => Throw (Err "execution reverted");
     staticCall := fun _ _ _ => Throw (Err "call failed");
     StringToBigInt := StringIntegerLiteral;
     Number := fun _ => NumInt 1 |}.

(** An environment in which transactions are submitted and then dropped. *)
Definition dropping_env : Env :=
  {| AgencyABI := Demo.iface;
     DepartmentABI := Demo.iface;
     DBTCABI := Demo.iface;
     validPrivateKey := fun _ => true;
     transact := fun _ _ _ => Normal Demo.dropped_tx;
     staticCall := fun _ _ _ => Normal (VBigInt 1);
     StringToBigInt := StringIntegerLiteral;
     Number := fun _ => NumInt 1 |}.

(** An interface for events with one argument, read by name: the argument
    of an entry without data failed to decode, so that reading it throws;
    the data "?" stands for an argument under another name; [args[1]] is out
    of range. *)
Definition iface : Interface :=
  {| parseLog := fun '(ts, d) =>
       match ts with
       | [] => Normal None
       | t :: _ =>
           if str_eqb t (lit "garbage") then Throw (Err "no matching event")
           else
             Normal (Some
               {| name := t;
                  args := {| prop := fun _ =>
                               match d with
                               | [] => Throw (Err "deferred error during ABI decoding")
                               | _ => if str_eqb d (lit "?") then Normal VUndefined
                                      else Normal (VString d)
                               end;
                             index := fun _ =>
                               Throw (Err "RangeError: out of result range") |} |})
       end |}.

(** A receipt with entries of each event the SDK looks for, some of them
    with an argument that cannot be read, after an entry that does not
    decode. *)
Definition full_receipt : Receipt.t :=
  {| Receipt.hash := lit "0xf00d";
     Receipt.blockNumber := 44;
     Receipt.gasUsed := 50000;
     Receipt.status := Some 1;
     Receipt.logs := [Demo.log "garbage" "x";
                      Demo.log "ProposalSubmitted" ""; Demo.log "ProposalSubmitted" "7";
                      Demo.log "ProposalRevised" ""; Demo.log "ProposalRevised" "9";
                      Demo.log "ProposalAmended" "10";
                      Demo.log "DepartmentAdded" "?"; Demo.log "DepartmentAdded" "0xDept";
                      Demo.log "AgencyAdded" "?"; Demo.log "AgencyAdded" "0xDesk"] |}.

Definition full_tx : ContractTransactionResponse :=
  {| tx_hash := lit "0xf00d"; wait := Normal (Some full_receipt) |}.

(** Proposals whose amount is a string: a decimal fraction, which BigInt
    rejects, and a hexadecimal literal between white space, which it
    accepts. *)
Definition decimal_proposal : ProposalData :=
  {| prexcFpapId := lit "PREXC-001"; uacsObjCode := lit "PS-001";
     amount := AmountString (lit "1.5") |}.

Definition hex_proposal : ProposalData :=
  {| prexcFpapId := lit "PREXC-001"; uacsObjCode := lit "PS-001";
     amount := AmountString (lit " 0x1F ") |}.

(** A receipt with two entries of one event, and the environment in which
    every transaction has this receipt. *)
Definition pair_receipt (event first second : string) : Receipt.t :=
  {| Receipt.hash := lit "0xcafe";
     Receipt.blockNumber := 45;
     Receipt.gasUsed := 40000;
     Receipt.status := Some 1;
     Receipt.logs := [Demo.log event first; Demo.log event second] |}.

Definition pair_env (event first second : string) : Env :=
  {| AgencyABI := iface;
     DepartmentABI := iface;
     DBTCABI := iface;
     validPrivateKey := fun _ => true;
     transact := fun _ _ _ =>
       Normal {| tx_hash := lit "0xcafe";
                 wait := Normal (Some (pair_receipt event first second)) |};
     staticCall := fun _ _ _ => Normal (VBigInt 1);
     StringToBigInt := StringIntegerLiteral;
     Number := fun _ => NumInt 1 |}.

(** An environment in which one read of the chain fails. *)
Definition full_env : Env :=
  {| AgencyABI := iface;
     DepartmentABI := iface;
     DBTCABI := iface;
     validPrivateKey := fun _ => true;
     transact := fun _ _ _ => Normal full_tx;
     staticCall := fun _ method _ =>
       if String.eqb method "getName" then Throw (Err "call failed")
       else Normal (VString (lit method));
     StringToBigInt := StringIntegerLiteral;
     Number := fun _ => NumInt 1 |}.

End Sample.

(* ===================================================================== *)
(** * Properties *)
(* ===================================================================== *)

(** ** Runs on concrete inputs *)

Example stringToBytes32_ascii :
  stringToBytes32 (lit "PREXC-001") =
  Normal (lit "0x50524558432d3030310000000000000000000000000000000000000000000000").
Proof. vm_compute. reflexivity. Qed.

Example roundtrip_mixed :
  match stringToBytes32 Demo.mixed with
  | Normal h => bytes32ToString h
  | Throw e => Throw e
  end = Normal Demo.mixed.
Proof. vm_compute. reflexivity. Qed.

Example StringIntegerLiteral_runs :
  StringIntegerLiteral (lit "") = Some 0 /\
  StringIntegerLiteral (lit " 42 ") = Some 42 /\
  StringIntegerLiteral (lit "-7") = Some (-7) /\
  StringIntegerLiteral (lit "+007") = Some 7 /\
  StringIntegerLiteral (lit "0x1F") = Some 31 /\
  StringIntegerLiteral (lit "0b101") = Some 5 /\
  StringIntegerLiteral (lit "0O17") = Some 15 /\
  StringIntegerLiteral (lit "1.5") = None /\
  StringIntegerLiteral (lit "1e3") = None /\
  StringIntegerLiteral (lit "-0x1") = None /\
  StringIntegerLiteral (lit "0x") = None /\
  StringIntegerLiteral (lit "0b2") = None /\
  StringIntegerLiteral (lit "12n") = None /\
  StringIntegerLiteral (lit "1 2") = None /\
  StringIntegerLiteral (lit "1_000") = None /\
  StringIntegerLiteral (lit "+") = None.
Proof. vm_compute. repeat split. Qed.

Example submitProposal_demo :
  fst (submitProposal Demo.env (lit "0xAgency") (lit "ipfs://m") Demo.proposal None Demo.world)
  = Normal {| result := {| txHash := lit "0xfeed"; blockNumber := 42; gasUsed := 21000;
                           success := true; logs := Receipt.logs Demo.receipt |};
              value := VString (lit "7") |}.
Proof. vm_compute. reflexivity. Qed.

Example submitProposal_demo_trace :
  trace (snd (submitProposal Demo.env (lit "0xAgency") (lit "ipfs://m") Demo.proposal None Demo.world))
  = [EvSend (lit "0xAgency") "submitProposal"
       [VString (lit "ipfs://m");
        VObject [("fiscalYear", VNumber (NumInt 0));
                 ("departmentCode", VString Ethers.ZeroHash);
                 ("agencyCode", VString Ethers.ZeroHash);
                 ("prexcFpapId", VString (lit "0x50524558432d3030310000000000000000000000000000000000000000000000"));
                 ("uacsObjCode", VString (lit "0x50532d3030310000000000000000000000000000000000000000000000000000"));
                 ("amount", VBigInt 1000000)]%string];
     EvWait (lit "0xfeed")].
Proof. vm_compute. reflexivity. Qed.

Example getCurrentPhase_demo :
  trace (snd (getCurrentPhase Demo.env None Demo.world))
  = [EvCall (lit "0x8972bc4dea1d2760E3f5b0a90675Dde15506aA8E") "getCurrentPhase" []].
Proof. vm_compute. reflexivity. Qed.

Example getPhaseName_demo :
  getPhaseName BudgetPhase.GAB_BICAM = lit "GAB Bicameral" /\ getPhaseName 9 = lit "Unknown".
Proof. split; reflexivity. Qed.

(* ===================================================================== *)
(** ** Bit arithmetic *)
(* ===================================================================== *)

Lemma range_In n z : 0 <= z < Z.of_nat n -> In z (range n).
Proof.
  intros H. unfold range. apply in_map_iff. exists (Z.to_nat z). split.
  - lia.
  - apply in_seq. lia.
Qed.

Lemma forallb_range (P : Z -> bool) n :
  forallb P (range n) = true -> forall z, 0 <= z < Z.of_nat n -> P z = true.
Proof.
  intros H z Hz. rewrite forallb_forall in H. apply H, range_In, Hz.
Qed.

Lemma byte_facts_all b : byte b -> byte_facts b = true.
Proof.
  intros Hb. apply (forallb_range byte_facts 256).
  - vm_compute. reflexivity.
  - exact Hb.
Qed.

Lemma hex_facts_all b : byte b -> hex_facts b = true.
Proof.
  intros Hb. apply (forallb_range hex_facts 256).
  - vm_compute. reflexivity.
  - exact Hb.
Qed.

Lemma code_unit_range c : code_unit c = true <-> 0 <= c < 65536.
Proof. unfold code_unit. lia. Qed.

Lemma lor_disjoint a k n :
  0 <= n -> 0 <= a < 2 ^ n -> Z.lor a (k * 2 ^ n) = a + k * 2 ^ n.
Proof.
  intros Hn Ha.
  assert (Hl : Z.land a (k * 2 ^ n) = 0).
  { apply Z.bits_inj'. intros i Hi.
    rewrite Z.land_spec, Z.bits_0.
    destruct (Z.lt_ge_cases i n) as [Hlt | Hge].
    - rewrite Z.mul_pow2_bits_low by lia. apply andb_false_r.
    - destruct (Z.eq_dec a 0) as [-> | Hnz].
      + rewrite Z.bits_0. reflexivity.
      + rewrite (Z.bits_above_log2 a i); [reflexivity | lia |].
        assert (Z.log2 a < n) by (apply Z.log2_lt_pow2; lia). lia. }
  rewrite <- Z.lxor_lor by exact Hl.
  symmetry. apply Z.add_nocarry_lxor. exact Hl.
Qed.

Lemma lor_0x80 x : 0 <= x < 64 -> Z.lor x 0x80 = x + 128.
Proof. intros H. change 0x80 with (2 * 2 ^ 6). rewrite lor_disjoint; lia. Qed.

Lemma lor_0xc0 x : 0 <= x < 64 -> Z.lor x 0xc0 = x + 192.
Proof. intros H. change 0xc0 with (3 * 2 ^ 6). rewrite lor_disjoint; lia. Qed.

Lemma lor_0xe0 x : 0 <= x < 32 -> Z.lor x 0xe0 = x + 224.
Proof. intros H. change 0xe0 with (7 * 2 ^ 5). rewrite lor_disjoint; lia. Qed.

Lemma lor_0xf0 x : 0 <= x < 16 -> Z.lor x 0xf0 = x + 240.
Proof. intros H. change 0xf0 with (15 * 2 ^ 4). rewrite lor_disjoint; lia. Qed.

Lemma land_0x3f x : Z.land x 0x3f = x mod 64.
Proof. change 0x3f with (Z.ones 6). rewrite Z.land_ones by lia. reflexivity. Qed.

Lemma land_0x1f x : Z.land x 0x1f = x mod 32.
Proof. change 0x1f with (Z.ones 5). rewrite Z.land_ones by lia. reflexivity. Qed.

Lemma land_0x0f x : Z.land x 0x0f = x mod 16.
Proof. change 0x0f with (Z.ones 4). rewrite Z.land_ones by lia. reflexivity. Qed.

Lemma land_0x07 x : Z.land x 0x07 = x mod 8.
Proof. change 0x07 with (Z.ones 3). rewrite Z.land_ones by lia. reflexivity. Qed.

Lemma land_0x3ff x : Z.land x 0x3ff = x mod 1024.
Proof. change 0x3ff with (Z.ones 10). rewrite Z.land_ones by lia. reflexivity. Qed.

Lemma shiftr_div x n : 0 <= n -> Z.shiftr x n = x / 2 ^ n.
Proof. intros H. apply Z.shiftr_div_pow2, H. Qed.

Lemma addBits_add res next :
  0 <= res -> Ethers.addBits res next = res * 64 + next mod 64.
Proof.
  intros H. unfold Ethers.addBits.
  rewrite land_0x3f, Z.shiftl_mul_pow2 by lia.
  rewrite Z.lor_comm. change (2 ^ 6) with 64.
  change (res * 64) with (res * 2 ^ 6). rewrite lor_disjoint.
  - change (2 ^ 6) with 64. lia.
  - lia.
  - change (2 ^ 6) with 64. apply Z.mod_pos_bound. lia.
Qed.

Lemma land_shifted_mask c m n :
  0 <= n -> Z.land c (m * 2 ^ n) = Z.land (c / 2 ^ n) m * 2 ^ n.
Proof.
  intros Hn. apply Z.bits_inj'. intros i Hi.
  destruct (Z.lt_ge_cases i n) as [Hlt | Hge].
  - rewrite Z.land_spec, !Z.mul_pow2_bits_low by lia. apply andb_false_r.
  - replace i with (n + (i - n)) by lia.
    rewrite Z.land_spec, !Z.mul_pow2_bits_add, Z.land_spec, Z.div_pow2_bits by lia.
    replace (i - n + n) with (n + (i - n)) by lia. reflexivity.
Qed.

Lemma land_0xfc00 c : 0 <= c < 65536 -> Z.land c 0xfc00 = c / 1024 * 1024.
Proof.
  intros H. change 0xfc00 with (63 * 2 ^ 10).
  rewrite land_shifted_mask by lia.
  change 63 with (Z.ones 6). rewrite Z.land_ones by lia.
  change (2 ^ 10) with 1024. change (2 ^ 6) with 64.
  rewrite Z.mod_small; [reflexivity |].
  split; [apply Z.div_pos; lia | apply Z.div_lt_upper_bound; lia].
Qed.

Lemma high_surrogate_mask c :
  code_unit c = true -> (Z.land c 0xfc00 =? 0xd800) = high_surrogate c.
Proof.
  intros H. apply code_unit_range in H. rewrite land_0xfc00 by exact H.
  unfold high_surrogate.
  destruct (c / 1024 * 1024 =? 0xd800) eqn:Heq.
  - apply Z.eqb_eq in Heq. symmetry. apply andb_true_intro.
    split; [apply Z.leb_le | apply Z.leb_le]; Z.div_mod_to_equations; lia.
  - apply Z.eqb_neq in Heq. symmetry. apply andb_false_iff.
    destruct (Z.leb_spec 0xd800 c); [right | left; reflexivity].
    apply Z.leb_gt. Z.div_mod_to_equations. lia.
Qed.

Lemma low_surrogate_mask c :
  code_unit c = true -> (Z.land c 0xfc00 =? 0xdc00) = low_surrogate c.
Proof.
  intros H. apply code_unit_range in H. rewrite land_0xfc00 by exact H.
  unfold low_surrogate.
  destruct (c / 1024 * 1024 =? 0xdc00) eqn:Heq.
  - apply Z.eqb_eq in Heq. symmetry. apply andb_true_intro.
    split; [apply Z.leb_le | apply Z.leb_le]; Z.div_mod_to_equations; lia.
  - apply Z.eqb_neq in Heq. symmetry. apply andb_false_iff.
    destruct (Z.leb_spec 0xdc00 c); [right | left; reflexivity].
    apply Z.leb_gt. Z.div_mod_to_equations. lia.
Qed.

(* ===================================================================== *)
(** ** UTF-8: what the decoder reads back from the encoder's bytes *)
(* ===================================================================== *)

Ltac zbool :=
  repeat match goal with
    | |- context [?a <? ?b] =>
        first [ replace (a <? b) with true by (symmetry; apply Z.ltb_lt; Z.div_mod_to_equations; lia)
              | replace (a <? b) with false by (symmetry; apply Z.ltb_ge; Z.div_mod_to_equations; lia) ]
    | |- context [?a <=? ?b] =>
        first [ replace (a <=? b) with true by (symmetry; apply Z.leb_le; Z.div_mod_to_equations; lia)
              | replace (a <=? b) with false by (symmetry; apply Z.leb_gt; Z.div_mod_to_equations; lia) ]
    | |- context [?a =? ?b] =>
        first [ replace (a =? b) with true by (symmetry; apply Z.eqb_eq; Z.div_mod_to_equations; lia)
              | replace (a =? b) with false by (symmetry; apply Z.eqb_neq; Z.div_mod_to_equations; lia) ]
    end.

Lemma byte_tests b :
  byte b ->
  (Z.shiftr b 7 =? 0) = (b <? 128) /\
  (Z.land b 0xe0 =? 0xc0) = ((192 <=? b) && (b <? 224)) /\
  (Z.land b 0xf0 =? 0xe0) = ((224 <=? b) && (b <? 240)) /\
  (Z.land b 0xf8 =? 0xf0) = ((240 <=? b) && (b <? 248)) /\
  (Z.land b 0xc0 =? 0x80) = ((128 <=? b) && (b <? 192)).
Proof.
  intros Hb. pose proof (byte_facts_all Hb) as H. unfold byte_facts in H.
  repeat (apply andb_prop in H; destruct H as [H ?]).
  repeat split; apply Bool.eqb_prop; assumption.
Qed.

Lemma isContinuation_true b : 128 <= b < 192 -> Ethers.isContinuation b = true.
Proof.
  intros H. unfold Ethers.isContinuation.
  destruct (@byte_tests b) as (_ & _ & _ & _ & ->); [unfold byte; lia |].
  zbool. reflexivity.
Qed.

Lemma getUtf8CodePoints_1 c rest :
  0 <= c < 128 ->
  Ethers.getUtf8CodePoints (c :: rest) = Ethers.push [c] (Ethers.getUtf8CodePoints rest).
Proof.
  intros H. cbn [Ethers.getUtf8CodePoints].
  destruct (@byte_tests c) as (-> & _); [unfold byte; lia |].
  zbool. reflexivity.
Qed.

Lemma getUtf8CodePoints_2 b0 b1 rest :
  192 <= b0 < 224 -> 128 <= b1 < 192 ->
  0x7f < (b0 - 192) * 64 + (b1 - 128) ->
  Ethers.getUtf8CodePoints (b0 :: b1 :: rest)
  = Ethers.push [(b0 - 192) * 64 + (b1 - 128)] (Ethers.getUtf8CodePoints rest).
Proof.
  intros H0 H1 Hres. cbn [Ethers.getUtf8CodePoints].
  destruct (@byte_tests b0) as (-> & -> & _); [unfold byte; lia |].
  zbool. cbn [andb negb].
  rewrite (isContinuation_true H1). cbn [negb].
  rewrite land_0x1f.
  rewrite addBits_add by (Z.div_mod_to_equations; lia).
  replace (b0 mod 32 * 64 + b1 mod 64) with ((b0 - 192) * 64 + (b1 - 128))
    by (Z.div_mod_to_equations; lia).
  unfold Ethers.checkCodePoint. zbool. reflexivity.
Qed.

Lemma getUtf8CodePoints_3 b0 b1 b2 rest :
  224 <= b0 < 240 -> 128 <= b1 < 192 -> 128 <= b2 < 192 ->
  let res := (b0 - 224) * 4096 + (b1 - 128) * 64 + (b2 - 128) in
  0x7ff < res -> (res < 0xd800 \/ 0xdfff < res) ->
  Ethers.getUtf8CodePoints (b0 :: b1 :: b2 :: rest)
  = Ethers.push [res] (Ethers.getUtf8CodePoints rest).
Proof.
  intros H0 H1 H2 res Hres Hsur. cbn [Ethers.getUtf8CodePoints].
  destruct (@byte_tests b0) as (-> & -> & -> & _); [unfold byte; lia |].
  zbool. cbn [andb negb].
  rewrite (isContinuation_true H1), (isContinuation_true H2). cbn [negb].
  rewrite land_0x0f.
  rewrite (@addBits_add (b0 mod 16)) by (Z.div_mod_to_equations; lia).
  rewrite addBits_add by (Z.div_mod_to_equations; lia).
  replace ((b0 mod 16 * 64 + b1 mod 64) * 64 + b2 mod 64) with res
    by (unfold res; Z.div_mod_to_equations; lia).
  unfold Ethers.checkCodePoint.
  replace (0x10ffff <? res) with false by (symmetry; apply Z.ltb_ge; unfold res in *; lia).
  replace ((0xd800 <=? res) && (res <=? 0xdfff)) with false
    by (symmetry; apply andb_false_iff; destruct Hsur; [left; apply Z.leb_gt | right; apply Z.leb_gt]; lia).
  replace (res <=? 0x7ff) with false by (symmetry; apply Z.leb_gt; lia).
  zbool. reflexivity.
Qed.

Lemma getUtf8CodePoints_4 b0 b1 b2 b3 rest :
  240 <= b0 < 248 -> 128 <= b1 < 192 -> 128 <= b2 < 192 -> 128 <= b3 < 192 ->
  let res := (b0 - 240) * 262144 + (b1 - 128) * 4096 + (b2 - 128) * 64 + (b3 - 128) in
  0xffff < res <= 0x10ffff ->
  Ethers.getUtf8CodePoints (b0 :: b1 :: b2 :: b3 :: rest)
  = Ethers.push [res] (Ethers.getUtf8CodePoints rest).
Proof.
  intros H0 H1 H2 H3 res Hres. cbn [Ethers.getUtf8CodePoints].
  destruct (@byte_tests b0) as (-> & -> & -> & -> & _); [unfold byte; lia |].
  zbool. cbn [andb negb].
  rewrite (isContinuation_true H1), (isContinuation_true H2), (isContinuation_true H3).
  cbn [negb].
  rewrite land_0x07.
  rewrite (@addBits_add (b0 mod 8)) by (Z.div_mod_to_equations; lia).
  rewrite (@addBits_add (b0 mod 8 * 64 + b1 mod 64)) by (Z.div_mod_to_equations; lia).
  rewrite addBits_add by (Z.div_mod_to_equations; lia).
  replace (((b0 mod 8 * 64 + b1 mod 64) * 64 + b2 mod 64) * 64 + b3 mod 64) with res
    by (unfold res; Z.div_mod_to_equations; lia).
  unfold Ethers.checkCodePoint.
  replace (0x10ffff <? res) with false by (symmetry; apply Z.ltb_ge; lia).
  replace ((0xd800 <=? res) && (res <=? 0xdfff)) with false
    by (symmetry; apply andb_false_iff; right; apply Z.leb_gt; lia).
  replace (res <=? 0xffff) with false by (symmetry; apply Z.leb_gt; lia).
  zbool. reflexivity.
Qed.

Lemma toUtf8Bytes_1 c rest :
  0 <= c < 0x80 ->
  Ethers.toUtf8Bytes (c :: rest) = Ethers.push [c] (Ethers.toUtf8Bytes rest).
Proof. intros H. cbn [Ethers.toUtf8Bytes]. zbool. reflexivity. Qed.

Lemma toUtf8Bytes_2 c rest :
  0x80 <= c < 0x800 ->
  Ethers.toUtf8Bytes (c :: rest)
  = Ethers.push [c / 64 + 192; c mod 64 + 128] (Ethers.toUtf8Bytes rest).
Proof.
  intros H. cbn [Ethers.toUtf8Bytes]. zbool.
  rewrite land_0x3f, shiftr_div by lia. change (2 ^ 6) with 64.
  rewrite lor_0xc0, lor_0x80 by (Z.div_mod_to_equations; lia).
  reflexivity.
Qed.

Lemma toUtf8Bytes_3 c rest :
  0x800 <= c < 0x10000 -> high_surrogate c = false ->
  Ethers.toUtf8Bytes (c :: rest)
  = Ethers.push [c / 4096 + 224; (c / 64) mod 64 + 128; c mod 64 + 128]
      (Ethers.toUtf8Bytes rest).
Proof.
  intros H Hs. cbn [Ethers.toUtf8Bytes]. zbool.
  rewrite high_surrogate_mask, Hs by (apply code_unit_range; lia).
  rewrite !land_0x3f, !shiftr_div by lia.
  change (2 ^ 6) with 64. change (2 ^ 12) with 4096.
  rewrite lor_0xe0 by (Z.div_mod_to_equations; lia).
  rewrite !lor_0x80 by (Z.div_mod_to_equations; lia).
  reflexivity.
Qed.

(** The code point of a surrogate pair. *)
Lemma toUtf8Bytes_4 c c2 rest :
  high_surrogate c = true -> low_surrogate c2 = true ->
  let p := 0x10000 + (c - 0xd800) * 1024 + (c2 - 0xdc00) in
  Ethers.toUtf8Bytes (c :: c2 :: rest)
  = Ethers.push [p / 262144 + 240; (p / 4096) mod 64 + 128;
                 (p / 64) mod 64 + 128; p mod 64 + 128]
      (Ethers.toUtf8Bytes rest).
Proof.
  intros Hc Hc2 p. cbn [Ethers.toUtf8Bytes].
  assert (Rc : 0xd800 <= c <= 0xdbff) by (unfold high_surrogate in Hc; lia).
  assert (Rc2 : 0xdc00 <= c2 <= 0xdfff) by (unfold low_surrogate in Hc2; lia).
  replace (c <? 0x80) with false by (symmetry; apply Z.ltb_ge; lia).
  replace (c <? 0x800) with false by (symmetry; apply Z.ltb_ge; lia).
  rewrite high_surrogate_mask, Hc by (apply code_unit_range; lia).
  rewrite low_surrogate_mask, Hc2 by (apply code_unit_range; lia).
  rewrite !land_0x3ff, Z.shiftl_mul_pow2 by lia. change (2 ^ 10) with 1024.
  replace (0x10000 + c mod 1024 * 1024 + c2 mod 1024) with p
    by (unfold p; Z.div_mod_to_equations; lia).
  assert (Rp : 0x10000 <= p < 0x110000) by (unfold p; lia).
  clearbody p.
  rewrite !land_0x3f, !shiftr_div by lia.
  change (2 ^ 6) with 64. change (2 ^ 12) with 4096. change (2 ^ 18) with 262144.
  rewrite lor_0xf0 by (Z.div_mod_to_equations; lia).
  rewrite !lor_0x80 by (Z.div_mod_to_equations; lia).
  reflexivity.
Qed.

Lemma toUtf8Bytes_unpaired_end c :
  high_surrogate c = true -> exists e, Ethers.toUtf8Bytes [c] = Throw e.
Proof.
  intros Hc. cbn [Ethers.toUtf8Bytes].
  assert (Rc : 0xd800 <= c <= 0xdbff) by (unfold high_surrogate in Hc; lia).
  replace (c <? 0x80) with false by (symmetry; apply Z.ltb_ge; lia).
  replace (c <? 0x800) with false by (symmetry; apply Z.ltb_ge; lia).
  rewrite high_surrogate_mask, Hc by (apply code_unit_range; lia).
  eexists. reflexivity.
Qed.

Lemma toUtf8Bytes_unpaired c c2 rest :
  high_surrogate c = true -> code_unit c2 = true -> low_surrogate c2 = false ->
  exists e, Ethers.toUtf8Bytes (c :: c2 :: rest) = Throw e.
Proof.
  intros Hc Hu Hc2. cbn [Ethers.toUtf8Bytes].
  assert (Rc : 0xd800 <= c <= 0xdbff) by (unfold high_surrogate in Hc; lia).
  replace (c <? 0x80) with false by (symmetry; apply Z.ltb_ge; lia).
  replace (c <? 0x800) with false by (symmetry; apply Z.ltb_ge; lia).
  rewrite high_surrogate_mask, Hc by (apply code_unit_range; lia).
  rewrite low_surrogate_mask, Hc2 by exact Hu.
  eexists. reflexivity.
Qed.

Lemma fromCodePoint_pair c c2 :
  high_surrogate c = true -> low_surrogate c2 = true ->
  Ethers.fromCodePoint (0x10000 + (c - 0xd800) * 1024 + (c2 - 0xdc00)) = [c; c2].
Proof.
  intros Hc Hc2. unfold Ethers.fromCodePoint.
  assert (Rc : 0xd800 <= c <= 0xdbff) by (unfold high_surrogate in Hc; lia).
  assert (Rc2 : 0xdc00 <= c2 <= 0xdfff) by (unfold low_surrogate in Hc2; lia).
  replace (0x10000 + (c - 0xd800) * 1024 + (c2 - 0xdc00) <=? 0xffff) with false
    by (symmetry; apply Z.leb_gt; lia).
  rewrite !land_0x3ff, shiftr_div by lia. change (2 ^ 10) with 1024.
  f_equal; [| f_equal]; Z.div_mod_to_equations; lia.
Qed.

Lemma fromCodePoint_unit c : c <= 0xffff -> Ethers.fromCodePoint c = [c].
Proof.
  intros H. unfold Ethers.fromCodePoint.
  replace (c <=? 0xffff) with true by (symmetry; apply Z.leb_le; lia). reflexivity.
Qed.

Lemma push_Normal {A} (xs ys : list A) : Ethers.push xs (Normal ys) = Normal (xs ++ ys).
Proof. reflexivity. Qed.

(** Encoding a well-formed string succeeds, and decoding the bytes gives the
    string back. *)
Lemma utf8_roundtrip_bounded (n : nat) :
  forall s, (List.length s <= n)%nat -> well_formed s = true ->
  exists bs cps,
    Ethers.toUtf8Bytes s = Normal bs /\
    Forall byte bs /\
    List.length bs = utf8_length s /\
    (~ In 0 s -> ~ In 0 bs) /\
    Ethers.getUtf8CodePoints bs = Normal cps /\
    flat_map Ethers.fromCodePoint cps = s.
Proof.
  induction n as [| n IH]; intros s Hlen Hwf.
  - destruct s; [| simpl in Hlen; lia].
    exists [], []. repeat split; auto.
  - destruct s as [| c rest].
    { exists [], []. repeat split; auto. }
    cbn [well_formed] in Hwf.
    destruct (high_surrogate c) eqn:Hhi.
    + (* a surrogate pair *)
      destruct rest as [| c2 rest']; [discriminate |].
      apply andb_prop in Hwf. destruct Hwf as [Hlo Hwf].
      destruct (IH rest') as (bs & cps & He & Hb & Hl & Hz & Hd & Hf);
        [simpl in Hlen; lia | exact Hwf |].
      assert (Rc : 0xd800 <= c <= 0xdbff) by (unfold high_surrogate in Hhi; lia).
      assert (Rc2 : 0xdc00 <= c2 <= 0xdfff) by (unfold low_surrogate in Hlo; lia).
      pose proof (toUtf8Bytes_4 c c2 rest' Hhi Hlo) as Henc. cbv zeta in Henc.
      pose proof (fromCodePoint_pair c c2 Hhi Hlo) as Hpair.
      set (p := 0x10000 + (c - 0xd800) * 1024 + (c2 - 0xdc00)) in *.
      assert (Rp : 0x10000 <= p < 0x110000) by (unfold p; lia).
      clearbody p.
      rewrite He, push_Normal in Henc.
      eexists. exists (p :: cps). split; [exact Henc |].
      split; [| split; [| split; [| split]]].
      * repeat (apply Forall_cons; [unfold byte; Z.div_mod_to_equations; lia |]).
        exact Hb.
      * cbn [utf8_length List.length app].
        replace (c <? 0x80) with false by (symmetry; apply Z.ltb_ge; lia).
        replace (c <? 0x800) with false by (symmetry; apply Z.ltb_ge; lia).
        rewrite Hhi, Hl. reflexivity.
      * intros Hnz Hin. cbn [app In] in Hin.
        destruct Hin as [Hin | [Hin | [Hin | [Hin | Hin]]]];
          try (revert Hin; Z.div_mod_to_equations; lia).
        apply Hz; [| exact Hin]. intros Hr. apply Hnz. right. right. exact Hr.
      * cbn [app]. rewrite getUtf8CodePoints_4; try (Z.div_mod_to_equations; lia).
        rewrite Hd, push_Normal. cbn [app]. f_equal. f_equal.
        Z.div_mod_to_equations. lia.
      * cbn [flat_map]. rewrite Hpair, Hf. reflexivity.
    + (* a single code unit *)
      apply andb_prop in Hwf. destruct Hwf as [Hcu Hwf].
      apply andb_prop in Hcu. destruct Hcu as [Hcu Hnlo].
      apply code_unit_range in Hcu.
      destruct (IH rest) as (bs & cps & He & Hb & Hl & Hz & Hd & Hf);
        [simpl in Hlen; lia | exact Hwf |].
      assert (Hns : c < 0xd800 \/ 0xdfff < c).
      { unfold high_surrogate in Hhi. unfold low_surrogate in Hnlo. lia. }
      destruct (Z.lt_ge_cases c 0x80) as [H1 | H1];
        [| destruct (Z.lt_ge_cases c 0x800) as [H2 | H2]].
      * (* one byte *)
        exists (c :: bs), (c :: cps).
        split; [rewrite toUtf8Bytes_1, He by lia; reflexivity |].
        split; [apply Forall_cons; [unfold byte; lia | exact Hb] |].
        split.
        { cbn [utf8_length List.length].
          replace (c <? 0x80) with true by (symmetry; apply Z.ltb_lt; lia).
          rewrite Hl. reflexivity. }
        split.
        { intros Hnz [Hin | Hin].
          - apply Hnz. left. exact Hin.
          - apply Hz; [| exact Hin]. intros Hr. apply Hnz. right. exact Hr. }
        split; [rewrite getUtf8CodePoints_1, Hd by lia; reflexivity |].
        cbn [flat_map]. rewrite fromCodePoint_unit, Hf by lia. reflexivity.
      * (* two bytes *)
        exists (c / 64 + 192 :: c mod 64 + 128 :: bs), (c :: cps).
        split; [rewrite toUtf8Bytes_2, He by lia; reflexivity |].
        split.
        { repeat (apply Forall_cons; [unfold byte; Z.div_mod_to_equations; lia |]).
          exact Hb. }
        split.
        { cbn [utf8_length List.length].
          replace (c <? 0x80) with false by (symmetry; apply Z.ltb_ge; lia).
          replace (c <? 0x800) with true by (symmetry; apply Z.ltb_lt; lia).
          rewrite Hl. reflexivity. }
        split.
        { intros Hnz Hin. cbn [In] in Hin.
          destruct Hin as [Hin | [Hin | Hin]];
            try (revert Hin; Z.div_mod_to_equations; lia).
          apply Hz; [| exact Hin]. intros Hr. apply Hnz. right. exact Hr. }
        split.
        { rewrite getUtf8CodePoints_2; try (Z.div_mod_to_equations; lia).
          rewrite Hd, push_Normal. cbn [app]. f_equal. f_equal.
          Z.div_mod_to_equations. lia. }
        cbn [flat_map]. rewrite fromCodePoint_unit, Hf by lia. reflexivity.
      * (* three bytes *)
        exists (c / 4096 + 224 :: (c / 64) mod 64 + 128 :: c mod 64 + 128 :: bs), (c :: cps).
        split; [rewrite toUtf8Bytes_3, He by (try lia; exact Hhi); reflexivity |].
        split.
        { repeat (apply Forall_cons; [unfold byte; Z.div_mod_to_equations; lia |]).
          exact Hb. }
        split.
        { cbn [utf8_length List.length].
          replace (c <? 0x80) with false by (symmetry; apply Z.ltb_ge; lia).
          replace (c <? 0x800) with false by (symmetry; apply Z.ltb_ge; lia).
          rewrite Hhi, Hl. reflexivity. }
        split.
        { intros Hnz Hin. cbn [In] in Hin.
          destruct Hin as [Hin | [Hin | [Hin | Hin]]];
            try (revert Hin; Z.div_mod_to_equations; lia).
          apply Hz; [| exact Hin]. intros Hr. apply Hnz. right. exact Hr. }
        split.
        { assert (Hres : (c / 4096 + 224 - 224) * 4096 + ((c / 64) mod 64 + 128 - 128) * 64
                         + (c mod 64 + 128 - 128) = c)
            by (Z.div_mod_to_equations; lia).
          rewrite getUtf8CodePoints_3; rewrite ?Hres; try (Z.div_mod_to_equations; lia).
          rewrite Hd, push_Normal. reflexivity. }
        cbn [flat_map]. rewrite fromCodePoint_unit, Hf by lia. reflexivity.
Qed.

Lemma utf8_roundtrip s :
  well_formed s = true ->
  exists bs cps,
    Ethers.toUtf8Bytes s = Normal bs /\
    Forall byte bs /\
    List.length bs = utf8_length s /\
    (~ In 0 s -> ~ In 0 bs) /\
    Ethers.getUtf8CodePoints bs = Normal cps /\
    flat_map Ethers.fromCodePoint cps = s.
Proof. apply (utf8_roundtrip_bounded (n := List.length s)). lia. Qed.

(** On any string of code units the encoder fails exactly on an unpaired
    high surrogate, and otherwise produces [utf8_length] bytes. *)
Lemma toUtf8Bytes_outcome_bounded (n : nat) :
  forall s, (List.length s <= n)%nat -> valid_string s ->
  if unpaired_high s
  then exists e, Ethers.toUtf8Bytes s = Throw e
  else exists bs, Ethers.toUtf8Bytes s = Normal bs /\ List.length bs = utf8_length s.
Proof.
  induction n as [| n IH]; intros s Hlen Hv.
  - destruct s; [| simpl in Hlen; lia]. cbn. exists []. auto.
  - destruct s as [| c rest]; [cbn; exists []; auto |].
    unfold valid_string in Hv. cbn [forallb] in Hv.
    apply andb_prop in Hv. destruct Hv as [Hc Hv].
    pose proof (proj1 (code_unit_range c) Hc) as Rc.
    cbn [unpaired_high utf8_length].
    destruct (high_surrogate c) eqn:Hhi.
    + assert (Rh : 0xd800 <= c <= 0xdbff) by (unfold high_surrogate in Hhi; lia).
      replace (c <? 0x80) with false by (symmetry; apply Z.ltb_ge; lia).
      replace (c <? 0x800) with false by (symmetry; apply Z.ltb_ge; lia).
      destruct rest as [| c2 rest'].
      * apply toUtf8Bytes_unpaired_end, Hhi.
      * cbn [forallb] in Hv. apply andb_prop in Hv. destruct Hv as [Hc2 Hv].
        destruct (low_surrogate c2) eqn:Hlo.
        -- specialize (IH rest'). 
           assert (Hl' : (List.length rest' <= n)%nat) by (simpl in Hlen; lia).
           specialize (IH Hl' Hv).
           rewrite (toUtf8Bytes_4 c c2 rest' Hhi Hlo).
           destruct (unpaired_high rest').
           ++ destruct IH as [e ->]. exists e. reflexivity.
           ++ destruct IH as (bs & -> & Hl). eexists. split; [reflexivity |].
              cbn [List.length app]. rewrite Hl. reflexivity.
        -- apply toUtf8Bytes_unpaired; assumption.
    + assert (Hl' : (List.length rest <= n)%nat) by (simpl in Hlen; lia).
      specialize (IH rest Hl' Hv).
      destruct (Z.lt_ge_cases c 0x80) as [H1 | H1];
        [| destruct (Z.lt_ge_cases c 0x800) as [H2 | H2]].
      * replace (c <? 0x80) with true by (symmetry; apply Z.ltb_lt; lia).
        rewrite toUtf8Bytes_1 by lia.
        destruct (unpaired_high rest).
        -- destruct IH as [e ->]. exists e. reflexivity.
        -- destruct IH as (bs & -> & Hl). eexists. split; [reflexivity |].
           cbn [List.length app]. rewrite Hl. reflexivity.
      * replace (c <? 0x80) with false by (symmetry; apply Z.ltb_ge; lia).
        replace (c <? 0x800) with true by (symmetry; apply Z.ltb_lt; lia).
        rewrite toUtf8Bytes_2 by lia.
        destruct (unpaired_high rest).
        -- destruct IH as [e ->]. exists e. reflexivity.
        -- destruct IH as (bs & -> & Hl). eexists. split; [reflexivity |].
           cbn [List.length app]. rewrite Hl. reflexivity.
      * replace (c <? 0x80) with false by (symmetry; apply Z.ltb_ge; lia).
        replace (c <? 0x800) with false by (symmetry; apply Z.ltb_ge; lia).
        rewrite toUtf8Bytes_3 by (try lia; exact Hhi).
        destruct (unpaired_high rest).
        -- destruct IH as [e ->]. exists e. reflexivity.
        -- destruct IH as (bs & -> & Hl). eexists. split; [reflexivity |].
           cbn [List.length app]. rewrite Hl. reflexivity.
Qed.

Lemma toUtf8Bytes_outcome s :
  valid_string s ->
  if unpaired_high s
  then exists e, Ethers.toUtf8Bytes s = Throw e
  else exists bs, Ethers.toUtf8Bytes s = Normal bs /\ List.length bs = utf8_length s.
Proof. apply (toUtf8Bytes_outcome_bounded (n := List.length s)). lia. Qed.

(* ===================================================================== *)
(** ** Hexadecimal strings and the bytes32 padding *)
(* ===================================================================== *)

Lemma parseHexPairs_hexlify bs :
  Forall byte bs ->
  Ethers.parseHexPairs
    (flat_map (fun v => [nth (Z.to_nat (Z.shiftr (Z.land v 0xf0) 4)) Ethers.HexCharacters 0;
                         nth (Z.to_nat (Z.land v 0x0f)) Ethers.HexCharacters 0]) bs)
  = Some bs.
Proof.
  induction 1 as [| b bs Hb _ IH]; [reflexivity |].
  cbn [flat_map app Ethers.parseHexPairs]. rewrite IH.
  pose proof (hex_facts_all Hb) as Hh. unfold hex_facts in Hh.
  destruct (Ethers.hexDigit _); [| discriminate].
  destruct (Ethers.hexDigit _); [| discriminate].
  apply Z.eqb_eq in Hh. rewrite Hh. reflexivity.
Qed.

Lemma getBytes_hexlify bs :
  Forall byte bs -> Ethers.getBytes (Ethers.hexlify bs) = Normal bs.
Proof.
  intros H. unfold Ethers.hexlify.
  change (lit "0x") with [48; 120]. cbn [app Ethers.getBytes].
  change ((48 =? 48) && ((120 =? 120) || (120 =? 88))) with true. cbv iota.
  rewrite parseHexPairs_hexlify by exact H. reflexivity.
Qed.

Lemma trimLength_padded bs k :
  ~ In 0 bs ->
  forall j, (j <= k)%nat ->
  Ethers.trimLength (bs ++ repeat 0 k) (List.length bs + j) = List.length bs.
Proof.
  intros Hnz. induction j as [| j IH]; intros Hj.
  - rewrite Nat.add_0_r.
    destruct bs as [| b bs'] using rev_ind; [reflexivity |].
    rewrite length_app. cbn [List.length]. rewrite Nat.add_1_r.
    cbn [Ethers.trimLength].
    rewrite <- app_assoc, nth_error_app2 by lia.
    rewrite Nat.sub_diag. cbn [app nth_error].
    destruct b; try reflexivity.
    exfalso. apply Hnz. apply in_or_app. right. left. reflexivity.
  - rewrite Nat.add_succ_r. cbn [Ethers.trimLength].
    rewrite nth_error_app2 by lia.
    replace (List.length bs + j - List.length bs)%nat with j by lia.
    rewrite (nth_error_repeat 0) by lia.
    apply IH. lia.
Qed.

Lemma decodeBytes32String_padded bs :
  Forall byte bs -> ~ In 0 bs -> (List.length bs <= 31)%nat ->
  Ethers.decodeBytes32String (Ethers.hexlify (bs ++ repeat 0 (32 - List.length bs)))
  = Ethers.toUtf8String bs.
Proof.
  intros Hb Hnz Hlen. unfold Ethers.decodeBytes32String.
  assert (Hpad : Forall byte (bs ++ repeat 0 (32 - List.length bs))).
  { apply Forall_app. split; [exact Hb |].
    apply Forall_forall. intros x Hx. apply repeat_spec in Hx. subst x.
    unfold byte. lia. }
  rewrite getBytes_hexlify by exact Hpad.
  rewrite length_app, repeat_length.
  replace (List.length bs + (32 - List.length bs))%nat with 32%nat by lia.
  cbn [Nat.eqb negb].
  rewrite nth_error_app2 by lia.
  rewrite (nth_error_repeat 0) by lia.
  assert (Ht : Ethers.trimLength (bs ++ repeat 0 (32 - List.length bs))
                 (List.length bs + (31 - List.length bs)) = List.length bs)
    by (apply trimLength_padded; [exact Hnz | lia]).
  replace (List.length bs + (31 - List.length bs))%nat with 31%nat in Ht by lia.
  rewrite Ht.
  rewrite firstn_app, Nat.sub_diag, firstn_all. cbn [firstn].
  rewrite app_nil_r. reflexivity.
Qed.

Lemma encodeBytes32String_Normal s bs :
  Ethers.toUtf8Bytes s = Normal bs -> (List.length bs <= 31)%nat ->
  Ethers.encodeBytes32String s
  = Normal (Ethers.hexlify (bs ++ repeat 0 (32 - List.length bs))).
Proof.
  intros He Hl. unfold Ethers.encodeBytes32String, Ethers.zeroPadBytes. rewrite He.
  replace (31 <? List.length bs)%nat with false by (symmetry; apply Nat.ltb_ge; lia).
  replace (32 <? List.length bs)%nat with false by (symmetry; apply Nat.ltb_ge; lia).
  reflexivity.
Qed.

(** When [stringToBytes32] throws. *)
Lemma stringToBytes32_throws s :
  valid_string s ->
  is_throw (stringToBytes32 s) = true <-> unencodable s.
Proof.
  intros Hv. unfold stringToBytes32, unencodable.
  destruct (Z.ltb_spec 31 (length s)) as [Hlong | Hshort].
  { cbn. split; auto. }
  pose proof (toUtf8Bytes_outcome Hv) as Ho.
  destruct (unpaired_high s) eqn:Hu.
  { destruct Ho as [e He]. unfold Ethers.encodeBytes32String. rewrite He. cbn.
    split; auto. }
  destruct Ho as (bs & He & Hl).
  destruct (Nat.ltb_spec 31 (utf8_length s)) as [Hbig | Hfit].
  - unfold Ethers.encodeBytes32String. rewrite He, Hl.
    replace (31 <? utf8_length s)%nat with true by (symmetry; apply Nat.ltb_lt; lia).
    cbn. split; auto.
  - rewrite (@encodeBytes32String_Normal s bs He) by lia. cbn.
    split; [discriminate |]. intros [H | [H | H]]; [lia | discriminate | lia].
Qed.

(** The round trip on the strings [stringToBytes32] can encode. *)
Lemma bytes32_roundtrip s :
  length s <= 31 -> ~ In 0 s -> well_formed s = true -> (utf8_length s <= 31)%nat ->
  exists h, stringToBytes32 s = Normal h /\ bytes32ToString h = Normal s.
Proof.
  intros Hlen Hnz Hwf Hfit.
  destruct (utf8_roundtrip s Hwf) as (bs & cps & He & Hb & Hl & Hz & Hd & Hf).
  exists (Ethers.hexlify (bs ++ repeat 0 (32 - List.length bs))). split.
  - unfold stringToBytes32.
    replace (31 <? length s) with false by (symmetry; apply Z.ltb_ge; lia).
    apply encodeBytes32String_Normal; [exact He | lia].
  - unfold bytes32ToString.
    rewrite decodeBytes32String_padded by (auto; lia).
    unfold Ethers.toUtf8String. rewrite Hd, Hf. reflexivity.
Qed.

Lemma ascii_string_facts s :
  ascii_string s ->
  valid_string s /\ well_formed s = true /\ ~ In 0 s /\ utf8_length s = List.length s.
Proof.
  unfold ascii_string, valid_string.
  induction 1 as [| c s Hc _ (IHv & IHw & IHz & IHl)]; [repeat split; auto |].
  cbn [forallb well_formed utf8_length List.length In].
  unfold code_unit, high_surrogate, low_surrogate.
  replace (c <? 0x80) with true by (symmetry; apply Z.ltb_lt; lia).
  replace (0xd800 <=? c) with false by (symmetry; apply Z.leb_gt; lia).
  replace (0xdc00 <=? c) with false by (symmetry; apply Z.leb_gt; lia).
  replace (0 <=? c) with true by (symmetry; apply Z.leb_le; lia).
  replace (c <? 65536) with true by (symmetry; apply Z.ltb_lt; lia).
  cbn [andb negb]. fold code_unit. rewrite IHl.
  repeat split; auto.
  intros [H0 | Hin]; [lia | exact (IHz Hin)].
Qed.

(** C7 (as amended).  [stringToBytes32] throws exactly when the string has
    more than 31 code units, or contains a high surrogate that no low
    surrogate follows, or its UTF-8 encoding has more than 31 bytes; and for
    every well-formed string of length at most 31 without null characters
    whose UTF-8 encoding fits in 31 bytes,
    [bytes32ToString (stringToBytes32 s) = s].  On ASCII strings without
    null characters this is the property as first stated: the conversion
    throws exactly when the length exceeds 31, and otherwise the two
    conversions are a round trip. *)
Theorem stringToBytes32_bytes32ToString_roundtrip (s : JsString) :
  valid_string s ->
  (is_throw (stringToBytes32 s) = true <-> unencodable s) /\
  (length s <= 31 -> ~ In 0 s -> well_formed s = true -> (utf8_length s <= 31)%nat ->
   exists h, stringToBytes32 s = Normal h /\ bytes32ToString h = Normal s) /\
  (ascii_string s ->
   (is_throw (stringToBytes32 s) = true <-> 31 < length s) /\
   (length s <= 31 ->
    exists h, stringToBytes32 s = Normal h /\ bytes32ToString h = Normal s)).
Proof.
  intros Hv. split; [| split].
  - apply stringToBytes32_throws, Hv.
  - apply bytes32_roundtrip.
  - intros Ha. destruct (ascii_string_facts Ha) as (_ & Hwf & Hnz & Hl).
    assert (Hno : unpaired_high s = false).
    { clear -Ha. induction Ha as [| c s Hc _ IH]; [reflexivity |].
      cbn [unpaired_high]. unfold high_surrogate.
      replace (0xd800 <=? c) with false by (symmetry; apply Z.leb_gt; lia).
      exact IH. }
    split.
    + rewrite (stringToBytes32_throws Hv). unfold unencodable, length in *.
      rewrite Hno, Hl. split; [intros [H | [H | H]]; [lia | discriminate | lia] | auto].
    + intros Hlen. apply bytes32_roundtrip; auto.
      rewrite Hl. unfold length in Hlen. lia.
Qed.

Lemma stringToBytes32_bytes32ToString_roundtrip_witness :
  (is_throw (stringToBytes32 Demo.mixed) = true <-> unencodable Demo.mixed) /\
  (exists h, stringToBytes32 Demo.mixed = Normal h /\ bytes32ToString h = Normal Demo.mixed) /\
  (exists h, stringToBytes32 (lit "PS-001") = Normal h /\
             bytes32ToString h = Normal (lit "PS-001")).
Proof.
  destruct (@stringToBytes32_bytes32ToString_roundtrip Demo.mixed) as (H1 & H2 & _);
    [reflexivity |].
  destruct (@stringToBytes32_bytes32ToString_roundtrip (lit "PS-001")) as (_ & _ & H3);
    [reflexivity |].
  split; [exact H1 |]. split.
  - apply H2.
    + vm_compute. discriminate.
    + vm_compute. intuition discriminate.
    + reflexivity.
    + vm_compute. lia.
  - apply H3.
    + vm_compute. repeat constructor.
    + vm_compute. discriminate.
Defined.

(** C7, as stated, fails: sixteen times U+00E9 is a string of length 16
    without null characters, and [stringToBytes32] throws on it, so it does
    not throw "exactly when the length exceeds 31" and there is no round
    trip on this string. *)
Lemma stringToBytes32_short_string_throws :
  length Demo.eacute16 = 16 /\
  ~ In 0 Demo.eacute16 /\
  stringToBytes32 Demo.eacute16 = Throw (Err "bytes32 string must be less than 32 bytes") /\
  ~ (forall s, valid_string s ->
       (is_throw (stringToBytes32 s) = true <-> 31 < length s) /\
       (length s <= 31 -> ~ In 0 s ->
        exists h, stringToBytes32 s = Normal h /\ bytes32ToString h = Normal s)).
Proof.
  split; [reflexivity |].
  split; [vm_compute; intuition discriminate |].
  split; [vm_compute; reflexivity |].
  intros H. destruct (H Demo.eacute16) as [[Hthrow _] _]; [reflexivity |].
  assert (Ht : is_throw (stringToBytes32 Demo.eacute16) = true) by (vm_compute; reflexivity).
  apply Hthrow in Ht. vm_compute in Ht. discriminate.
Qed.

(* ===================================================================== *)
(** ** The extraction loops *)
(* ===================================================================== *)

Lemma str_eqb_eq a b : str_eqb a b = true <-> a = b.
Proof.
  revert b. induction a as [| x a IH]; intros [| y b]; cbn; try (split; congruence).
  rewrite andb_true_iff, Z.eqb_eq, IH. split.
  - intros [-> ->]. reflexivity.
  - intros H. injection H. auto.
Qed.

Lemma str_eqb_refl a : str_eqb a a = true.
Proof. apply str_eqb_eq. reflexivity. Qed.

Section Extraction.

Variable iface : Interface.
Variable event : string.
Variable read : Result -> Completion JsVal.

Lemma event_arg_undecodable log :
  undecodable iface log -> event_arg iface event read log = None.
Proof. intros [e He]. unfold event_arg. rewrite He. reflexivity. Qed.

Lemma event_arg_decoded log d v :
  parseLog iface (topics log, data log) = Normal (Some d) ->
  name d = lit event ->
  read (args d) = Normal v ->
  event_arg iface event read log = Some v.
Proof.
  intros Hp Hn Hr. unfold event_arg. rewrite Hp, Hn, str_eqb_refl, Hr. reflexivity.
Qed.

Lemma event_arg_unreadable log d e :
  parseLog iface (topics log, data log) = Normal (Some d) ->
  read (args d) = Throw e ->
  event_arg iface event read log = None.
Proof.
  intros Hp Hr. unfold event_arg. rewrite Hp, Hr.
  destruct (str_eqb (name d) (lit event)); reflexivity.
Qed.

Lemma event_arg_other_event log :
  (forall d, parseLog iface (topics log, data log) = Normal (Some d) ->
             name d <> lit event) ->
  event_arg iface event read log = None.
Proof.
  intros H. unfold event_arg.
  destruct (parseLog iface (topics log, data log)) as [[d |] | e]; try reflexivity.
  destruct (str_eqb (name d) (lit event)) eqn:Hn; [| reflexivity].
  apply str_eqb_eq in Hn. exfalso. apply (H d); [reflexivity | exact Hn].
Qed.

Lemma first_event_arg_skip pre bad post default :
  (forall l, In l bad -> event_arg iface event read l = None) ->
  first_event_arg iface event read (pre ++ bad ++ post) default
  = first_event_arg iface event read (pre ++ post) default.
Proof.
  intros Hbad. induction pre as [| x pre IH]; cbn [app first_event_arg].
  - induction bad as [| b bad IHb]; [reflexivity |].
    cbn [app first_event_arg]. rewrite (Hbad b) by (left; reflexivity).
    apply IHb. intros l Hl. apply Hbad. right. exact Hl.
  - destruct (event_arg iface event read x); [reflexivity | exact IH].
Qed.

Lemma first_event_arg_match pre log post default v :
  (forall l, In l pre -> event_arg iface event read l = None) ->
  event_arg iface event read log = Some v ->
  first_event_arg iface event read (pre ++ log :: post) default = v.
Proof.
  intros Hpre Hlog.
  rewrite <- (app_nil_l (pre ++ log :: post)), first_event_arg_skip by exact Hpre.
  cbn [app first_event_arg]. rewrite Hlog. reflexivity.
Qed.

Lemma first_event_arg_absent logs default :
  (forall l, In l logs -> event_arg iface event read l = None) ->
  first_event_arg iface event read logs default = default.
Proof.
  intros H.
  rewrite <- (app_nil_r logs), <- (app_nil_l (logs ++ [])), first_event_arg_skip by exact H.
  reflexivity.
Qed.

End Extraction.

Lemma event_arg_not_decoded iface event read log :
  ~ decodes_to iface event log -> event_arg iface event read log = None.
Proof.
  intros H. apply event_arg_other_event. intros d Hp Hn. apply H. exists d. auto.
Qed.

Lemma event_arg_yields iface event read log v :
  event_arg iface event read log = Some v <-> yields iface event read log v.
Proof.
  unfold event_arg, yields. split.
  - destruct (parseLog iface (topics log, data log)) as [[d |] | e]; try discriminate.
    destruct (str_eqb (name d) (lit event)) eqn:Hn; [| discriminate].
    destruct (read (args d)) as [u | e] eqn:Hr; [| discriminate].
    intros H. injection H as ->. exists d. apply str_eqb_eq in Hn. auto.
  - intros (d & Hp & Hn & Hr). rewrite Hp, Hn, str_eqb_refl, Hr. reflexivity.
Qed.

Lemma event_arg_yields_nothing iface event read log :
  (forall v, ~ yields iface event read log v) -> event_arg iface event read log = None.
Proof.
  intros H. destruct (event_arg iface event read log) as [v |] eqn:Hv; [| reflexivity].
  exfalso. apply (H v), event_arg_yields, Hv.
Qed.

(** Checking by evaluation that no entry of a list yields an argument. *)
Lemma nothing_yielded iface event read (pre : list Log) :
  forallb (fun l => match event_arg iface event read l with
                    | Some _ => false
                    | None => true
                    end) pre = true ->
  forall l, In l pre -> forall u, ~ yields iface event read l u.
Proof.
  intros H l Hl u Hy. rewrite forallb_forall in H. specialize (H l Hl).
  apply event_arg_yields in Hy. rewrite Hy in H. discriminate.
Qed.

Lemma decodes_when_yields iface event read log v :
  yields iface event read log v -> decodes_to iface event log.
Proof. intros (d & Hp & Hn & _). exists d. auto. Qed.

(** The two cases of an extraction. *)
Lemma first_event_arg_cases iface event read logs default :
  ((forall l, In l logs -> forall v, ~ yields iface event read l v) ->
   first_event_arg iface event read logs default = default) /\
  (forall pre log post v,
     logs = pre ++ log :: post ->
     (forall l, In l pre -> forall u, ~ yields iface event read l u) ->
     yields iface event read log v ->
     first_event_arg iface event read logs default = v).
Proof.
  split.
  - intros Hno. apply first_event_arg_absent.
    intros l Hl. apply event_arg_yields_nothing, Hno, Hl.
  - intros pre log post v -> Hpre Hlog.
    apply first_event_arg_match.
    + intros l Hl. apply event_arg_yields_nothing, Hpre, Hl.
    + apply event_arg_yields, Hlog.
Qed.

(** Each loop is the extraction of the specification at its event name and
    its argument. *)
Ltac scan_is_first_event logs :=
  induction logs as [| log rest IH]; [reflexivity |];
  cbn; unfold event_arg, named, named_or_second;
  destruct (parseLog _ _) as [[d |] | e]; try exact IH;
  destruct (str_eqb _ _); [| exact IH];
  match goal with
  | |- context [match ?r with Normal _ => _ | Throw _ => _ end] =>
      destruct r; [reflexivity | exact IH]
  end.

Lemma submitProposal_scan_spec c logs tokenId :
  submitProposal_scan c logs tokenId
  = first_event_arg (interface c) "ProposalSubmitted" (named "tokenId") logs tokenId.
Proof. scan_is_first_event logs. Qed.

Lemma reviseProposal_scan_spec c logs newTokenId :
  reviseProposal_scan c logs newTokenId
  = first_event_arg (interface c) "ProposalRevised" (named "newTokenId") logs newTokenId.
Proof. scan_is_first_event logs. Qed.

Lemma amendProposal_scan_spec c logs newTokenId :
  amendProposal_scan c logs newTokenId
  = first_event_arg (interface c) "ProposalAmended" (named "newTokenId") logs newTokenId.
Proof. scan_is_first_event logs. Qed.

Lemma submitSeparateGAB_scan_spec c logs tokenId :
  submitSeparateGAB_scan c logs tokenId
  = first_event_arg (interface c) "ProposalSubmitted" (named "tokenId") logs tokenId.
Proof. scan_is_first_event logs. Qed.

Lemma submitJointGAB_scan_spec c logs tokenId :
  submitJointGAB_scan c logs tokenId
  = first_event_arg (interface c) "ProposalSubmitted" (named "tokenId") logs tokenId.
Proof. scan_is_first_event logs. Qed.

Lemma addAgency_scan_spec c logs agencyAddress :
  addAgency_scan c logs agencyAddress
  = first_event_arg (interface c) "AgencyAdded" (named_or_second "agencyContract") logs agencyAddress.
Proof. scan_is_first_event logs. Qed.

Lemma addDepartment_scan_spec c logs departmentAddress :
  addDepartment_scan c logs departmentAddress
  = first_event_arg (interface c) "DepartmentAdded" (named_or_second "deptContract") logs departmentAddress.
Proof. scan_is_first_event logs. Qed.

Lemma addRegularDepartment_scan_spec c logs departmentAddress :
  addRegularDepartment_scan c logs departmentAddress
  = first_event_arg (interface c) "DepartmentAdded" (named_or_second "deptContract") logs departmentAddress.
Proof. scan_is_first_event logs. Qed.

(** C2.  A log entry on which [parseLog] throws is skipped by every
    extraction loop: inserting any block of such entries anywhere in the log
    list, in particular before the first matching entry, leaves the value of
    the loop unchanged. *)
Theorem undecodable_entries_are_skipped
    (c : Contract) (pre bad post : list Log) (initial : JsVal) :
  (forall l, In l bad -> undecodable (interface c) l) ->
  submitProposal_scan c (pre ++ bad ++ post) initial = submitProposal_scan c (pre ++ post) initial /\
  reviseProposal_scan c (pre ++ bad ++ post) initial = reviseProposal_scan c (pre ++ post) initial /\
  amendProposal_scan c (pre ++ bad ++ post) initial = amendProposal_scan c (pre ++ post) initial /\
  submitSeparateGAB_scan c (pre ++ bad ++ post) initial = submitSeparateGAB_scan c (pre ++ post) initial /\
  submitJointGAB_scan c (pre ++ bad ++ post) initial = submitJointGAB_scan c (pre ++ post) initial /\
  addAgency_scan c (pre ++ bad ++ post) initial = addAgency_scan c (pre ++ post) initial /\
  addDepartment_scan c (pre ++ bad ++ post) initial = addDepartment_scan c (pre ++ post) initial /\
  addRegularDepartment_scan c (pre ++ bad ++ post) initial = addRegularDepartment_scan c (pre ++ post) initial.
Proof.
  intros Hbad.
  repeat split;
    rewrite ?submitProposal_scan_spec, ?reviseProposal_scan_spec, ?amendProposal_scan_spec,
      ?submitSeparateGAB_scan_spec, ?submitJointGAB_scan_spec, ?addAgency_scan_spec,
      ?addDepartment_scan_spec, ?addRegularDepartment_scan_spec;
    apply first_event_arg_skip;
    intros l Hl; apply event_arg_undecodable, Hbad, Hl.
Qed.

Lemma undecodable_entries_are_skipped_witness :
  submitProposal_scan Demo.contract (Demo.before_noise ++ Demo.noise ++ Demo.after_noise) (VBigInt 0)
  = submitProposal_scan Demo.contract (Demo.before_noise ++ Demo.after_noise) (VBigInt 0) /\
  reviseProposal_scan Demo.contract (Demo.before_noise ++ Demo.noise ++ Demo.after_noise) (VBigInt 0)
  = reviseProposal_scan Demo.contract (Demo.before_noise ++ Demo.after_noise) (VBigInt 0) /\
  amendProposal_scan Demo.contract (Demo.before_noise ++ Demo.noise ++ Demo.after_noise) (VBigInt 0)
  = amendProposal_scan Demo.contract (Demo.before_noise ++ Demo.after_noise) (VBigInt 0) /\
  submitSeparateGAB_scan Demo.contract (Demo.before_noise ++ Demo.noise ++ Demo.after_noise) (VBigInt 0)
  = submitSeparateGAB_scan Demo.contract (Demo.before_noise ++ Demo.after_noise) (VBigInt 0) /\
  submitJointGAB_scan Demo.contract (Demo.before_noise ++ Demo.noise ++ Demo.after_noise) (VBigInt 0)
  = submitJointGAB_scan Demo.contract (Demo.before_noise ++ Demo.after_noise) (VBigInt 0) /\
  addAgency_scan Demo.contract (Demo.before_noise ++ Demo.noise ++ Demo.after_noise) (VBigInt 0)
  = addAgency_scan Demo.contract (Demo.before_noise ++ Demo.after_noise) (VBigInt 0) /\
  addDepartment_scan Demo.contract (Demo.before_noise ++ Demo.noise ++ Demo.after_noise) (VBigInt 0)
  = addDepartment_scan Demo.contract (Demo.before_noise ++ Demo.after_noise) (VBigInt 0) /\
  addRegularDepartment_scan Demo.contract (Demo.before_noise ++ Demo.noise ++ Demo.after_noise) (VBigInt 0)
  = addRegularDepartment_scan Demo.contract (Demo.before_noise ++ Demo.after_noise) (VBigInt 0).
Proof.
  apply (@undecodable_entries_are_skipped Demo.contract Demo.before_noise Demo.noise).
  intros l [<- | [<- | []]]; eexists; reflexivity.
Defined.

(** C6.  The loops of [addDepartment] and [addRegularDepartment] compute the
    same value on every interface, log list and initial value; and every
    extraction loop of the SDK is the one computation [first_event_arg],
    taken at the event name and the argument of its call site. *)
Theorem extraction_same_at_every_site (c : Contract) (logs : list Log) (initial : JsVal) :
  addDepartment_scan c logs initial = addRegularDepartment_scan c logs initial /\
  submitProposal_scan c logs initial
  = first_event_arg (interface c) "ProposalSubmitted" (named "tokenId") logs initial /\
  reviseProposal_scan c logs initial
  = first_event_arg (interface c) "ProposalRevised" (named "newTokenId") logs initial /\
  amendProposal_scan c logs initial
  = first_event_arg (interface c) "ProposalAmended" (named "newTokenId") logs initial /\
  submitSeparateGAB_scan c logs initial
  = first_event_arg (interface c) "ProposalSubmitted" (named "tokenId") logs initial /\
  submitJointGAB_scan c logs initial
  = first_event_arg (interface c) "ProposalSubmitted" (named "tokenId") logs initial /\
  addAgency_scan c logs initial
  = first_event_arg (interface c) "AgencyAdded" (named_or_second "agencyContract") logs initial /\
  addDepartment_scan c logs initial
  = first_event_arg (interface c) "DepartmentAdded" (named_or_second "deptContract") logs initial /\
  addRegularDepartment_scan c logs initial
  = first_event_arg (interface c) "DepartmentAdded" (named_or_second "deptContract") logs initial.
Proof.
  split.
  - rewrite addDepartment_scan_spec, addRegularDepartment_scan_spec. reflexivity.
  - repeat apply conj;
      first [ apply submitProposal_scan_spec | apply reviseProposal_scan_spec
            | apply amendProposal_scan_spec | apply submitSeparateGAB_scan_spec
            | apply submitJointGAB_scan_spec | apply addAgency_scan_spec
            | apply addDepartment_scan_spec | apply addRegularDepartment_scan_spec ].
Qed.

(* ===================================================================== *)
(** ** config.ts: [configure] *)
(* ===================================================================== *)

Lemma includes_mode_spec mode :
  includes_mode mode = true <-> mode = lit "testnet" \/ mode = lit "mainnet".
Proof.
  unfold includes_mode. rewrite orb_true_iff, !str_eqb_eq.
  split; intros [H | H]; auto.
Qed.

(** C8.  [configure] throws, leaving the stored configuration, the cached
    provider and the rest of the state as they were, when [chainMode] is
    neither 'testnet' nor 'mainnet' or [apiKey] is empty; otherwise it
    stores exactly the given configuration and resets the cached provider to
    [null]. *)
Theorem configure_validates_before_mutating (config : SDKConfig) (w : World) :
  ((chainMode config <> lit "testnet" /\ chainMode config <> lit "mainnet")
   \/ apiKey config = [] ->
   exists e, configure config w = (Throw e, w)) /\
  ((chainMode config = lit "testnet" \/ chainMode config = lit "mainnet")
   /\ apiKey config <> [] ->
   configure config w
   = (Normal tt,
      {| _config := Some config;
         _provider := None;
         CONTRACT_ADDRESSES := CONTRACT_ADDRESSES w;
         process_env := process_env w;
         trace := trace w |})).
Proof.
  destruct config as [mode key pk]. cbn [chainMode apiKey]. unfold configure.
  cbn [chainMode apiKey privateKey].
  split.
  - intros Hbad.
    destruct (includes_mode mode) eqn:Hinc.
    + apply includes_mode_spec in Hinc.
      destruct Hbad as [[Ht Hm] | Hkey]; [destruct Hinc; contradiction |].
      subst key.
      destruct (negb (str_truthy mode) || negb true); eexists; reflexivity.
    + rewrite orb_true_r. eexists. reflexivity.
  - intros [Hmode Hkey].
    assert (Hinc : includes_mode mode = true) by (apply includes_mode_spec, Hmode).
    rewrite Hinc.
    assert (Htr : str_truthy mode = true) by (destruct Hmode; subst mode; reflexivity).
    rewrite Htr. cbn [negb orb].
    destruct key as [| k ks]; [contradiction |].
    reflexivity.
Qed.

Lemma configure_validates_before_mutating_witness :
  (exists e,
     configure {| chainMode := lit "devnet"; apiKey := lit "key"; privateKey := None |}
       Demo.world = (Throw e, Demo.world)) /\
  configure Demo.config Demo.fresh
  = (Normal tt,
     {| _config := Some Demo.config; _provider := None;
        CONTRACT_ADDRESSES := CONTRACT_ADDRESSES Demo.fresh;
        process_env := process_env Demo.fresh; trace := trace Demo.fresh |}).
Proof.
  split.
  - apply (proj1 (configure_validates_before_mutating
                    {| chainMode := lit "devnet"; apiKey := lit "key"; privateKey := None |}
                    Demo.world)).
    left. split; discriminate.
  - apply (proj2 (configure_validates_before_mutating Demo.config Demo.fresh)).
    split; [left; reflexivity | discriminate].
Defined.

(* ===================================================================== *)
(** ** utils.ts: [waitForTransaction] *)
(* ===================================================================== *)

(** C5.  [waitForTransaction] waits for the receipt of the transaction; when
    the wait yields a receipt it returns a record with [txHash],
    [blockNumber], [gasUsed] and [logs] copied from the receipt and
    [success] true exactly when the receipt's status is 1; and it throws
    exactly when the wait yields no receipt. *)
Theorem waitForTransaction_copies_receipt (tx : ContractTransactionResponse) (w : World) :
  snd (waitForTransaction tx w) = log_event w (EvWait (tx_hash tx)) /\
  (forall receipt, wait tx = Normal (Some receipt) ->
   exists r,
     fst (waitForTransaction tx w) = Normal r /\
     txHash r = Receipt.hash receipt /\
     blockNumber r = Receipt.blockNumber receipt /\
     gasUsed r = Receipt.gasUsed receipt /\
     logs r = Receipt.logs receipt /\
     (success r = true <-> Receipt.status receipt = Some 1)) /\
  (is_throw (fst (waitForTransaction tx w)) = true <->
   forall receipt, wait tx <> Normal (Some receipt)).
Proof.
  unfold waitForTransaction, await_wait, bind, emit, lift.
  destruct (wait tx) as [[receipt |] | e]; cbn.
  - split; [reflexivity |]. split.
    + intros r Hr. injection Hr as <-. eexists. split; [reflexivity |].
      cbn. repeat split; try reflexivity.
      * destruct (Receipt.status receipt) as [s |]; [| discriminate].
        intros Hs. apply Z.eqb_eq in Hs. subst s. reflexivity.
      * intros ->. reflexivity.
    + split; [discriminate |]. intros H. exfalso. apply (H receipt). reflexivity.
  - split; [reflexivity |]. split; [discriminate |].
    split; [discriminate | reflexivity].
  - split; [reflexivity |]. split; [discriminate |].
    split; [discriminate | reflexivity].
Qed.

Lemma waitForTransaction_copies_receipt_witness :
  (exists r,
     fst (waitForTransaction Demo.tx Demo.world) = Normal r /\
     txHash r = Receipt.hash Demo.receipt /\
     blockNumber r = Receipt.blockNumber Demo.receipt /\
     gasUsed r = Receipt.gasUsed Demo.receipt /\
     logs r = Receipt.logs Demo.receipt /\
     (success r = true <-> Receipt.status Demo.receipt = Some 1)) /\
  is_throw (fst (waitForTransaction Demo.dropped_tx Demo.world)) = true.
Proof.
  split.
  - apply (proj1 (proj2 (waitForTransaction_copies_receipt Demo.tx Demo.world))).
    reflexivity.
  - apply (proj2 (proj2 (waitForTransaction_copies_receipt Demo.dropped_tx Demo.world))).
    intros receipt. discriminate.
Defined.

(* ===================================================================== *)
(** ** Which computations talk to the chain *)
(* ===================================================================== *)

Lemma silent_ret {A} (a : A) : silent (ret a).
Proof. intros w. reflexivity. Qed.

Lemma silent_throw {A} (e : Exn) : silent (@throw A e).
Proof. intros w. reflexivity. Qed.

Lemma silent_lift {A} (c : Completion A) : silent (lift c).
Proof. intros w. reflexivity. Qed.

Lemma silent_get : silent get.
Proof. intros w. reflexivity. Qed.

Lemma silent_set_config c : silent (set_config c).
Proof. intros w. reflexivity. Qed.

Lemma silent_set_provider p : silent (set_provider p).
Proof. intros w. reflexivity. Qed.

Lemma silent_set_addresses b : silent (set_addresses b).
Proof. intros w. reflexivity. Qed.

Lemma silent_bind {A B} (m : M A) (k : A -> M B) :
  silent m -> (forall a, silent (k a)) -> silent (bind m k).
Proof.
  intros Hm Hk w. unfold bind. specialize (Hm w).
  destruct (m w) as [[a | e] w1]; cbn in Hm |- *.
  - rewrite Hk. exact Hm.
  - exact Hm.
Qed.

Create HintDb silent_db.
#[local] Hint Resolve silent_ret silent_throw silent_lift silent_get silent_set_config
  silent_set_provider silent_set_addresses : silent_db.

Ltac silence :=
  repeat first
    [ solve [auto with silent_db nocore]
    | apply silent_bind; [| intros ?]
    | match goal with
      | |- silent (if ?b then _ else _) => destruct b
      | |- silent (match ?x with _ => _ end) => destruct x
      end ].

Lemma silent_configure config : silent (configure config).
Proof. unfold configure. silence. Qed.
#[local] Hint Resolve silent_configure : silent_db.

Lemma silent_getConfig : silent getConfig.
Proof. unfold getConfig. silence. Qed.
#[local] Hint Resolve silent_getConfig : silent_db.

Lemma silent_getNetworkConfig : silent getNetworkConfig.
Proof. unfold getNetworkConfig. silence. Qed.
#[local] Hint Resolve silent_getNetworkConfig : silent_db.

Lemma silent_getRpcUrl : silent getRpcUrl.
Proof. unfold getRpcUrl. silence. Qed.
#[local] Hint Resolve silent_getRpcUrl : silent_db.

Lemma silent_getProvider : silent getProvider.
Proof. unfold getProvider. silence. Qed.
#[local] Hint Resolve silent_getProvider : silent_db.

Lemma silent_getChainMode : silent getChainMode.
Proof. unfold getChainMode. silence. Qed.
#[local] Hint Resolve silent_getChainMode : silent_db.

Lemma silent_isTestnet : silent isTestnet.
Proof. unfold isTestnet. silence. Qed.
#[local] Hint Resolve silent_isTestnet : silent_db.

Lemma silent_isMainnet : silent isMainnet.
Proof. unfold isMainnet. silence. Qed.
#[local] Hint Resolve silent_isMainnet : silent_db.

Lemma silent_assign_address mode f : silent (assign_address mode f).
Proof. unfold assign_address. silence. Qed.
#[local] Hint Resolve silent_assign_address : silent_db.

Lemma silent_setContractAddresses d b m : silent (setContractAddresses d b m).
Proof. unfold setContractAddresses. silence. Qed.
#[local] Hint Resolve silent_setContractAddresses : silent_db.

Lemma silent_getContractAddresses : silent getContractAddresses.
Proof. unfold getContractAddresses. silence. Qed.
#[local] Hint Resolve silent_getContractAddresses : silent_db.

Lemma silent_runner_of signer : silent (runner_of signer).
Proof. unfold runner_of. silence. Qed.
#[local] Hint Resolve silent_runner_of : silent_db.

Section Traces.

Variable E : Env.

Lemma silent_getSigner pk : silent (getSigner E pk).
Proof. unfold getSigner, newWallet. silence. Qed.
#[local] Hint Resolve silent_getSigner : silent_db.

Lemma silent_getAgencyContract a s : silent (getAgencyContract E a s).
Proof. unfold getAgencyContract. silence. Qed.
#[local] Hint Resolve silent_getAgencyContract : silent_db.

Lemma silent_getDepartmentContract a s : silent (getDepartmentContract E a s).
Proof. unfold getDepartmentContract. silence. Qed.
#[local] Hint Resolve silent_getDepartmentContract : silent_db.

Lemma silent_getDBTCContract a s : silent (getDBTCContract E a s).
Proof. unfold getDBTCContract. silence.
Qed.
#[local] Hint Resolve silent_getDBTCContract : silent_db.

Lemma send_run c method ps w :
  send E c method ps w = (transact E c method ps, log_event w (EvSend (target c) method ps)).
Proof. reflexivity. Qed.

Lemma call_run c method ps w :
  call E c method ps w = (staticCall E c method ps, log_event w (EvCall (target c) method ps)).
Proof. reflexivity. Qed.

Lemma waitForTransaction_Normal tx w r w' :
  waitForTransaction tx w = (Normal r, w') ->
  (exists receipt, wait tx = Normal (Some receipt)) /\
  w' = log_event w (EvWait (tx_hash tx)).
Proof.
  unfold waitForTransaction, await_wait, bind, emit, lift.
  destruct (wait tx) as [[receipt |] | e]; cbn; intros H; inversion H; subst.
  split; [exists receipt |]; reflexivity.
Qed.

Lemma mutates_after_silent {A B} (m : M A) (k : A -> M B) :
  silent m -> (forall a, mutates E (k a)) -> mutates E (bind m k).
Proof.
  intros Hm Hk w b w' Hrun. unfold bind in Hrun. specialize (Hm w).
  destruct (m w) as [[a | e] w1]; cbn in Hm; [| discriminate].
  destruct (Hk a w1 b w' Hrun) as (evs & Ht & He).
  exists evs. rewrite Ht, Hm. auto.
Qed.

Lemma mutates_then_silent {A B} (m : M A) (k : A -> M B) :
  mutates E m -> (forall a, silent (k a)) -> mutates E (bind m k).
Proof.
  intros Hm Hk w b w' Hrun. unfold bind in Hrun.
  destruct (m w) as [[a | e] w1] eqn:Hmw; [| discriminate].
  destruct (Hm w a w1 Hmw) as (evs & Ht & He).
  exists evs. pose proof (Hk a w1) as Hs. rewrite Hrun in Hs. cbn in Hs.
  rewrite Hs, Ht. auto.
Qed.

Lemma mutates_send_wait_tail c method ps :
  mutates E (tx <- send E c method ps ;; waitForTransaction tx).
Proof.
  intros w r w' Hrun. unfold bind in Hrun. rewrite send_run in Hrun.
  destruct (transact E c method ps) as [tx | e] eqn:Htx; [| discriminate].
  apply waitForTransaction_Normal in Hrun. destruct Hrun as [[receipt Hw] ->].
  exists [EvSend (target c) method ps; EvWait (tx_hash tx)]. split.
  - cbn. rewrite <- app_assoc. reflexivity.
  - exists c, method, ps, tx, receipt. auto.
Qed.

Lemma mutates_send_wait {B} c method ps (k : TransactionResult -> M B) :
  (forall r, silent (k r)) ->
  mutates E (tx <- send E c method ps ;; r <- waitForTransaction tx ;; k r).
Proof.
  intros Hk w b w' Hrun. unfold bind in Hrun. rewrite send_run in Hrun.
  destruct (transact E c method ps) as [tx | e] eqn:Htx; [| discriminate].
  destruct (waitForTransaction tx _) as [[r | e] w1] eqn:Hwait; [| discriminate].
  apply waitForTransaction_Normal in Hwait. destruct Hwait as [[receipt Hw] ->].
  exists [EvSend (target c) method ps; EvWait (tx_hash tx)]. split.
  - pose proof (Hk r (log_event (log_event w (EvSend (target c) method ps))
                        (EvWait (tx_hash tx)))) as Hs.
    rewrite Hrun in Hs. cbn in Hs. rewrite Hs, <- app_assoc. reflexivity.
  - exists c, method, ps, tx, receipt. auto.
Qed.

Lemma queries_after_silent {A B} (m : M A) (k : A -> M B) :
  silent m -> (forall a, queries (k a)) -> queries (bind m k).
Proof.
  intros Hm Hk w b w' Hrun. unfold bind in Hrun. specialize (Hm w).
  destruct (m w) as [[a | e] w1]; cbn in Hm; [| discriminate].
  destruct (Hk a w1 b w' Hrun) as (evs & Ht & He).
  exists evs. rewrite Ht, Hm. auto.
Qed.

Lemma queries_then_silent {A B} (m : M A) (k : A -> M B) :
  queries m -> (forall a, silent (k a)) -> queries (bind m k).
Proof.
  intros Hm Hk w b w' Hrun. unfold bind in Hrun.
  destruct (m w) as [[a | e] w1] eqn:Hmw; [| discriminate].
  destruct (Hm w a w1 Hmw) as (evs & Ht & He).
  exists evs. pose proof (Hk a w1) as Hs. rewrite Hrun in Hs. cbn in Hs.
  rewrite Hs, Ht. auto.
Qed.

Lemma queries_call c method ps : queries (call E c method ps).
Proof.
  intros w r w' Hrun. rewrite call_run in Hrun. inversion Hrun; subst.
  exists [EvCall (target c) method ps]. split; [reflexivity |].
  split; [discriminate | reflexivity].
Qed.

(** The calls handed to [Promise.all] are all issued. *)
Lemma start_all_calls (cs : list (Contract * string * list JsVal)) w :
  trace (snd (start_all (map (fun '(c, m, p) => call E c m p) cs) w))
  = trace w ++ map (fun '(c, m, p) => EvCall (target c) m p) cs.
Proof.
  revert w. induction cs as [| [[c m] p] cs IH]; intros w; cbn [map start_all].
  - rewrite app_nil_r. reflexivity.
  - rewrite call_run. specialize (IH (log_event w (EvCall (target c) m p))).
    destruct (start_all _ _) as [rs w2]. cbn in IH |- *.
    rewrite IH, <- app_assoc. reflexivity.
Qed.

Lemma queries_Promise_all (cs : list (Contract * string * list JsVal)) :
  cs <> [] -> queries (Promise_all (map (fun '(c, m, p) => call E c m p) cs)).
Proof.
  intros Hne w rs w' Hrun. unfold Promise_all in Hrun.
  pose proof (start_all_calls cs w) as Ht.
  destruct (start_all _ w) as [outcomes w2]. cbn in Ht.
  inversion Hrun; subst.
  eexists. split; [exact Ht |]. split.
  - destruct cs; [contradiction | discriminate].
  - clear. induction cs as [| [[c m] p] cs IH]; [reflexivity | exact IH].
Qed.

Ltac mutation :=
  repeat first
    [ apply mutates_send_wait_tail
    | apply mutates_send_wait; intros; solve [silence]
    | apply mutates_after_silent; [solve [silence] | intros ?] ].

Ltac query :=
  repeat first
    [ apply queries_call
    | apply queries_then_silent; [apply queries_call | intros; solve [silence]]
    | apply queries_after_silent; [solve [silence] | intros ?] ].

Ltac unfold_exports :=
  cbv beta delta
    [submitProposal reviseProposal amendProposal submitSeparateGAB submitJointGAB
     addDocumentManager removeDocumentManager transferAgencyOwnership
     isDocumentManager getDocumentManagers
     addAgency setHouseAndSenate getAgency isAgencyRegistered getAgencyCodes
     getMainAgency getHouseAgency getSenateAgency getDepartmentOwner
     addDepartment addRegularDepartment assignPhaseResponsibility startBudgetCall
     advancePhase getCurrentPhase getCurrentFiscalYear getDepartment
     isDepartmentRegistered getDepartmentCodes getDepartmentCount
     getPhaseResponsibleDepartment getBudgetProposalContract getDBTCOwner].

Lemma queries_getAgencyInfo a : queries (getAgencyInfo E a).
Proof.
  unfold getAgencyInfo. apply queries_after_silent; [solve [silence] | intros c].
  apply queries_then_silent.
  - apply (@queries_Promise_all
             [(c, "getCode", []); (c, "getName", []); (c, "getDepartment", []);
              (c, "getOwner", [])]%string).
    discriminate.
  - intros rs. silence.
Qed.

Lemma queries_getDepartmentInfo a : queries (getDepartmentInfo E a).
Proof.
  unfold getDepartmentInfo. apply queries_after_silent; [solve [silence] | intros c].
  apply queries_then_silent.
  - apply (@queries_Promise_all
             [(c, "getCode", []); (c, "getName", []); (c, "getDBTC", []);
              (c, "getMainAgency", []); (c, "isStandalone", []);
              (c, "getIsActualDepartment", []); (c, "getAgencyCount", [])]%string).
    discriminate.
  - intros rs. silence.
Qed.

(** An export of agency.ts, department.ts or dbtc.ts either submits a
    transaction and waits for it, or performs read-only queries. *)
Lemma contract_export_interacts x :
  contract_export x = true -> mutates E (invoke E x) \/ queries (invoke E x).
Proof.
  destruct x; cbn [contract_export]; try discriminate; intros _;
    cbn [invoke]; unfold discard;
    first
      [ left; apply mutates_then_silent; [unfold_exports; solve [mutation] | intros; silence]
      | right; apply queries_then_silent;
        [ first [ apply queries_getAgencyInfo | apply queries_getDepartmentInfo
                | unfold_exports; solve [query] ]
        | intros; silence ] ].
Qed.

(** The other exports ask nothing of the chain. *)
Lemma other_export_silent x : contract_export x = false -> silent (invoke E x).
Proof.
  destruct x; cbn [contract_export]; try discriminate; intros _;
    cbn [invoke]; unfold discard; silence.
Qed.

(** C3 (as amended).  Every function exported from agency.ts, department.ts
    and dbtc.ts, when it returns normally, has either submitted one
    state-changing call and waited for its receipt, or performed read-only
    queries and nothing else; the other exported functions ([configure],
    [getConfig], [getChainMode], [isTestnet], [isMainnet],
    [setContractAddresses], [getPhaseName], [getStatusName],
    [stringToBytes32], [bytes32ToString]) never interact with a contract. *)
Theorem exported_functions_and_contracts (x : Export) (w : World) :
  (contract_export x = true ->
   forall w', invoke E x w = (Normal tt, w') ->
   exists evs, trace w' = trace w ++ evs /\
               (submitted_and_waited E evs \/ only_queries evs)) /\
  (contract_export x = false -> trace (snd (invoke E x w)) = trace w).
Proof.
  split.
  - intros Hx w' Hrun.
    destruct (contract_export_interacts x Hx) as [Hm | Hq].
    + destruct (Hm w tt w' Hrun) as (evs & Ht & He). exists evs. auto.
    + destruct (Hq w tt w' Hrun) as (evs & Ht & He). exists evs. auto.
  - intros Hx. apply other_export_silent, Hx.
Qed.

(* ===================================================================== *)
(** ** What the mutation wrappers return *)
(* ===================================================================== *)

Lemma waitForTransaction_receipt tx receipt w :
  wait tx = Normal (Some receipt) ->
  waitForTransaction tx w
  = (Normal (receipt_result receipt), log_event w (EvWait (tx_hash tx))).
Proof.
  intros Hw. unfold waitForTransaction, await_wait, bind, emit, lift, ret.
  rewrite Hw. unfold receipt_result.
  destruct (Receipt.status receipt) as [[| [p | p |] | p] |]; reflexivity.
Qed.

Lemma bind_Normal {A B} (m : M A) (k : A -> M B) w a w1 :
  m w = (Normal a, w1) -> bind m k w = k a w1.
Proof. intros H. unfold bind. rewrite H. reflexivity. Qed.

Lemma bind_Throw {A B} (m : M A) (k : A -> M B) w e w1 :
  m w = (Throw e, w1) -> bind m k w = (Throw e, w1).
Proof. intros H. unfold bind. rewrite H. reflexivity. Qed.

(** One step of a run: the first computation of a [bind] returns normally. *)
Ltac step H := erewrite bind_Normal; [| exact H].
Ltac step_by tac := erewrite bind_Normal; [| solve [tac]].

Lemma submitProposal_run agencyAddress uri data pk w signer w1 pd tx receipt :
  getSigner E pk w = (Normal signer, w1) ->
  prepareProposalData E data = Normal pd ->
  let contract := {| target := agencyAddress; interface := AgencyABI E;
                     runner := RunnerSigner signer |} in
  transact E contract "submitProposal" [VString uri; proposal_object pd] = Normal tx ->
  wait tx = Normal (Some receipt) ->
  submitProposal E agencyAddress uri data pk w
  = (Normal {| result := receipt_result receipt;
               value := submitProposal_scan contract (Receipt.logs receipt) (VBigInt 0) |},
     log_event (log_event w1 (EvSend agencyAddress "submitProposal"
                                [VString uri; proposal_object pd]))
       (EvWait (tx_hash tx))).
Proof.
  intros Hs Hp contract Htx Hw. unfold submitProposal.
  step Hs. step_by reflexivity.
  step_by ltac:(unfold lift; rewrite Hp; reflexivity).
  step_by ltac:(rewrite send_run; fold contract; rewrite Htx; reflexivity).
  step_by ltac:(apply waitForTransaction_receipt, Hw).
  reflexivity.
Qed.

Lemma addDepartment_run deptCode deptName mainAgencyName mainAgencyOwner
    isStandalone isActualDept pk dbtcAddress w signer w1 contract w2 tx receipt :
  getSigner E pk w = (Normal signer, w1) ->
  getDBTCContract E dbtcAddress (Some signer) w1 = (Normal contract, w2) ->
  let params := [VString deptCode; VString deptName; VString mainAgencyName;
                 VString mainAgencyOwner; VBool isStandalone; VBool isActualDept] in
  transact E contract "addDepartment" params = Normal tx ->
  wait tx = Normal (Some receipt) ->
  addDepartment E deptCode deptName mainAgencyName mainAgencyOwner
    isStandalone isActualDept pk dbtcAddress w
  = (Normal {| result := receipt_result receipt;
               value := addDepartment_scan contract (Receipt.logs receipt) (VString []) |},
     log_event (log_event w2 (EvSend (target contract) "addDepartment" params))
       (EvWait (tx_hash tx))).
Proof.
  intros Hs Hc params Htx Hw. unfold addDepartment.
  step Hs. step Hc.
  step_by ltac:(rewrite send_run; fold params; rewrite Htx; reflexivity).
  step_by ltac:(apply waitForTransaction_receipt, Hw).
  reflexivity.
Qed.

Lemma addAgency_run departmentAddress agencyCode agencyName ownerAddress pk
    w signer w1 tx receipt :
  getSigner E pk w = (Normal signer, w1) ->
  let contract := {| target := departmentAddress; interface := DepartmentABI E;
                     runner := RunnerSigner signer |} in
  let params := [VString agencyCode; VString agencyName; VString ownerAddress] in
  transact E contract "addAgency" params = Normal tx ->
  wait tx = Normal (Some receipt) ->
  addAgency E departmentAddress agencyCode agencyName ownerAddress pk w
  = (Normal {| result := receipt_result receipt;
               value := addAgency_scan contract (Receipt.logs receipt) (VString []) |},
     log_event (log_event w1 (EvSend departmentAddress "addAgency" params))
       (EvWait (tx_hash tx))).
Proof.
  intros Hs contract params Htx Hw. unfold addAgency.
  step Hs. step_by reflexivity.
  step_by ltac:(rewrite send_run; fold contract params; rewrite Htx; reflexivity).
  step_by ltac:(apply waitForTransaction_receipt, Hw).
  reflexivity.
Qed.

Lemma getDBTCContract_interface dbtcAddress signer w contract w' :
  getDBTCContract E dbtcAddress signer w = (Normal contract, w') ->
  interface contract = DBTCABI E.
Proof.
  unfold getDBTCContract, bind. intros H.
  match type of H with
  | (match ?x with _ => _ end) = _ => destruct x as [[address | e] w1]
  end; [| discriminate].
  destruct address as [| a al]; [discriminate |].
  destruct (runner_of signer w1) as [[r | e] w2]; [| discriminate].
  inversion H. reflexivity.
Qed.

(** C1 (as amended).  When the signer is available, the transaction is
    submitted and its receipt arrives, [submitProposal], [addDepartment] and
    [addAgency] return the summary of the receipt together with the argument
    of the first log entry of the receipt that decodes to the target event
    with a readable argument, whatever follows that entry: [args.tokenId] for
    'ProposalSubmitted' in [submitProposal]; [args.deptContract], or
    [args[1]] when that is falsy, for 'DepartmentAdded' in [addDepartment];
    [args.agencyContract], or [args[1]] when that is falsy, for 'AgencyAdded'
    in [addAgency].  The entries before it may fail to decode, decode to
    [null] or to another event, or decode to the event with an argument whose
    read throws: the [catch] of the loop passes over all of them. *)
Theorem extraction_returns_first_match
    (pre post : list Log) (log : Log) (v : JsVal) :
  (forall agencyAddress uri proposal pk w signer w1 pd tx receipt,
     getSigner E pk w = (Normal signer, w1) ->
     prepareProposalData E proposal = Normal pd ->
     transact E {| target := agencyAddress; interface := AgencyABI E;
                   runner := RunnerSigner signer |}
       "submitProposal" [VString uri; proposal_object pd] = Normal tx ->
     wait tx = Normal (Some receipt) ->
     Receipt.logs receipt = pre ++ log :: post ->
     (forall l, In l pre ->
      forall u, ~ yields (AgencyABI E) "ProposalSubmitted" (named "tokenId") l u) ->
     yields (AgencyABI E) "ProposalSubmitted" (named "tokenId") log v ->
     fst (submitProposal E agencyAddress uri proposal pk w)
     = Normal {| result := receipt_result receipt; value := v |}) /\
  (forall deptCode deptName mainAgencyName mainAgencyOwner isStandalone isActualDept
          pk dbtcAddress w signer w1 contract w2 tx receipt,
     getSigner E pk w = (Normal signer, w1) ->
     getDBTCContract E dbtcAddress (Some signer) w1 = (Normal contract, w2) ->
     transact E contract "addDepartment"
       [VString deptCode; VString deptName; VString mainAgencyName;
        VString mainAgencyOwner; VBool isStandalone; VBool isActualDept] = Normal tx ->
     wait tx = Normal (Some receipt) ->
     Receipt.logs receipt = pre ++ log :: post ->
     (forall l, In l pre ->
      forall u, ~ yields (DBTCABI E) "DepartmentAdded"
                    (named_or_second "deptContract") l u) ->
     yields (DBTCABI E) "DepartmentAdded" (named_or_second "deptContract") log v ->
     fst (addDepartment E deptCode deptName mainAgencyName mainAgencyOwner
            isStandalone isActualDept pk dbtcAddress w)
     = Normal {| result := receipt_result receipt; value := v |}) /\
  (forall departmentAddress agencyCode agencyName ownerAddress pk w signer w1 tx receipt,
     getSigner E pk w = (Normal signer, w1) ->
     transact E {| target := departmentAddress; interface := DepartmentABI E;
                   runner := RunnerSigner signer |}
       "addAgency" [VString agencyCode; VString agencyName; VString ownerAddress]
     = Normal tx ->
     wait tx = Normal (Some receipt) ->
     Receipt.logs receipt = pre ++ log :: post ->
     (forall l, In l pre ->
      forall u, ~ yields (DepartmentABI E) "AgencyAdded"
                    (named_or_second "agencyContract") l u) ->
     yields (DepartmentABI E) "AgencyAdded" (named_or_second "agencyContract") log v ->
     fst (addAgency E departmentAddress agencyCode agencyName ownerAddress pk w)
     = Normal {| result := receipt_result receipt; value := v |}).
Proof.
  split; [| split].
  - intros agencyAddress uri proposal pk w signer w1 pd tx receipt Hs Hp Htx Hw Hl Hpre Hy.
    rewrite (submitProposal_run agencyAddress uri proposal pk w Hs Hp Htx Hw).
    cbn [fst]. rewrite submitProposal_scan_spec. cbn [interface].
    rewrite (proj2 (first_event_arg_cases _ _ _ _ _) pre log post v Hl Hpre Hy).
    reflexivity.
  - intros deptCode deptName mainAgencyName mainAgencyOwner isStandalone isActualDept
      pk dbtcAddress w signer w1 contract w2 tx receipt Hs Hc Htx Hw Hl Hpre Hy.
    rewrite (addDepartment_run deptCode deptName mainAgencyName mainAgencyOwner
               isStandalone isActualDept pk dbtcAddress w Hs Hc Htx Hw).
    cbn [fst]. rewrite addDepartment_scan_spec, (getDBTCContract_interface _ _ _ Hc).
    rewrite (proj2 (first_event_arg_cases _ _ _ _ _) pre log post v Hl Hpre Hy).
    reflexivity.
  - intros departmentAddress agencyCode agencyName ownerAddress pk w signer w1 tx receipt
      Hs Htx Hw Hl Hpre Hy.
    rewrite (addAgency_run departmentAddress agencyCode agencyName ownerAddress pk w
               Hs Htx Hw).
    cbn [fst]. rewrite addAgency_scan_spec. cbn [interface].
    rewrite (proj2 (first_event_arg_cases _ _ _ _ _) pre log post v Hl Hpre Hy).
    reflexivity.
Qed.

(** C9.  When the receipt of the transaction has no log entry that decodes
    to the target event, the wrapper returns normally, with the sentinel in
    place of the extracted value: [tokenId = 0n] for [submitProposal],
    [departmentAddress = ''] for [addDepartment], [agencyAddress = ''] for
    [addAgency].  The same values are returned for a receipt whose event
    carries the sentinel itself, so the result does not tell the two apart. *)
Theorem absent_event_gives_sentinel :
  (forall agencyAddress uri data pk w signer w1 pd tx receipt,
     getSigner E pk w = (Normal signer, w1) ->
     prepareProposalData E data = Normal pd ->
     transact E {| target := agencyAddress; interface := AgencyABI E;
                   runner := RunnerSigner signer |}
       "submitProposal" [VString uri; proposal_object pd] = Normal tx ->
     wait tx = Normal (Some receipt) ->
     (forall l, In l (Receipt.logs receipt) ->
                ~ decodes_to (AgencyABI E) "ProposalSubmitted" l) ->
     fst (submitProposal E agencyAddress uri data pk w)
     = Normal {| result := receipt_result receipt; value := VBigInt 0 |}) /\
  (forall deptCode deptName mainAgencyName mainAgencyOwner isStandalone isActualDept
          pk dbtcAddress w signer w1 contract w2 tx receipt,
     getSigner E pk w = (Normal signer, w1) ->
     getDBTCContract E dbtcAddress (Some signer) w1 = (Normal contract, w2) ->
     transact E contract "addDepartment"
       [VString deptCode; VString deptName; VString mainAgencyName;
        VString mainAgencyOwner; VBool isStandalone; VBool isActualDept] = Normal tx ->
     wait tx = Normal (Some receipt) ->
     (forall l, In l (Receipt.logs receipt) ->
                ~ decodes_to (DBTCABI E) "DepartmentAdded" l) ->
     fst (addDepartment E deptCode deptName mainAgencyName mainAgencyOwner
            isStandalone isActualDept pk dbtcAddress w)
     = Normal {| result := receipt_result receipt; value := VString [] |}) /\
  (forall departmentAddress agencyCode agencyName ownerAddress pk w signer w1 tx receipt,
     getSigner E pk w = (Normal signer, w1) ->
     transact E {| target := departmentAddress; interface := DepartmentABI E;
                   runner := RunnerSigner signer |}
       "addAgency" [VString agencyCode; VString agencyName; VString ownerAddress]
     = Normal tx ->
     wait tx = Normal (Some receipt) ->
     (forall l, In l (Receipt.logs receipt) ->
                ~ decodes_to (DepartmentABI E) "AgencyAdded" l) ->
     fst (addAgency E departmentAddress agencyCode agencyName ownerAddress pk w)
     = Normal {| result := receipt_result receipt; value := VString [] |}) /\
  ((exists c log,
      decodes_to (interface c) "ProposalSubmitted" log /\
      submitProposal_scan c [log] (VBigInt 0) = submitProposal_scan c [] (VBigInt 0)) /\
   (exists c log,
      decodes_to (interface c) "DepartmentAdded" log /\
      addDepartment_scan c [log] (VString []) = addDepartment_scan c [] (VString [])) /\
   (exists c log,
      decodes_to (interface c) "AgencyAdded" log /\
      addAgency_scan c [log] (VString []) = addAgency_scan c [] (VString []))).
Proof.
  split; [| split; [| split]].
  - intros agencyAddress uri data pk w signer w1 pd tx receipt Hs Hp Htx Hw Hno.
    rewrite (submitProposal_run _ _ _ _ _ Hs Hp Htx Hw). cbn [fst].
    rewrite submitProposal_scan_spec, first_event_arg_absent; [reflexivity |].
    intros l Hl. apply event_arg_not_decoded, Hno, Hl.
  - intros deptCode deptName mainAgencyName mainAgencyOwner isStandalone isActualDept
      pk dbtcAddress w signer w1 contract w2 tx receipt Hs Hc Htx Hw Hno.
    rewrite (addDepartment_run _ _ _ _ _ _ _ _ _ Hs Hc Htx Hw). cbn [fst].
    rewrite addDepartment_scan_spec, first_event_arg_absent; [reflexivity |].
    intros l Hl. rewrite (getDBTCContract_interface _ _ _ Hc).
    apply event_arg_not_decoded, Hno, Hl.
  - intros departmentAddress agencyCode agencyName ownerAddress pk w signer w1 tx receipt
      Hs Htx Hw Hno.
    rewrite (addAgency_run _ _ _ _ _ _ Hs Htx Hw). cbn [fst].
    rewrite addAgency_scan_spec, first_event_arg_absent; [reflexivity |].
    intros l Hl. apply event_arg_not_decoded, Hno, Hl.
  - split; [| split].
    + exists (Demo.const_contract "ProposalSubmitted" (VBigInt 0)), (Demo.log "any" "").
      split; [eexists; split; reflexivity | reflexivity].
    + exists (Demo.const_contract "DepartmentAdded" (VString [])), (Demo.log "any" "").
      split; [eexists; split; reflexivity | reflexivity].
    + exists (Demo.const_contract "AgencyAdded" (VString [])), (Demo.log "any" "").
      split; [eexists; split; reflexivity | reflexivity].
Qed.

Lemma waitForTransaction_world tx w :
  snd (waitForTransaction tx w) = log_event w (EvWait (tx_hash tx)).
Proof.
  unfold waitForTransaction, await_wait, bind, emit, lift.
  destruct (wait tx) as [[receipt |] | e]; reflexivity.
Qed.

Lemma waitForTransaction_outcome tx w :
  waitForTransaction tx w = (transaction_outcome tx, log_event w (EvWait (tx_hash tx))).
Proof.
  unfold waitForTransaction, await_wait, bind, emit, lift, ret, throw, transaction_outcome.
  destruct (wait tx) as [[receipt |] | e]; reflexivity.
Qed.

Lemma BigInt_throws a :
  is_throw (BigInt E a) = true <->
  (exists n, a = AmountNumber n /\ forall z, n <> NumInt z) \/
  (exists s, a = AmountString s /\ StringToBigInt E s = None).
Proof.
  destruct a as [z | s | [z | |]]; cbn.
  - split; [discriminate |]. intros [(n & Hn & _) | (s & Hs & _)]; discriminate.
  - destruct (StringToBigInt E s) eqn:Hs; cbn.
    + split; [discriminate |].
      intros [(n & Hn & _) | (s' & Hs' & Hnone)]; [discriminate |].
      injection Hs' as <-. congruence.
    + split; [| reflexivity]. intros _. right. exists s. auto.
  - split; [discriminate |].
    intros [(n & Hn & Hz) | (s & Hs & _)]; [| discriminate].
    injection Hn as <-. exfalso. apply (Hz z). reflexivity.
  - split; [| reflexivity]. intros _. left. exists NumNaN. split; [reflexivity | discriminate].
  - split; [| reflexivity]. intros _. left. exists NumOther. split; [reflexivity | discriminate].
Qed.

Lemma prepareProposalData_throws data :
  is_throw (prepareProposalData E data) = true <->
  is_throw (stringToBytes32 (prexcFpapId data)) = true \/
  is_throw (stringToBytes32 (uacsObjCode data)) = true \/
  is_throw (BigInt E (amount data)) = true.
Proof.
  unfold prepareProposalData.
  destruct (stringToBytes32 (prexcFpapId data)); cbn; [| tauto].
  destruct (stringToBytes32 (uacsObjCode data)); cbn; [| tauto].
  destruct (BigInt E (amount data)); cbn; [| tauto].
  split; [discriminate |]. intros [H | [H | H]]; discriminate.
Qed.

Lemma prepareProposalData_Normal data pd :
  prepareProposalData E data = Normal pd ->
  stringToBytes32 (prexcFpapId data) = Normal (oc_prexcFpapId pd) /\
  stringToBytes32 (uacsObjCode data) = Normal (oc_uacsObjCode pd) /\
  BigInt E (amount data) = Normal (oc_amount pd) /\
  oc_fiscalYear pd = 0 /\
  oc_departmentCode pd = Ethers.ZeroHash /\
  oc_agencyCode pd = Ethers.ZeroHash.
Proof.
  unfold prepareProposalData.
  destruct (stringToBytes32 (prexcFpapId data)); [| discriminate].
  destruct (stringToBytes32 (uacsObjCode data)); [| discriminate].
  destruct (BigInt E (amount data)); [| discriminate].
  intros H. injection H as <-. cbn. repeat split.
Qed.

(** A proposal that [prepareProposalData] rejects is not submitted. *)
Lemma submitProposal_rejected agencyAddress uri data pk w :
  is_throw (prepareProposalData E data) = true ->
  is_throw (fst (submitProposal E agencyAddress uri data pk w)) = true /\
  trace (snd (submitProposal E agencyAddress uri data pk w)) = trace w.
Proof.
  intros Hrej. unfold submitProposal.
  pose proof (silent_getSigner pk w) as Hsil.
  destruct (getSigner E pk w) as [[signer | e] w1] eqn:Hs; cbn in Hsil.
  - step Hs. step_by reflexivity.
    destruct (prepareProposalData E data) as [pd | e] eqn:Hp; [discriminate |].
    erewrite bind_Throw by reflexivity.
    cbn. auto.
  - erewrite bind_Throw by exact Hs. cbn. auto.
Qed.

(** Once the signer is available and the data is prepared, the outcome of
    [submitProposal] is the outcome of invoking the contract method and of
    waiting for the receipt. *)
Lemma submitProposal_accepted agencyAddress uri proposal pk w signer w1 pd :
  getSigner E pk w = (Normal signer, w1) ->
  prepareProposalData E proposal = Normal pd ->
  let contract := {| target := agencyAddress; interface := AgencyABI E;
                     runner := RunnerSigner signer |} in
  let request := EvSend agencyAddress "submitProposal"
                   [VString uri; proposal_object pd] in
  submitProposal E agencyAddress uri proposal pk w
  = match transact E contract "submitProposal" [VString uri; proposal_object pd] with
    | Throw e => (Throw e, log_event w1 request)
    | Normal tx =>
        (match transaction_outcome tx with
         | Normal r =>
             Normal {| result := r;
                       value := submitProposal_scan contract (logs r) (VBigInt 0) |}
         | Throw e => Throw e
         end,
         log_event (log_event w1 request) (EvWait (tx_hash tx)))
    end.
Proof.
  intros Hs Hp contract request. unfold submitProposal.
  step Hs. step_by reflexivity.
  step_by ltac:(unfold lift; rewrite Hp; reflexivity).
  unfold bind at 1. rewrite send_run. fold contract. cbn [target contract]. fold request.
  destruct (transact E contract "submitProposal" [VString uri; proposal_object pd])
    as [tx | e]; [| reflexivity].
  unfold bind. rewrite waitForTransaction_outcome.
  destruct (transaction_outcome tx) as [r | e]; reflexivity.
Qed.

(** C4 (as amended).  [submitProposal] does restrict the proposal data on
    the client side, through [prepareProposalData], which throws exactly when
    [prexcFpapId] or [uacsObjCode] does not fit a bytes32 (more than 31
    characters, more than 31 bytes of UTF-8, or an unpaired high surrogate)
    or [amount] cannot be converted to a BigInt (a number that is not an
    integer, or a string that is no StringIntegerLiteral of ECMAScript).  On
    such data [submitProposal] throws without invoking a contract method.
    When the data is accepted and a signer is available, the SDK checks
    nothing more: it invokes the contract method [submitProposal] with the URI
    and the encoded fields, whatever their contents, and its outcome is the
    outcome of that invocation and of waiting for the receipt.  What the
    invocation checks before anything is sent (ethers refuses to encode an
    amount outside uint256, for instance) and what the contract checks is no
    part of the SDK. *)
Theorem submitProposal_client_side_checks
    (agencyAddress uri : JsString) (proposal : ProposalData) (pk : option JsString)
    (w : World) :
  valid_string (prexcFpapId proposal) -> valid_string (uacsObjCode proposal) ->
  (conforming E ->
   (is_throw (prepareProposalData E proposal) = true <->
    unencodable (prexcFpapId proposal) \/ unencodable (uacsObjCode proposal) \/
    (exists n, amount proposal = AmountNumber n /\ forall z, n <> NumInt z) \/
    (exists s, amount proposal = AmountString s /\ StringIntegerLiteral s = None))) /\
  (is_throw (prepareProposalData E proposal) = true ->
   is_throw (fst (submitProposal E agencyAddress uri proposal pk w)) = true /\
   trace (snd (submitProposal E agencyAddress uri proposal pk w)) = trace w) /\
  (forall signer w1 pd,
     getSigner E pk w = (Normal signer, w1) ->
     prepareProposalData E proposal = Normal pd ->
     (stringToBytes32 (prexcFpapId proposal) = Normal (oc_prexcFpapId pd) /\
      stringToBytes32 (uacsObjCode proposal) = Normal (oc_uacsObjCode pd) /\
      BigInt E (amount proposal) = Normal (oc_amount pd) /\
      oc_fiscalYear pd = 0 /\
      oc_departmentCode pd = Ethers.ZeroHash /\
      oc_agencyCode pd = Ethers.ZeroHash) /\
     let contract := {| target := agencyAddress; interface := AgencyABI E;
                        runner := RunnerSigner signer |} in
     let request := EvSend agencyAddress "submitProposal"
                      [VString uri; proposal_object pd] in
     submitProposal E agencyAddress uri proposal pk w
     = match transact E contract "submitProposal" [VString uri; proposal_object pd] with
       | Throw e => (Throw e, log_event w1 request)
       | Normal tx =>
           (match transaction_outcome tx with
            | Normal r =>
                Normal {| result := r;
                          value := submitProposal_scan contract (logs r) (VBigInt 0) |}
            | Throw e => Throw e
            end,
            log_event (log_event w1 request) (EvWait (tx_hash tx)))
       end).
Proof.
  intros Hv1 Hv2. split; [| split].
  - intros Hrt. rewrite prepareProposalData_throws, BigInt_throws.
    rewrite (stringToBytes32_throws Hv1), (stringToBytes32_throws Hv2).
    unfold unencodable.
    assert (Hs : (exists s, amount proposal = AmountString s /\ StringToBigInt E s = None)
                 <-> (exists s, amount proposal = AmountString s /\
                                StringIntegerLiteral s = None)).
    { split; intros (s & Ha & Hn); exists s; split; auto; [rewrite <- Hrt | rewrite Hrt];
        exact Hn. }
    tauto.
  - apply submitProposal_rejected.
  - intros signer w1 pd Hs Hp. split.
    + apply prepareProposalData_Normal, Hp.
    + apply (submitProposal_accepted _ _ _ _ _ Hs Hp).
Qed.

End Traces.

Lemma submitProposal_client_side_checks_witness :
  is_throw (prepareProposalData Demo.env Sample.decimal_proposal) = true /\
  (is_throw (fst (submitProposal Demo.env (lit "0xAgency") (lit "ipfs://m")
                    Demo.long_proposal None Demo.world)) = true /\
   trace (snd (submitProposal Demo.env (lit "0xAgency") (lit "ipfs://m")
                 Demo.long_proposal None Demo.world)) = trace Demo.world) /\
  fst (submitProposal Demo.env (lit "0xAgency") (lit "ipfs://m") Demo.proposal None
         Demo.world)
  = Normal {| result := receipt_result Demo.receipt; value := VString (lit "7") |} /\
  (exists pd,
     prepareProposalData Sample.failing_env Sample.hex_proposal = Normal pd /\
     oc_amount pd = 31 /\
     fst (submitProposal Sample.failing_env (lit "0xAgency") (lit "ipfs://m")
            Sample.hex_proposal None Demo.world)
     = Throw (Err "execution reverted") /\
     trace (snd (submitProposal Sample.failing_env (lit "0xAgency") (lit "ipfs://m")
                   Sample.hex_proposal None Demo.world))
     = [EvSend (lit "0xAgency") "submitProposal"
          [VString (lit "ipfs://m"); proposal_object pd]]).
Proof.
  split; [| split; [| split]].
  - apply (proj1 (@submitProposal_client_side_checks Demo.env (lit "0xAgency")
                    (lit "ipfs://m") Sample.decimal_proposal None Demo.world
                    eq_refl eq_refl) (fun s => eq_refl)).
    right. right. right. exists (lit "1.5"). split; reflexivity.
  - apply (proj1 (proj2 (@submitProposal_client_side_checks Demo.env (lit "0xAgency")
                           (lit "ipfs://m") Demo.long_proposal None Demo.world
                           eq_refl eq_refl))).
    reflexivity.
  - rewrite (proj2 (proj2 (proj2 (@submitProposal_client_side_checks Demo.env
                                    (lit "0xAgency") (lit "ipfs://m") Demo.proposal None
                                    Demo.world eq_refl eq_refl))
                     _ _ _ eq_refl eq_refl)).
    reflexivity.
  - eexists. split; [reflexivity |]. split; [reflexivity |].
    rewrite (proj2 (proj2 (proj2 (@submitProposal_client_side_checks Sample.failing_env
                                    (lit "0xAgency") (lit "ipfs://m") Sample.hex_proposal
                                    None Demo.world eq_refl eq_refl))
                     _ _ _ eq_refl eq_refl)).
    split; reflexivity.
Defined.

Lemma extraction_returns_first_match_witness :
  fst (submitProposal Sample.full_env (lit "0xAgency") (lit "ipfs://m") Demo.proposal None
         Demo.world)
  = Normal {| result := receipt_result Sample.full_receipt; value := VString (lit "7") |} /\
  fst (addDepartment Sample.full_env (lit "DPWH") (lit "Public Works")
         (lit "Office of the Secretary") (lit "0xOwner") false true None None Demo.world)
  = Normal {| result := receipt_result Sample.full_receipt;
              value := VString (lit "0xDept") |} /\
  fst (addAgency Sample.full_env (lit "0xDept") (lit "BUR") (lit "Bureau") (lit "0xOwner")
         None Demo.world)
  = Normal {| result := receipt_result Sample.full_receipt;
              value := VString (lit "0xDesk") |}.
Proof.
  split; [| split].
  - apply (proj1 (@extraction_returns_first_match Sample.full_env
                    [Demo.log "garbage" "x"; Demo.log "ProposalSubmitted" ""]
                    _ (Demo.log "ProposalSubmitted" "7") (VString (lit "7")))
             (lit "0xAgency") (lit "ipfs://m") Demo.proposal None Demo.world
             _ _ _ Sample.full_tx Sample.full_receipt eq_refl eq_refl eq_refl eq_refl eq_refl).
    + apply nothing_yielded. reflexivity.
    + eexists. split; [reflexivity | split; reflexivity].
  - apply (proj1 (proj2 (@extraction_returns_first_match Sample.full_env
                    [Demo.log "garbage" "x";
                     Demo.log "ProposalSubmitted" ""; Demo.log "ProposalSubmitted" "7";
                     Demo.log "ProposalRevised" ""; Demo.log "ProposalRevised" "9";
                     Demo.log "ProposalAmended" "10"; Demo.log "DepartmentAdded" "?"]
                    _ (Demo.log "DepartmentAdded" "0xDept") (VString (lit "0xDept"))))
             (lit "DPWH") (lit "Public Works") (lit "Office of the Secretary")
             (lit "0xOwner") false true None None Demo.world
             _ _ _ _ Sample.full_tx Sample.full_receipt
             eq_refl eq_refl eq_refl eq_refl eq_refl).
    + apply nothing_yielded. reflexivity.
    + eexists. split; [reflexivity | split; reflexivity].
  - apply (proj2 (proj2 (@extraction_returns_first_match Sample.full_env
                    [Demo.log "garbage" "x";
                     Demo.log "ProposalSubmitted" ""; Demo.log "ProposalSubmitted" "7";
                     Demo.log "ProposalRevised" ""; Demo.log "ProposalRevised" "9";
                     Demo.log "ProposalAmended" "10";
                     Demo.log "DepartmentAdded" "?"; Demo.log "DepartmentAdded" "0xDept";
                     Demo.log "AgencyAdded" "?"]
                    _ (Demo.log "AgencyAdded" "0xDesk") (VString (lit "0xDesk"))))
             (lit "0xDept") (lit "BUR") (lit "Bureau") (lit "0xOwner") None Demo.world
             _ _ Sample.full_tx Sample.full_receipt eq_refl eq_refl eq_refl eq_refl).
    + apply nothing_yielded. reflexivity.
    + eexists. split; [reflexivity | split; reflexivity].
Defined.

(** C1, as stated, fails: the first log entry that decodes to
    'ProposalSubmitted' may have an argument whose read throws; the [catch] of
    the loop then passes over it, and what [submitProposal] returns is decided
    by the entries after it.  Likewise for [addAgency], when the first entry
    that decodes to 'AgencyAdded' has no argument named [agencyContract] and
    [args[1]] is out of range. *)
Lemma unreadable_first_match_is_passed_over :
  decodes_to Sample.iface "ProposalSubmitted" (Demo.log "ProposalSubmitted" "") /\
  fst (submitProposal (Sample.pair_env "ProposalSubmitted" "" "8") (lit "0xAgency")
         (lit "ipfs://m") Demo.proposal None Demo.world)
  = Normal {| result := receipt_result (Sample.pair_receipt "ProposalSubmitted" "" "8");
              value := VString (lit "8") |} /\
  fst (submitProposal (Sample.pair_env "ProposalSubmitted" "" "") (lit "0xAgency")
         (lit "ipfs://m") Demo.proposal None Demo.world)
  = Normal {| result := receipt_result (Sample.pair_receipt "ProposalSubmitted" "" "");
              value := VBigInt 0 |} /\
  decodes_to Sample.iface "AgencyAdded" (Demo.log "AgencyAdded" "?") /\
  fst (addAgency (Sample.pair_env "AgencyAdded" "?" "0xDesk") (lit "0xDept") (lit "BUR")
         (lit "Bureau") (lit "0xOwner") None Demo.world)
  = Normal {| result := receipt_result (Sample.pair_receipt "AgencyAdded" "?" "0xDesk");
              value := VString (lit "0xDesk") |} /\
  ~ (forall (c : Contract) (pre post post' : list Log) (log : Log) (initial : JsVal),
       decodes_to (interface c) "ProposalSubmitted" log ->
       (forall l, In l pre -> ~ decodes_to (interface c) "ProposalSubmitted" l) ->
       submitProposal_scan c (pre ++ log :: post) initial
       = submitProposal_scan c (pre ++ log :: post') initial).
Proof.
  split; [eexists; split; reflexivity |].
  split; [reflexivity |]. split; [reflexivity |].
  split; [eexists; split; reflexivity |].
  split; [reflexivity |].
  intros H.
  specialize (H {| target := lit "0xAgency"; interface := Sample.iface;
                   runner := RunnerSigner Sample.signer |}
                [] [Demo.log "ProposalSubmitted" "8"] []
                (Demo.log "ProposalSubmitted" "") (VBigInt 0)).
  cbn [app] in H. vm_compute in H.
  assert (Heq : VString (lit "8") = VBigInt 0).
  { apply H; [eexists; split; reflexivity | intros l []]. }
  discriminate Heq.
Qed.

(** C4, as stated, fails: a proposal whose [prexcFpapId] has 32 characters
    makes [submitProposal] throw before anything is submitted, while the same
    call with a shorter identifier goes through. *)
Lemma submitProposal_rejects_long_identifier :
  length (prexcFpapId Demo.long_proposal) = 32 /\
  fst (submitProposal Demo.env (lit "0xAgency") (lit "ipfs://m")
         Demo.long_proposal None Demo.world)
  = Throw (Err "String too long for bytes32 (max 31 characters)") /\
  trace (snd (submitProposal Demo.env (lit "0xAgency") (lit "ipfs://m")
                Demo.long_proposal None Demo.world)) = [] /\
  is_throw (fst (submitProposal Demo.env (lit "0xAgency") (lit "ipfs://m")
                   Demo.proposal None Demo.world)) = false.
Proof. repeat split; vm_compute; reflexivity. Qed.

Lemma exported_functions_and_contracts_witness :
  (exists evs,
     trace (snd (invoke Demo.env (X_getCurrentPhase None) Demo.world))
     = trace Demo.world ++ evs /\
     (submitted_and_waited Demo.env evs \/ only_queries evs)) /\
  (exists evs,
     trace (snd (invoke Demo.env
                   (X_addDocumentManager (lit "0xAgency") (lit "0xManager") None)
                   Demo.world))
     = trace Demo.world ++ evs /\
     (submitted_and_waited Demo.env evs \/ only_queries evs)) /\
  trace (snd (invoke Demo.env (X_stringToBytes32 (lit "PS-001")) Demo.world))
  = trace Demo.world.
Proof.
  split; [| split].
  - apply (proj1 (exported_functions_and_contracts Demo.env (X_getCurrentPhase None)
                    Demo.world) eq_refl
             (snd (invoke Demo.env (X_getCurrentPhase None) Demo.world))).
    reflexivity.
  - apply (proj1 (exported_functions_and_contracts Demo.env
                    (X_addDocumentManager (lit "0xAgency") (lit "0xManager") None)
                    Demo.world) eq_refl
             (snd (invoke Demo.env
                     (X_addDocumentManager (lit "0xAgency") (lit "0xManager") None)
                     Demo.world))).
    reflexivity.
  - apply (proj2 (exported_functions_and_contracts Demo.env
                    (X_stringToBytes32 (lit "PS-001")) Demo.world)).
    reflexivity.
Defined.

(** C3, as stated, fails: [getPhaseName] and [stringToBytes32] are exported
    and return without any contract interaction. *)
Lemma pure_exports_touch_no_contract :
  invoke Demo.env (X_getPhaseName BudgetPhase.BUDGET_CALL) Demo.world
  = (Normal tt, Demo.world) /\
  invoke Demo.env (X_stringToBytes32 (lit "PS-001")) Demo.world
  = (Normal tt, Demo.world) /\
  ~ (forall (E : Env) (x : Export) (w w' : World),
       invoke E x w = (Normal tt, w') ->
       exists evs, trace w' = trace w ++ evs /\
                   (submitted_and_waited E evs \/ only_queries evs)).
Proof.
  split; [reflexivity |]. split; [reflexivity |].
  intros H.
  destruct (H Demo.env (X_getPhaseName BudgetPhase.BUDGET_CALL) Demo.world Demo.world
              eq_refl) as (evs & Ht & Hev).
  cbn in Ht. subst evs.
  destruct Hev as [(c & m & ps & tx & r & _ & _ & Hevs) | [Hne _]].
  - discriminate.
  - apply Hne. reflexivity.
Qed.

Lemma absent_event_gives_sentinel_witness :
  fst (submitProposal Demo.quiet_env (lit "0xAgency") (lit "ipfs://m") Demo.proposal
         None Demo.world)
  = Normal {| result := receipt_result Demo.quiet_receipt; value := VBigInt 0 |} /\
  fst (addDepartment Demo.quiet_env (lit "02") (lit "Department of Finance")
         (lit "Office of the Secretary") (lit "0xOwner") false true None None Demo.world)
  = Normal {| result := receipt_result Demo.quiet_receipt; value := VString [] |} /\
  fst (addAgency Demo.quiet_env (lit "0xDepartment") (lit "002") (lit "Bureau of Treasury")
         (lit "0xOwner") None Demo.world)
  = Normal {| result := receipt_result Demo.quiet_receipt; value := VString [] |}.
Proof.
  pose proof (absent_event_gives_sentinel Demo.quiet_env) as (H1 & H2 & H3 & _).
  split; [| split].
  - eapply H1; try reflexivity.
    intros l [<- | [<- | []]] (d & Hp & Hn); cbn in Hp;
      [discriminate | injection Hp as <-; vm_compute in Hn; discriminate].
  - eapply H2; try reflexivity.
    intros l [<- | [<- | []]] (d & Hp & Hn); cbn in Hp;
      [discriminate | injection Hp as <-; vm_compute in Hn; discriminate].
  - eapply H3; try reflexivity.
    intros l [<- | [<- | []]] (d & Hp & Hn); cbn in Hp;
      [discriminate | injection Hp as <-; vm_compute in Hn; discriminate].
Defined.

(* ===================================================================== *)
(** * Further properties of the code *)
(* ===================================================================== *)

(* ===================================================================== *)
(** ** config.ts: configuration and provider *)
(* ===================================================================== *)

Lemma getConfig_stored w c : _config w = Some c -> getConfig w = (Normal c, w).
Proof. intros H. unfold getConfig, bind, get. rewrite H. reflexivity. Qed.

Lemma configure_ok c w :
  config_ok c -> configure c w = (Normal tt, set_state w (Some c) None).
Proof.
  intros [Hm Hk]. destruct c as [mode key pk]. cbn in *. unfold configure. cbn.
  assert (Hinc : includes_mode mode = true) by (apply includes_mode_spec, Hm).
  rewrite Hinc.
  assert (Htr : str_truthy mode = true) by (destruct Hm; subst mode; reflexivity).
  rewrite Htr. cbn. destruct key; [contradiction |]. reflexivity.
Qed.

Lemma configure_bad_mode c w :
  chainMode c <> lit "testnet" -> chainMode c <> lit "mainnet" ->
  configure c w = (Throw (Err "chainMode must be 'testnet' or 'mainnet'"), w).
Proof.
  intros Ht Hm. unfold configure.
  assert (Hinc : includes_mode (chainMode c) = false).
  { destruct (includes_mode (chainMode c)) eqn:H; [| reflexivity].
    apply includes_mode_spec in H. destruct H; contradiction. }
  rewrite Hinc, orb_true_r. reflexivity.
Qed.

Lemma getConfig_unconfigured w :
  _config w = None ->
  opt_truthy (DBTC_CHAIN_MODE (process_env w)) = false \/
  opt_truthy (DBTC_API_KEY (process_env w)) = false ->
  getConfig w
  = (Throw (Err "SDK not configured. Call configure() first or set environment variables:"),
     w).
Proof.
  intros Hnone Hmiss. unfold getConfig, bind, get. rewrite Hnone.
  destruct (DBTC_CHAIN_MODE (process_env w)) as [[| m ms] |];
    destruct (DBTC_API_KEY (process_env w)) as [[| k ks] |];
    try reflexivity.
  destruct Hmiss; discriminate.
Qed.

(** X1.  [getConfig] returns the stored configuration unchanged when there
    is one.  When there is none and both DBTC_CHAIN_MODE and DBTC_API_KEY are
    set, the key being non-empty, it configures the SDK from the environment:
    for the mode testnet or mainnet it stores and returns the configuration made
    of the two, with PRIVATE_KEY as its private key, and clears the cached
    provider; for any other non-empty mode it throws the error of
    [configure] and stores nothing.  When one of the two variables is missing
    or empty it throws "SDK not configured" and leaves the state as it is. *)
Theorem getConfig_auto_configures (w : World) :
  (forall c, _config w = Some c -> getConfig w = (Normal c, w)) /\
  (_config w = None ->
   forall mode key,
     DBTC_CHAIN_MODE (process_env w) = Some mode ->
     DBTC_API_KEY (process_env w) = Some key ->
     key <> [] ->
     (mode = lit "testnet" \/ mode = lit "mainnet" ->
      getConfig w
      = (Normal {| chainMode := mode; apiKey := key;
                   privateKey := PRIVATE_KEY (process_env w) |},
         set_state w (Some {| chainMode := mode; apiKey := key;
                              privateKey := PRIVATE_KEY (process_env w) |}) None)) /\
     (mode <> [] -> mode <> lit "testnet" -> mode <> lit "mainnet" ->
      getConfig w = (Throw (Err "chainMode must be 'testnet' or 'mainnet'"), w))) /\
  (_config w = None ->
   opt_truthy (DBTC_CHAIN_MODE (process_env w)) = false \/
   opt_truthy (DBTC_API_KEY (process_env w)) = false ->
   getConfig w
   = (Throw (Err "SDK not configured. Call configure() first or set environment variables:"),
      w)).
Proof.
  split; [apply getConfig_stored |]. split.
  - intros Hnone mode key Hmode Hkey Hk. split.
    + intros Hm. unfold getConfig, bind, get. rewrite Hnone, Hmode, Hkey.
      destruct mode as [| m ms]; [destruct Hm; discriminate |].
      destruct key as [| k ks]; [contradiction |].
      rewrite configure_ok by (split; [exact Hm | discriminate]).
      reflexivity.
    + intros Hne Ht Hm. unfold getConfig, bind, get. rewrite Hnone, Hmode, Hkey.
      destruct mode as [| m ms]; [contradiction |].
      destruct key as [| k ks]; [contradiction |].
      rewrite configure_bad_mode by assumption. reflexivity.
  - apply getConfig_unconfigured.
Qed.

Lemma getConfig_auto_configures_witness :
  getConfig Demo.world = (Normal Demo.config, Demo.world) /\
  getConfig Sample.from_env
  = (Normal {| chainMode := lit "mainnet"; apiKey := lit "key";
               privateKey := Some (lit "0x02") |},
     set_state Sample.from_env
       (Some {| chainMode := lit "mainnet"; apiKey := lit "key";
                privateKey := Some (lit "0x02") |}) None) /\
  getConfig Demo.fresh
  = (Throw (Err "SDK not configured. Call configure() first or set environment variables:"),
     Demo.fresh).
Proof.
  split; [| split].
  - apply (proj1 (getConfig_auto_configures Demo.world)). reflexivity.
  - apply (proj1 (proj2 (getConfig_auto_configures Sample.from_env)) eq_refl
             (lit "mainnet") (lit "key") eq_refl eq_refl).
    + discriminate.
    + right. reflexivity.
  - apply (proj2 (proj2 (getConfig_auto_configures Demo.fresh)) eq_refl).
    left. reflexivity.
Defined.

Lemma world_eta w :
  w = set_state w (_config w) (_provider w).
Proof. destruct w. reflexivity. Qed.

Lemma config_ok_cases c :
  config_ok c ->
  (chainMode c = lit "testnet" /\
   NETWORKS (chainMode c)
   = Some {| rpcUrl := lit "https://amoy.dbtc.bayanichain.io"; chainId := 80002;
             chainName := lit "Polygon Amoy" |}) \/
  (chainMode c = lit "mainnet" /\
   NETWORKS (chainMode c)
   = Some {| rpcUrl := lit "https://polygon.dbtc.bayanichain.io"; chainId := 137;
             chainName := lit "Polygon" |}).
Proof. intros [[H | H] _]; rewrite H; [left | right]; split; reflexivity. Qed.

Lemma getProvider_cached w p : _provider w = Some p -> getProvider w = (Normal p, w).
Proof. intros H. unfold getProvider, bind, get. rewrite H. reflexivity. Qed.

Ltac run H := erewrite bind_Normal; [| exact H].
Ltac run_by tac := erewrite bind_Normal; [| solve [tac]].

Lemma getNetworkConfig_stored w c :
  _config w = Some c -> getNetworkConfig w = (Normal (NETWORKS (chainMode c)), w).
Proof.
  intros Hc. unfold getNetworkConfig. run (@getConfig_stored w c Hc). reflexivity.
Qed.

Lemma getRpcUrl_stored w c n :
  _config w = Some c -> NETWORKS (chainMode c) = Some n ->
  getRpcUrl w = (Normal (rpcUrl n ++ lit "?apiKey=" ++ apiKey c), w).
Proof.
  intros Hc Hn. unfold getRpcUrl. run (@getConfig_stored w c Hc). rewrite Hn. reflexivity.
Qed.

Lemma getProvider_fresh w c :
  _provider w = None -> _config w = Some c -> config_ok c ->
  getProvider w = (Normal (provider_of c), set_state w (Some c) (Some (provider_of c))).
Proof.
  intros Hp Hc Hok. unfold getProvider.
  run_by reflexivity. rewrite Hp.
  run (@getNetworkConfig_stored w c Hc).
  assert (Hw : set_state w (Some c) (Some (provider_of c))
               = snd (set_provider (Some (provider_of c)) w)).
  { unfold set_state, set_provider. cbn. rewrite Hc. reflexivity. }
  destruct (@config_ok_cases c Hok) as [[Hm Hn] | [Hm Hn]].
  - run (@getRpcUrl_stored w c _ Hc Hn). rewrite Hn, Hw.
    unfold provider_of. rewrite Hm. reflexivity.
  - run (@getRpcUrl_stored w c _ Hc Hn). rewrite Hn, Hw.
    unfold provider_of. rewrite Hm. reflexivity.
Qed.

(** X2.  [getProvider] returns the cached provider when there is one, and
    changes nothing.  Otherwise, for a stored configuration that [configure]
    accepts, it returns the provider of that configuration (the RPC endpoint
    of the network with the API key as a query parameter, and the network's
    chain identifier), caches it, and a second call returns the same provider
    from the cache. *)
Theorem getProvider_caches (w : World) :
  (forall p, _provider w = Some p -> getProvider w = (Normal p, w)) /\
  (_provider w = None ->
   forall c, _config w = Some c -> config_ok c ->
   getProvider w = (Normal (provider_of c), set_state w (Some c) (Some (provider_of c))) /\
   getProvider (set_state w (Some c) (Some (provider_of c)))
   = (Normal (provider_of c), set_state w (Some c) (Some (provider_of c)))).
Proof.
  split; [apply getProvider_cached |].
  intros Hp c Hc Hok. split.
  - apply getProvider_fresh; assumption.
  - apply getProvider_cached. reflexivity.
Qed.

Lemma getProvider_caches_witness :
  getProvider Demo.world
  = (Normal (provider_of Demo.config),
     set_state Demo.world (Some Demo.config) (Some (provider_of Demo.config))) /\
  getProvider (set_state Demo.world (Some Demo.config) (Some (provider_of Demo.config)))
  = (Normal (provider_of Demo.config),
     set_state Demo.world (Some Demo.config) (Some (provider_of Demo.config))).
Proof.
  apply (proj2 (getProvider_caches Demo.world) eq_refl Demo.config eq_refl).
  split; [left; reflexivity | discriminate].
Defined.

(** X3.  After [configure] has accepted a configuration, [getConfig] returns
    it, [getChainMode] returns its mode, and [getProvider] returns the
    provider of the new configuration, whatever provider was cached before:
    [configure] resets the cache. *)
Theorem configure_then_read (c : SDKConfig) (w : World) :
  config_ok c ->
  let w1 := set_state w (Some c) None in
  (configure c ;;; getConfig) w = (Normal c, w1) /\
  (configure c ;;; getChainMode) w = (Normal (chainMode c), w1) /\
  (configure c ;;; getProvider) w
  = (Normal (provider_of c), set_state w (Some c) (Some (provider_of c))).
Proof.
  intros Hok w1. pose proof (@configure_ok c w Hok) as Hrun. fold w1 in Hrun.
  split; [| split].
  - run Hrun. apply getConfig_stored. reflexivity.
  - run Hrun. unfold getChainMode.
    run_by ltac:(apply getConfig_stored; reflexivity). reflexivity.
  - run Hrun. rewrite (@getProvider_fresh w1 c) by (reflexivity || assumption).
    reflexivity.
Qed.

Lemma configure_then_read_witness :
  (configure Sample.mainnet_config ;;; getConfig) Demo.world
  = (Normal Sample.mainnet_config, set_state Demo.world (Some Sample.mainnet_config) None) /\
  (configure Sample.mainnet_config ;;; getChainMode) Demo.world
  = (Normal (lit "mainnet"), set_state Demo.world (Some Sample.mainnet_config) None) /\
  (configure Sample.mainnet_config ;;; getProvider) Demo.world
  = (Normal (provider_of Sample.mainnet_config),
     set_state Demo.world (Some Sample.mainnet_config)
       (Some (provider_of Sample.mainnet_config))).
Proof.
  apply (@configure_then_read Sample.mainnet_config Demo.world).
  split; [right; reflexivity | discriminate].
Defined.

(** X4.  With a stored configuration that [configure] accepts, [getChainMode]
    returns its mode, [isTestnet] and [isMainnet] return opposite answers, and
    [isTestnet] answers true exactly for the mode testnet.  None of the three
    changes the state. *)
Theorem network_predicates_complementary (w : World) (c : SDKConfig) :
  _config w = Some c -> config_ok c ->
  getChainMode w = (Normal (chainMode c), w) /\
  exists b,
    isTestnet w = (Normal b, w) /\
    isMainnet w = (Normal (negb b), w) /\
    (b = true <-> chainMode c = lit "testnet").
Proof.
  intros Hc Hok. pose proof (@getConfig_stored w c Hc) as Hrun. split.
  - unfold getChainMode. run Hrun. reflexivity.
  - exists (str_eqb (chainMode c) (lit "testnet")). split; [| split].
    + unfold isTestnet. run Hrun. reflexivity.
    + unfold isMainnet. run Hrun.
      destruct Hok as [[Hm | Hm] _]; rewrite Hm; reflexivity.
    + apply str_eqb_eq.
Qed.

Lemma network_predicates_complementary_witness :
  getChainMode Demo.world = (Normal (lit "testnet"), Demo.world) /\
  exists b,
    isTestnet Demo.world = (Normal b, Demo.world) /\
    isMainnet Demo.world = (Normal (negb b), Demo.world) /\
    (b = true <-> chainMode Demo.config = lit "testnet").
Proof.
  apply (@network_predicates_complementary Demo.world Demo.config eq_refl).
  split; [left; reflexivity | discriminate].
Defined.

Lemma getProvider_available w c :
  _config w = Some c -> config_ok c ->
  exists p,
    getProvider w = (Normal p, set_state w (Some c) (Some p)) /\
    p = match _provider w with Some p0 => p0 | None => provider_of c end.
Proof.
  intros Hc Hok. destruct (_provider w) as [p0 |] eqn:Hp.
  - exists p0. split; [| reflexivity].
    rewrite (@getProvider_cached w p0 Hp). f_equal.
    rewrite <- Hc, <- Hp. apply world_eta.
  - exists (provider_of c). split; [| reflexivity].
    apply getProvider_fresh; assumption.
Qed.

(* ===================================================================== *)
(** ** config.ts: [getSigner] *)
(* ===================================================================== *)

Section Signer.

Variable E : Env.

(** X5.  [getSigner] signs with its argument when that is a non-empty string,
    and with the private key of the stored configuration otherwise.  For a
    key the wallet accepts, the signer it returns is connected to the cached
    provider, or to the provider of the configuration, which is then
    cached. *)
Theorem getSigner_key_precedence (pk : option JsString) (w : World) (c : SDKConfig) :
  _config w = Some c -> config_ok c ->
  let p := match _provider w with Some p0 => p0 | None => provider_of c end in
  forall key,
    (if opt_truthy pk then pk else privateKey c) = Some key -> key <> [] ->
    validPrivateKey E key = true ->
    getSigner E pk w
    = (Normal {| wallet_key := key; wallet_provider := p |},
       set_state w (Some c) (Some p)).
Proof.
  intros Hc Hok p key Hkey Hne Hvalid.
  destruct (@getProvider_available w c Hc Hok) as (p' & Hrun & Hp'). fold p in Hp'. subst p'.
  unfold getSigner.
  assert (Hfirst : (if opt_truthy pk then ret pk
                    else (c0 <- getConfig ;; ret (privateKey c0))) w
                   = (Normal (Some key), w)).
  { destruct (opt_truthy pk).
    - rewrite Hkey. reflexivity.
    - run (@getConfig_stored w c Hc). rewrite Hkey. reflexivity. }
  run Hfirst. destruct key as [| k ks]; [contradiction |].
  run Hrun. unfold newWallet. rewrite Hvalid. reflexivity.
Qed.

(** X6.  Without a key argument, [getSigner] throws "No private key provided"
    when the stored configuration has no private key, even though the
    environment may hold one (PRIVATE_KEY is only read when the SDK configures
    itself); and it throws "SDK not configured" when nothing is stored and
    the SDK cannot configure itself from the environment.  In both cases the
    state is unchanged. *)
Theorem getSigner_without_key (pk : option JsString) (w : World) :
  opt_truthy pk = false ->
  (forall c, _config w = Some c -> opt_truthy (privateKey c) = false ->
   getSigner E pk w
   = (Throw (Err "No private key provided. Pass privateKey parameter or configure SDK with privateKey, or set PRIVATE_KEY environment variable."),
      w)) /\
  (_config w = None ->
   opt_truthy (DBTC_CHAIN_MODE (process_env w)) = false \/
   opt_truthy (DBTC_API_KEY (process_env w)) = false ->
   getSigner E pk w
   = (Throw (Err "SDK not configured. Call configure() first or set environment variables:"),
      w)).
Proof.
  intros Hpk. split.
  - intros c Hc Hnone. unfold getSigner. rewrite Hpk.
    erewrite bind_Normal
      by (run (@getConfig_stored w c Hc); reflexivity).
    destruct (privateKey c) as [[| k ks] |]; try reflexivity. discriminate.
  - intros Hc Hmiss. unfold getSigner. rewrite Hpk.
    erewrite bind_Throw; [reflexivity |].
    erewrite bind_Throw; [reflexivity |].
    apply getConfig_unconfigured; assumption.
Qed.

(** X7.  A key passed to [getSigner] does not replace the configuration: with
    nothing stored, no provider cached and an environment from which the SDK
    cannot configure itself, [getSigner] throws "SDK not configured" for every
    non-empty key, since the signer needs the provider. *)
Theorem getSigner_needs_configuration (key : JsString) (w : World) :
  key <> [] ->
  _config w = None -> _provider w = None ->
  opt_truthy (DBTC_CHAIN_MODE (process_env w)) = false \/
  opt_truthy (DBTC_API_KEY (process_env w)) = false ->
  getSigner E (Some key) w
  = (Throw (Err "SDK not configured. Call configure() first or set environment variables:"),
     w).
Proof.
  intros Hne Hc Hp Hmiss. unfold getSigner.
  destruct key as [| k ks]; [contradiction |]. cbn [opt_truthy].
  run_by reflexivity. cbv beta iota.
  erewrite bind_Throw; [reflexivity |].
  unfold getProvider. run_by reflexivity. rewrite Hp.
  erewrite bind_Throw; [reflexivity |].
  unfold getNetworkConfig. erewrite bind_Throw; [reflexivity |].
  apply getConfig_unconfigured; assumption.
Qed.

End Signer.

Lemma getSigner_key_precedence_witness :
  getSigner Demo.env None Demo.world
  = (Normal {| wallet_key := lit "0x01"; wallet_provider := provider_of Demo.config |},
     set_state Demo.world (Some Demo.config) (Some (provider_of Demo.config))) /\
  getSigner Demo.env (Some (lit "0x09")) Demo.world
  = (Normal {| wallet_key := lit "0x09"; wallet_provider := provider_of Demo.config |},
     set_state Demo.world (Some Demo.config) (Some (provider_of Demo.config))).
Proof.
  assert (Hok : config_ok Demo.config) by (split; [left; reflexivity | discriminate]).
  split.
  - apply (@getSigner_key_precedence Demo.env None Demo.world Demo.config eq_refl Hok
             (lit "0x01") eq_refl); [discriminate | reflexivity].
  - apply (@getSigner_key_precedence Demo.env (Some (lit "0x09")) Demo.world Demo.config
             eq_refl Hok (lit "0x09") eq_refl); [discriminate | reflexivity].
Defined.

Lemma getSigner_without_key_witness :
  getSigner Demo.env None Sample.mainnet
  = (Throw (Err "No private key provided. Pass privateKey parameter or configure SDK with privateKey, or set PRIVATE_KEY environment variable."),
     Sample.mainnet) /\
  getSigner Demo.env None Demo.fresh
  = (Throw (Err "SDK not configured. Call configure() first or set environment variables:"),
     Demo.fresh).
Proof.
  split.
  - apply (proj1 (@getSigner_without_key Demo.env None Sample.mainnet eq_refl)
             Sample.mainnet_config eq_refl eq_refl).
  - apply (proj2 (@getSigner_without_key Demo.env None Demo.fresh eq_refl) eq_refl).
    left. reflexivity.
Defined.

Lemma getSigner_needs_configuration_witness :
  getSigner Demo.env (Some (lit "0x01")) Demo.fresh
  = (Throw (Err "SDK not configured. Call configure() first or set environment variables:"),
     Demo.fresh).
Proof.
  apply (@getSigner_needs_configuration Demo.env (lit "0x01") Demo.fresh);
    [discriminate | reflexivity | reflexivity | left; reflexivity].
Defined.

(* ===================================================================== *)
(** ** config.ts: the address book *)
(* ===================================================================== *)

Lemma set_book_same w : set_book w (CONTRACT_ADDRESSES w) = w.
Proof. destruct w. reflexivity. Qed.

Lemma assign_address_testnet f w :
  assign_address (lit "testnet") f w
  = (Normal tt, set_book w {| testnet := f (testnet (CONTRACT_ADDRESSES w));
                              mainnet := mainnet (CONTRACT_ADDRESSES w) |}).
Proof. reflexivity. Qed.

Lemma assign_address_mainnet f w :
  assign_address (lit "mainnet") f w
  = (Normal tt, set_book w {| testnet := testnet (CONTRACT_ADDRESSES w);
                              mainnet := f (mainnet (CONTRACT_ADDRESSES w)) |}).
Proof. reflexivity. Qed.

Lemma assign_address_other mode f w :
  mode <> lit "testnet" -> mode <> lit "mainnet" -> inherited mode = false ->
  assign_address mode f w = (Throw (Err "TypeError: Cannot set properties of undefined"), w).
Proof.
  intros Ht Hm Hi. unfold assign_address, bind, get, update_addresses.
  destruct (str_eqb mode (lit "testnet")) eqn:H1; [apply str_eqb_eq in H1; contradiction |].
  destruct (str_eqb mode (lit "mainnet")) eqn:H2; [apply str_eqb_eq in H2; contradiction |].
  rewrite Hi. reflexivity.
Qed.

Lemma assign_address_inherited mode f w :
  mode <> lit "testnet" -> mode <> lit "mainnet" -> inherited mode = true ->
  assign_address mode f w = (Normal tt, w).
Proof.
  intros Ht Hm Hi. unfold assign_address, bind, get, update_addresses.
  destruct (str_eqb mode (lit "testnet")) eqn:H1; [apply str_eqb_eq in H1; contradiction |].
  destruct (str_eqb mode (lit "mainnet")) eqn:H2; [apply str_eqb_eq in H2; contradiction |].
  rewrite Hi. destruct w. reflexivity.
Qed.

(** The mode that [setContractAddresses] updates. *)
Lemma setContractAddresses_mode mode_arg w m :
  (mode_arg = Some m /\ m <> []) \/
  (opt_truthy mode_arg = false /\ exists c, _config w = Some c /\ chainMode c = m) ->
  match mode_arg with
  | Some (c :: cs) => ret (c :: cs)
  | _ => (c <- getConfig ;; ret (chainMode c))
  end w = (Normal m, w).
Proof.
  intros [[-> Hne] | [Hf (c & Hc & <-)]].
  - destruct m; [contradiction | reflexivity].
  - destruct mode_arg as [[| x xs] |]; try discriminate;
      (run (@getConfig_stored w c Hc); reflexivity).
Qed.

(** What [setContractAddresses] does, by the mode it updates. *)
Lemma setContractAddresses_cases
    (d b mode_arg : option JsString) (w : World) (m : JsString) :
  (mode_arg = Some m /\ m <> []) \/
  (opt_truthy mode_arg = false /\ exists c, _config w = Some c /\ chainMode c = m) ->
  let book := CONTRACT_ADDRESSES w in
  (m = lit "testnet" ->
   setContractAddresses d b mode_arg w
   = (Normal tt, set_book w {| testnet := override_addresses d b (testnet book);
                               mainnet := mainnet book |})) /\
  (m = lit "mainnet" ->
   setContractAddresses d b mode_arg w
   = (Normal tt, set_book w {| testnet := testnet book;
                               mainnet := override_addresses d b (mainnet book) |})) /\
  (m <> lit "testnet" -> m <> lit "mainnet" ->
   (inherited m = true ->
    setContractAddresses d b mode_arg w = (Normal tt, w)) /\
   (inherited m = false ->
    (opt_truthy d = true \/ opt_truthy b = true ->
     setContractAddresses d b mode_arg w
     = (Throw (Err "TypeError: Cannot set properties of undefined"), w)) /\
    (opt_truthy d = false -> opt_truthy b = false ->
     setContractAddresses d b mode_arg w = (Normal tt, w)))).
Proof.
  intros Hmode book. pose proof (@setContractAddresses_mode mode_arg w m Hmode) as Hrun.
  unfold setContractAddresses.
  split; [| split].
  - intros ->. run Hrun.
    destruct d as [[| x xs] |]; destruct b as [[| y ys] |];
      unfold bind, ret; rewrite ?assign_address_testnet; cbn;
      destruct w as [cfg prov [[td tb] mn] env tr]; reflexivity.
  - intros ->. run Hrun.
    destruct d as [[| x xs] |]; destruct b as [[| y ys] |];
      unfold bind, ret; rewrite ?assign_address_mainnet; cbn;
      destruct w as [cfg prov [tn [md mb]] env tr]; reflexivity.
  - intros Ht Hm. split.
    + intros Hi. run Hrun.
      destruct d as [[| x xs] |]; destruct b as [[| y ys] |];
        unfold bind, ret; rewrite ?assign_address_inherited by assumption;
        try rewrite assign_address_inherited by assumption; reflexivity.
    + intros Hi. split.
      * intros Hsome. run Hrun.
        destruct d as [[| x xs] |]; destruct b as [[| y ys] |];
          try (destruct Hsome; discriminate);
          unfold bind, ret; rewrite ?assign_address_other by assumption; reflexivity.
      * intros Hd Hb. run Hrun.
        destruct d as [[| x xs] |]; destruct b as [[| y ys] |]; try discriminate;
          reflexivity.
Qed.


Lemma getContractAddresses_stored w c :
  _config w = Some c ->
  getContractAddresses w
  = (Normal (lookup_addresses (CONTRACT_ADDRESSES w) (chainMode c)), w).
Proof.
  intros Hc. unfold getContractAddresses. run (@getConfig_stored w c Hc).
  run_by reflexivity. reflexivity.
Qed.


(* ===================================================================== *)
(** ** dbtc.ts: [getDBTCContract] *)
(* ===================================================================== *)

Section DBTC.

Variable E : Env.

Lemma getDBTCContract_explicit a (s : option Wallet) w :
  a <> [] ->
  getDBTCContract E (Some a) s w
  = bind (runner_of s)
      (fun r => ret {| target := a; interface := DBTCABI E; runner := r |}) w.
Proof.
  intros Hne. destruct a as [| x xs]; [contradiction |].
  unfold getDBTCContract. run_by reflexivity. reflexivity.
Qed.

Lemma getDBTCContract_bundled dbtcAddress (s : option Wallet) w c ad :
  opt_truthy dbtcAddress = false ->
  _config w = Some c ->
  lookup_addresses (CONTRACT_ADDRESSES w) (chainMode c) = Some ad ->
  getDBTCContract E dbtcAddress s w
  = match dbtc ad with
    | [] => (Throw (Err "DBTC contract address not configured. Use setContractAddresses() or provide address."), w)
    | _ :: _ =>
        bind (runner_of s)
          (fun r => ret {| target := dbtc ad; interface := DBTCABI E; runner := r |}) w
    end.
Proof.
  intros Hf Hc Hl. unfold getDBTCContract.
  assert (Hfirst :
            match dbtcAddress with
            | Some (a :: al) => ret (a :: al)
            | _ =>
                book <- getContractAddresses ;;
                match book with
                | Some b => ret (dbtc b)
                | None => throw (Err "TypeError: Cannot read properties of undefined (reading 'dbtc')")
                end
            end w = (Normal (dbtc ad), w)).
  { destruct dbtcAddress as [[| x xs] |]; try discriminate;
      (run (@getContractAddresses_stored w c Hc); rewrite Hl; reflexivity). }
  run Hfirst. destruct (dbtc ad); reflexivity.
Qed.

(** X9.  [getDBTCContract] binds the contract to its address argument when
    that is a non-empty string.  Otherwise it takes the DBTC address that the
    address book holds for the mode of the stored configuration, and throws
    "DBTC contract address not configured" when that address is empty.  With
    a signer it does not touch the state. *)
Theorem getDBTCContract_address (dbtcAddress : option JsString) (s : Wallet) (w : World) :
  (forall a, dbtcAddress = Some a -> a <> [] ->
   getDBTCContract E dbtcAddress (Some s) w
   = (Normal {| target := a; interface := DBTCABI E; runner := RunnerSigner s |}, w)) /\
  (opt_truthy dbtcAddress = false ->
   forall c ad,
     _config w = Some c ->
     lookup_addresses (CONTRACT_ADDRESSES w) (chainMode c) = Some ad ->
     (dbtc ad <> [] ->
      getDBTCContract E dbtcAddress (Some s) w
      = (Normal {| target := dbtc ad; interface := DBTCABI E; runner := RunnerSigner s |},
         w)) /\
     (dbtc ad = [] ->
      getDBTCContract E dbtcAddress (Some s) w
      = (Throw (Err "DBTC contract address not configured. Use setContractAddresses() or provide address."),
         w))).
Proof.
  split.
  - intros a -> Hne. rewrite getDBTCContract_explicit by exact Hne. reflexivity.
  - intros Hf c ad Hc Hl.
    rewrite (@getDBTCContract_bundled dbtcAddress (Some s) w c ad Hf Hc Hl).
    split; intros Had.
    + destruct (dbtc ad); [contradiction | reflexivity].
    + rewrite Had. reflexivity.
Qed.

(** X10.  Every read-only function of dbtc.ts, called without an address
    while the address book holds no DBTC address for the configured mode,
    throws "DBTC contract address not configured", contacts nothing and
    leaves the state unchanged.  This is the case of mainnet with the
    bundled address book. *)
Theorem dbtc_reads_need_an_address (x : Export) (addr : option JsString)
    (w : World) (c : SDKConfig) (ad : Addresses) :
  dbtc_read_address x = Some addr ->
  opt_truthy addr = false ->
  _config w = Some c ->
  lookup_addresses (CONTRACT_ADDRESSES w) (chainMode c) = Some ad ->
  dbtc ad = [] ->
  invoke E x w
  = (Throw (Err "DBTC contract address not configured. Use setContractAddresses() or provide address."),
     w).
Proof.
  intros Hx Hf Hc Hl Had.
  pose proof (@getDBTCContract_bundled addr None w c ad Hf Hc Hl) as Hrun.
  rewrite Had in Hrun.
  destruct x; cbn in Hx; try discriminate; injection Hx as ->;
    cbn [invoke]; unfold discard;
    (erewrite bind_Throw; [reflexivity |]);
    unfold getCurrentPhase, getCurrentFiscalYear, getDepartment, isDepartmentRegistered,
      getDepartmentCodes, getDepartmentCount, getPhaseResponsibleDepartment,
      getBudgetProposalContract, getDBTCOwner;
    (erewrite bind_Throw; [reflexivity | exact Hrun]).
Qed.

(** X11.  After [setContractAddresses] has been given a non-empty DBTC address
    and no mode, under a stored configuration that [configure] accepts,
    [getDBTCContract] without an address binds the contract to that
    address. *)
Theorem setContractAddresses_then_getDBTCContract
    (a : JsString) (b : option JsString) (s : Wallet) (w : World) (c : SDKConfig) :
  a <> [] -> _config w = Some c -> config_ok c ->
  exists w1,
    setContractAddresses (Some a) b None w = (Normal tt, w1) /\
    getDBTCContract E None (Some s) w1
    = (Normal {| target := a; interface := DBTCABI E; runner := RunnerSigner s |}, w1).
Proof.
  intros Hne Hc Hok.
  assert (Hmode : (None = Some (chainMode c) /\ chainMode c <> []) \/
                  (opt_truthy None = false /\
                   exists c0, _config w = Some c0 /\ chainMode c0 = chainMode c)).
  { right. split; [reflexivity |]. exists c. auto. }
  destruct (@setContractAddresses_cases (Some a) b None w (chainMode c) Hmode)
    as (Ht & Hm & _).
  destruct a as [| x xs]; [contradiction |].
  destruct Hok as [[Hmode' | Hmode'] _].
  - eexists. split; [apply Ht, Hmode' |].
    erewrite getDBTCContract_bundled
      with (c := c)
           (ad := override_addresses (Some (x :: xs)) b (testnet (CONTRACT_ADDRESSES w)));
      [reflexivity | reflexivity | exact Hc | cbn; rewrite Hmode'; reflexivity].
  - eexists. split; [apply Hm, Hmode' |].
    erewrite getDBTCContract_bundled
      with (c := c)
           (ad := override_addresses (Some (x :: xs)) b (mainnet (CONTRACT_ADDRESSES w)));
      [reflexivity | reflexivity | exact Hc | cbn; rewrite Hmode'; reflexivity].
Qed.

End DBTC.

Lemma getDBTCContract_address_witness :
  getDBTCContract Demo.env (Some (lit "0xD")) (Some Sample.signer) Sample.mainnet
  = (Normal {| target := lit "0xD"; interface := DBTCABI Demo.env;
               runner := RunnerSigner Sample.signer |}, Sample.mainnet) /\
  getDBTCContract Demo.env None (Some Sample.signer) Demo.world
  = (Normal {| target := lit "0x8972bc4dea1d2760E3f5b0a90675Dde15506aA8E";
               interface := DBTCABI Demo.env;
               runner := RunnerSigner Sample.signer |}, Demo.world) /\
  getDBTCContract Demo.env None (Some Sample.signer) Sample.mainnet
  = (Throw (Err "DBTC contract address not configured. Use setContractAddresses() or provide address."),
     Sample.mainnet).
Proof.
  split; [| split].
  - apply (proj1 (@getDBTCContract_address Demo.env (Some (lit "0xD")) Sample.signer
                    Sample.mainnet) (lit "0xD") eq_refl).
    discriminate.
  - apply (proj2 (@getDBTCContract_address Demo.env None Sample.signer Demo.world)
             eq_refl Demo.config (testnet CONTRACT_ADDRESSES_init) eq_refl eq_refl).
    discriminate.
  - apply (proj2 (@getDBTCContract_address Demo.env None Sample.signer Sample.mainnet)
             eq_refl Sample.mainnet_config (mainnet CONTRACT_ADDRESSES_init) eq_refl eq_refl).
    reflexivity.
Defined.

Lemma dbtc_reads_need_an_address_witness :
  invoke Demo.env (X_getCurrentPhase None) Sample.mainnet
  = (Throw (Err "DBTC contract address not configured. Use setContractAddresses() or provide address."),
     Sample.mainnet).
Proof.
  apply (@dbtc_reads_need_an_address Demo.env (X_getCurrentPhase None) None Sample.mainnet
           Sample.mainnet_config (mainnet CONTRACT_ADDRESSES_init));
    reflexivity.
Defined.

Lemma setContractAddresses_then_getDBTCContract_witness :
  exists w1,
    setContractAddresses (Some (lit "0xD")) None None Sample.mainnet = (Normal tt, w1) /\
    getDBTCContract Demo.env None (Some Sample.signer) w1
    = (Normal {| target := lit "0xD"; interface := DBTCABI Demo.env;
                 runner := RunnerSigner Sample.signer |}, w1).
Proof.
  apply (@setContractAddresses_then_getDBTCContract Demo.env (lit "0xD") None Sample.signer
           Sample.mainnet Sample.mainnet_config).
  - discriminate.
  - reflexivity.
  - split; [right; reflexivity | discriminate].
Defined.

(* ===================================================================== *)
(** ** The values that transactions return *)
(* ===================================================================== *)

Section Wrappers.

Variable E : Env.

Lemma reviseProposal_run
    agencyAddress originalTokenId newUri newData reason pk w signer w1 pd tx receipt :
  getSigner E pk w = (Normal signer, w1) ->
  prepareProposalData E newData = Normal pd ->
  let contract := {| target := agencyAddress; interface := AgencyABI E;
                     runner := RunnerSigner signer |} in
  transact E contract "reviseProposal"
    [originalTokenId; VString newUri; proposal_object pd; VString reason] = Normal tx ->
  wait tx = Normal (Some receipt) ->
  fst (reviseProposal E agencyAddress originalTokenId newUri newData reason pk w)
  = Normal {| result := receipt_result receipt;
              value := first_event_arg (AgencyABI E) "ProposalRevised" (named "newTokenId")
                         (Receipt.logs receipt) (VBigInt 0) |}.
Proof.
  intros Hs Hp contract Htx Hw. unfold reviseProposal.
  run Hs. run_by reflexivity.
  run_by ltac:(unfold lift; rewrite Hp; reflexivity).
  run_by ltac:(rewrite send_run; fold contract; rewrite Htx; reflexivity).
  run_by ltac:(rewrite waitForTransaction_outcome; unfold transaction_outcome;
               rewrite Hw; reflexivity).
  cbn [fst ret logs receipt_result]. rewrite reviseProposal_scan_spec. reflexivity.
Qed.

Lemma amendProposal_run
    agencyAddress originalTokenId newUri newData reason pk w signer w1 pd tx receipt :
  getSigner E pk w = (Normal signer, w1) ->
  prepareProposalData E newData = Normal pd ->
  let contract := {| target := agencyAddress; interface := AgencyABI E;
                     runner := RunnerSigner signer |} in
  transact E contract "amendProposal"
    [originalTokenId; VString newUri; proposal_object pd; VString reason] = Normal tx ->
  wait tx = Normal (Some receipt) ->
  fst (amendProposal E agencyAddress originalTokenId newUri newData reason pk w)
  = Normal {| result := receipt_result receipt;
              value := first_event_arg (AgencyABI E) "ProposalAmended" (named "newTokenId")
                         (Receipt.logs receipt) (VBigInt 0) |}.
Proof.
  intros Hs Hp contract Htx Hw. unfold amendProposal.
  run Hs. run_by reflexivity.
  run_by ltac:(unfold lift; rewrite Hp; reflexivity).
  run_by ltac:(rewrite send_run; fold contract; rewrite Htx; reflexivity).
  run_by ltac:(rewrite waitForTransaction_outcome; unfold transaction_outcome;
               rewrite Hw; reflexivity).
  cbn [fst ret logs receipt_result]. rewrite amendProposal_scan_spec. reflexivity.
Qed.

Lemma submitSeparateGAB_run agencyAddress uri data pk w signer w1 pd tx receipt :
  getSigner E pk w = (Normal signer, w1) ->
  prepareProposalData E data = Normal pd ->
  let contract := {| target := agencyAddress; interface := AgencyABI E;
                     runner := RunnerSigner signer |} in
  transact E contract "submitSeparateGAB" [VString uri; proposal_object pd] = Normal tx ->
  wait tx = Normal (Some receipt) ->
  fst (submitSeparateGAB E agencyAddress uri data pk w)
  = Normal {| result := receipt_result receipt;
              value := first_event_arg (AgencyABI E) "ProposalSubmitted" (named "tokenId")
                         (Receipt.logs receipt) (VBigInt 0) |}.
Proof.
  intros Hs Hp contract Htx Hw. unfold submitSeparateGAB.
  run Hs. run_by reflexivity.
  run_by ltac:(unfold lift; rewrite Hp; reflexivity).
  run_by ltac:(rewrite send_run; fold contract; rewrite Htx; reflexivity).
  run_by ltac:(rewrite waitForTransaction_outcome; unfold transaction_outcome;
               rewrite Hw; reflexivity).
  cbn [fst ret logs receipt_result]. rewrite submitSeparateGAB_scan_spec. reflexivity.
Qed.

Lemma submitJointGAB_run
    agencyAddress houseProposalId senateProposalId uri data pk w signer w1 pd tx receipt :
  getSigner E pk w = (Normal signer, w1) ->
  prepareProposalData E data = Normal pd ->
  let contract := {| target := agencyAddress; interface := AgencyABI E;
                     runner := RunnerSigner signer |} in
  transact E contract "submitJointGAB"
    [houseProposalId; senateProposalId; VString uri; proposal_object pd] = Normal tx ->
  wait tx = Normal (Some receipt) ->
  fst (submitJointGAB E agencyAddress houseProposalId senateProposalId uri data pk w)
  = Normal {| result := receipt_result receipt;
              value := first_event_arg (AgencyABI E) "ProposalSubmitted" (named "tokenId")
                         (Receipt.logs receipt) (VBigInt 0) |}.
Proof.
  intros Hs Hp contract Htx Hw. unfold submitJointGAB.
  run Hs. run_by reflexivity.
  run_by ltac:(unfold lift; rewrite Hp; reflexivity).
  run_by ltac:(rewrite send_run; fold contract; rewrite Htx; reflexivity).
  run_by ltac:(rewrite waitForTransaction_outcome; unfold transaction_outcome;
               rewrite Hw; reflexivity).
  cbn [fst ret logs receipt_result]. rewrite submitJointGAB_scan_spec. reflexivity.
Qed.

Lemma addRegularDepartment_run deptCode deptName mainAgencyName mainAgencyOwner
    pk dbtcAddress w signer w1 contract w2 tx receipt :
  getSigner E pk w = (Normal signer, w1) ->
  getDBTCContract E dbtcAddress (Some signer) w1 = (Normal contract, w2) ->
  transact E contract "addRegularDepartment"
    [VString deptCode; VString deptName; VString mainAgencyName; VString mainAgencyOwner]
  = Normal tx ->
  wait tx = Normal (Some receipt) ->
  fst (addRegularDepartment E deptCode deptName mainAgencyName mainAgencyOwner
         pk dbtcAddress w)
  = Normal {| result := receipt_result receipt;
              value := first_event_arg (DBTCABI E) "DepartmentAdded"
                         (named_or_second "deptContract")
                         (Receipt.logs receipt) (VString []) |}.
Proof.
  intros Hs Hc Htx Hw. unfold addRegularDepartment.
  run Hs. run Hc.
  run_by ltac:(rewrite send_run, Htx; reflexivity).
  run_by ltac:(rewrite waitForTransaction_outcome; unfold transaction_outcome;
               rewrite Hw; reflexivity).
  cbn [fst ret logs receipt_result]. rewrite addRegularDepartment_scan_spec.
  rewrite (getDBTCContract_interface _ _ _ _ Hc). reflexivity.
Qed.

(** X12.  When the signer is available, the proposal data is accepted, the
    transaction is submitted and its receipt arrives, [reviseProposal] returns
    the summary of the receipt together with [newTokenId = 0n] when no log entry of
    the receipt decodes to ProposalRevised with a readable argument, and with
    [args.newTokenId] of the first entry that does otherwise.  An entry that
    decodes to the event but whose argument cannot be read is passed over,
    as the [catch] of the loop does. *)
Theorem reviseProposal_returns_new_token
    agencyAddress originalTokenId newUri newData reason pk w signer w1 pd tx receipt :
  getSigner E pk w = (Normal signer, w1) ->
  prepareProposalData E newData = Normal pd ->
  transact E {| target := agencyAddress; interface := AgencyABI E;
                runner := RunnerSigner signer |} "reviseProposal"
    [originalTokenId; VString newUri; proposal_object pd; VString reason] = Normal tx ->
  wait tx = Normal (Some receipt) ->
  exists v,
    fst (reviseProposal E agencyAddress originalTokenId newUri newData reason pk w)
    = Normal {| result := receipt_result receipt; value := v |} /\
    ((forall l, In l (Receipt.logs receipt) ->
      forall u, ~ yields (AgencyABI E) "ProposalRevised" (named "newTokenId") l u) ->
     v = VBigInt 0) /\
    (forall pre log post u,
       Receipt.logs receipt = pre ++ log :: post ->
       (forall l, In l pre ->
        forall u', ~ yields (AgencyABI E) "ProposalRevised" (named "newTokenId") l u') ->
       yields (AgencyABI E) "ProposalRevised" (named "newTokenId") log u ->
       v = u).
Proof.
  intros Hs Hp Htx Hw. eexists. split.
  - eapply reviseProposal_run; eassumption.
  - apply first_event_arg_cases.
Qed.

(** X13.  When the signer is available, the proposal data is accepted, the
    transaction is submitted and its receipt arrives, [amendProposal] returns
    the summary of the receipt together with [newTokenId = 0n] when no log entry of
    the receipt decodes to ProposalAmended with a readable argument, and with
    [args.newTokenId] of the first entry that does otherwise.  An entry that
    decodes to the event but whose argument cannot be read is passed over,
    as the [catch] of the loop does. *)
Theorem amendProposal_returns_new_token
    agencyAddress originalTokenId newUri newData reason pk w signer w1 pd tx receipt :
  getSigner E pk w = (Normal signer, w1) ->
  prepareProposalData E newData = Normal pd ->
  transact E {| target := agencyAddress; interface := AgencyABI E;
                runner := RunnerSigner signer |} "amendProposal"
    [originalTokenId; VString newUri; proposal_object pd; VString reason] = Normal tx ->
  wait tx = Normal (Some receipt) ->
  exists v,
    fst (amendProposal E agencyAddress originalTokenId newUri newData reason pk w)
    = Normal {| result := receipt_result receipt; value := v |} /\
    ((forall l, In l (Receipt.logs receipt) ->
      forall u, ~ yields (AgencyABI E) "ProposalAmended" (named "newTokenId") l u) ->
     v = VBigInt 0) /\
    (forall pre log post u,
       Receipt.logs receipt = pre ++ log :: post ->
       (forall l, In l pre ->
        forall u', ~ yields (AgencyABI E) "ProposalAmended" (named "newTokenId") l u') ->
       yields (AgencyABI E) "ProposalAmended" (named "newTokenId") log u ->
       v = u).
Proof.
  intros Hs Hp Htx Hw. eexists. split.
  - eapply amendProposal_run; eassumption.
  - apply first_event_arg_cases.
Qed.

(** X14.  When the signer is available, the proposal data is accepted, the
    transaction is submitted and its receipt arrives, [submitSeparateGAB] returns
    the summary of the receipt together with [tokenId = 0n] when no log entry of
    the receipt decodes to ProposalSubmitted with a readable argument, and with
    [args.tokenId] of the first entry that does otherwise.  An entry that
    decodes to the event but whose argument cannot be read is passed over,
    as the [catch] of the loop does. *)
Theorem submitSeparateGAB_returns_token
    agencyAddress uri proposal pk w signer w1 pd tx receipt :
  getSigner E pk w = (Normal signer, w1) ->
  prepareProposalData E proposal = Normal pd ->
  transact E {| target := agencyAddress; interface := AgencyABI E;
                runner := RunnerSigner signer |} "submitSeparateGAB"
    [VString uri; proposal_object pd] = Normal tx ->
  wait tx = Normal (Some receipt) ->
  exists v,
    fst (submitSeparateGAB E agencyAddress uri proposal pk w)
    = Normal {| result := receipt_result receipt; value := v |} /\
    ((forall l, In l (Receipt.logs receipt) ->
      forall u, ~ yields (AgencyABI E) "ProposalSubmitted" (named "tokenId") l u) ->
     v = VBigInt 0) /\
    (forall pre log post u,
       Receipt.logs receipt = pre ++ log :: post ->
       (forall l, In l pre ->
        forall u', ~ yields (AgencyABI E) "ProposalSubmitted" (named "tokenId") l u') ->
       yields (AgencyABI E) "ProposalSubmitted" (named "tokenId") log u ->
       v = u).
Proof.
  intros Hs Hp Htx Hw. eexists. split.
  - eapply submitSeparateGAB_run; eassumption.
  - apply first_event_arg_cases.
Qed.

(** X15.  When the signer is available, the proposal data is accepted, the
    transaction is submitted and its receipt arrives, [submitJointGAB] returns
    the summary of the receipt together with [tokenId = 0n] when no log entry of
    the receipt decodes to ProposalSubmitted with a readable argument, and with
    [args.tokenId] of the first entry that does otherwise.  An entry that
    decodes to the event but whose argument cannot be read is passed over,
    as the [catch] of the loop does. *)
Theorem submitJointGAB_returns_token
    agencyAddress houseProposalId senateProposalId uri proposal pk w signer w1 pd tx
    receipt :
  getSigner E pk w = (Normal signer, w1) ->
  prepareProposalData E proposal = Normal pd ->
  transact E {| target := agencyAddress; interface := AgencyABI E;
                runner := RunnerSigner signer |} "submitJointGAB"
    [houseProposalId; senateProposalId; VString uri; proposal_object pd] = Normal tx ->
  wait tx = Normal (Some receipt) ->
  exists v,
    fst (submitJointGAB E agencyAddress houseProposalId senateProposalId uri proposal pk w)
    = Normal {| result := receipt_result receipt; value := v |} /\
    ((forall l, In l (Receipt.logs receipt) ->
      forall u, ~ yields (AgencyABI E) "ProposalSubmitted" (named "tokenId") l u) ->
     v = VBigInt 0) /\
    (forall pre log post u,
       Receipt.logs receipt = pre ++ log :: post ->
       (forall l, In l pre ->
        forall u', ~ yields (AgencyABI E) "ProposalSubmitted" (named "tokenId") l u') ->
       yields (AgencyABI E) "ProposalSubmitted" (named "tokenId") log u ->
       v = u).
Proof.
  intros Hs Hp Htx Hw. eexists. split.
  - eapply submitJointGAB_run; eassumption.
  - apply first_event_arg_cases.
Qed.

(** X16.  When the signer and the DBTC contract are available, the
    transaction is submitted and its receipt arrives, [addRegularDepartment] returns
    the summary of the receipt together with [departmentAddress = ''] when no log entry of
    the receipt decodes to DepartmentAdded with a readable argument, and with
    [args.deptContract || args[1]] of the first entry that does otherwise.  An entry that
    decodes to the event but whose argument cannot be read is passed over,
    as the [catch] of the loop does. *)
Theorem addRegularDepartment_returns_contract
    deptCode deptName mainAgencyName mainAgencyOwner pk dbtcAddress w signer w1 contract
    w2 tx receipt :
  getSigner E pk w = (Normal signer, w1) ->
  getDBTCContract E dbtcAddress (Some signer) w1 = (Normal contract, w2) ->
  transact E contract "addRegularDepartment"
    [VString deptCode; VString deptName; VString mainAgencyName; VString mainAgencyOwner]
  = Normal tx ->
  wait tx = Normal (Some receipt) ->
  exists v,
    fst (addRegularDepartment E deptCode deptName mainAgencyName mainAgencyOwner pk dbtcAddress w)
    = Normal {| result := receipt_result receipt; value := v |} /\
    ((forall l, In l (Receipt.logs receipt) ->
      forall u, ~ yields (DBTCABI E) "DepartmentAdded" (named_or_second "deptContract") l u) ->
     v = VString []) /\
    (forall pre log post u,
       Receipt.logs receipt = pre ++ log :: post ->
       (forall l, In l pre ->
        forall u', ~ yields (DBTCABI E) "DepartmentAdded" (named_or_second "deptContract") l u') ->
       yields (DBTCABI E) "DepartmentAdded" (named_or_second "deptContract") log u ->
       v = u).
Proof.
  intros Hs Hp Htx Hw. eexists. split.
  - eapply addRegularDepartment_run; eassumption.
  - apply first_event_arg_cases.
Qed.

(* ===================================================================== *)
(** ** Transactions without a return value *)
(* ===================================================================== *)

(** Sign, bind a contract, submit, wait. *)
Lemma sign_submit_wait (getContract : Wallet -> M Contract) pk method ps w signer w1 c :
  getSigner E pk w = (Normal signer, w1) ->
  getContract signer w1 = (Normal c, w1) ->
  (signer <- getSigner E pk ;;
   contract <- getContract signer ;;
   tx <- send E contract method ps ;;
   waitForTransaction tx) w
  = submission_outcome E c method ps w1.
Proof.
  intros Hs Hc. run Hs. run Hc. unfold submission_outcome, bind.
  rewrite send_run. destruct (transact E c method ps) as [tx | e]; [| reflexivity].
  apply waitForTransaction_outcome.
Qed.

(** X17.  Once the signer is available, [addDocumentManager],
    [removeDocumentManager], [transferAgencyOwnership] and [setHouseAndSenate]
    each submit one transaction to the contract at the given address
    ([transferAgencyOwnership] through the contract method transferOwnership)
    and return what waiting for it gives: the summary of the receipt, the
    error "Transaction failed - no receipt" when the wait yields no receipt,
    or the error of the wait.  When the submission itself is rejected they
    throw its error and wait for nothing. *)
Theorem role_transactions_outcome
    (address a b : JsString) (pk : option JsString) (w w1 : World) (signer : Wallet) :
  getSigner E pk w = (Normal signer, w1) ->
  let agency := {| target := address; interface := AgencyABI E;
                   runner := RunnerSigner signer |} in
  let department := {| target := address; interface := DepartmentABI E;
                       runner := RunnerSigner signer |} in
  addDocumentManager E address a pk w
  = submission_outcome E agency "addDocumentManager" [VString a] w1 /\
  removeDocumentManager E address a pk w
  = submission_outcome E agency "removeDocumentManager" [VString a] w1 /\
  transferAgencyOwnership E address a pk w
  = submission_outcome E agency "transferOwnership" [VString a] w1 /\
  setHouseAndSenate E address a b pk w
  = submission_outcome E department "setHouseAndSenate" [VString a; VString b] w1.
Proof.
  intros Hs agency department.
  repeat split;
    apply (@sign_submit_wait (fun s => _) _ _ _ _ _ _ _ Hs); reflexivity.
Qed.

(** X18.  Once the signer and the DBTC contract are available,
    [assignPhaseResponsibility], [startBudgetCall] and [advancePhase] each
    submit one transaction to that contract and return what waiting for it
    gives: the summary of the receipt, the error "Transaction failed - no
    receipt" when the wait yields no receipt, or the error of the wait.  When
    the submission itself is rejected they throw its error and wait for
    nothing. *)
Theorem phase_transactions_outcome
    (phase : Z) (deptCode : JsString) (pk dbtcAddress : option JsString)
    (w w1 : World) (signer : Wallet) (contract : Contract) :
  getSigner E pk w = (Normal signer, w1) ->
  getDBTCContract E dbtcAddress (Some signer) w1 = (Normal contract, w1) ->
  assignPhaseResponsibility E phase deptCode pk dbtcAddress w
  = submission_outcome E contract "assignPhaseResponsibility"
      [VNumber (NumInt phase); VString deptCode] w1 /\
  startBudgetCall E pk dbtcAddress w
  = submission_outcome E contract "startBudgetCall" [] w1 /\
  advancePhase E pk dbtcAddress w
  = submission_outcome E contract "advancePhase" [] w1.
Proof.
  intros Hs Hc.
  repeat split;
    apply (@sign_submit_wait (fun s => getDBTCContract E dbtcAddress (Some s))
             _ _ _ _ _ _ _ Hs Hc).
Qed.

(** X19.  Each of the fifteen exported functions that sign a transaction
    obtains its signer first: when [getSigner] throws for the key argument,
    the function throws the same error, in the state [getSigner] left, and
    has asked nothing of the chain. *)
Theorem signing_failure_is_reported
    (x : Export) (pk : option JsString) (w w1 : World) (e : Exn) :
  signer_key x = Some pk ->
  getSigner E pk w = (Throw e, w1) ->
  invoke E x w = (Throw e, w1) /\ trace w1 = trace w.
Proof.
  intros Hx Hs. split.
  - destruct x; cbn in Hx; try discriminate; injection Hx as ->;
      cbn [invoke]; unfold discard;
      (erewrite bind_Throw; [reflexivity |]);
      unfold submitProposal, reviseProposal, amendProposal, submitSeparateGAB,
        submitJointGAB, addDocumentManager, removeDocumentManager,
        transferAgencyOwnership, addAgency, setHouseAndSenate, addDepartment,
        addRegularDepartment, assignPhaseResponsibility, startBudgetCall, advancePhase;
      (erewrite bind_Throw; [reflexivity | exact Hs]).
  - pose proof (silent_getSigner E pk w) as H. rewrite Hs in H. exact H.
Qed.

Lemma discard_throw {A} (m : M A) w :
  is_throw (fst (m w)) = true ->
  is_throw (fst (discard m w)) = true /\ snd (discard m w) = snd (m w).
Proof.
  unfold discard, bind. destruct (m w) as [[a | e] w1]; [discriminate |]. cbn. auto.
Qed.

Lemma prepared_before_sending {A} address d pk
    (k : Contract -> OnChainProposalData -> M A) w :
  is_throw (prepareProposalData E d) = true ->
  let m := (signer <- getSigner E pk ;;
            contract <- getAgencyContract E address (Some signer) ;;
            pd <- lift (prepareProposalData E d) ;;
            k contract pd) in
  is_throw (fst (m w)) = true /\ trace (snd (m w)) = trace w.
Proof.
  intros Hrej m. unfold m.
  pose proof (silent_getSigner E pk w) as Hsil.
  destruct (getSigner E pk w) as [[signer | e] w1] eqn:Hs; cbn in Hsil.
  - run Hs. run_by reflexivity.
    destruct (prepareProposalData E d) as [pd | e] eqn:Hp; [discriminate |].
    erewrite bind_Throw by reflexivity.
    cbn. auto.
  - erewrite bind_Throw by exact Hs. cbn. auto.
Qed.

(** X20.  [submitProposal], [reviseProposal], [amendProposal],
    [submitSeparateGAB] and [submitJointGAB] all prepare the proposal data
    before they submit: when [prepareProposalData] throws on the data, the
    call throws and nothing has been asked of the chain. *)
Theorem rejected_proposals_are_not_submitted
    (x : Export) (d : ProposalData) (w : World) :
  proposal_data x = Some d ->
  is_throw (prepareProposalData E d) = true ->
  is_throw (fst (invoke E x w)) = true /\
  trace (snd (invoke E x w)) = trace w.
Proof.
  intros Hx Hrej.
  destruct x; cbn in Hx; try discriminate; injection Hx as ->; cbn [invoke];
    match goal with
    | |- context [discard ?m w] =>
        destruct (@discard_throw _ m w) as [Ht Hw];
          [| split; [exact Ht | rewrite Hw]];
          apply (@prepared_before_sending _ _ _ _ (fun contract pd => _) w Hrej)
    end.
Qed.
(* ===================================================================== *)
(** ** [Promise.all] of read-only calls *)
(* ===================================================================== *)

Lemma trace_fold_log_event evs w :
  trace (fold_left log_event evs w) = trace w ++ evs.
Proof.
  revert w. induction evs as [| ev evs IH]; intros w; cbn [fold_left].
  - rewrite app_nil_r. reflexivity.
  - rewrite IH. cbn. rewrite <- app_assoc. reflexivity.
Qed.

Lemma start_all_run c methods w :
  start_all (map (fun m => call E c m []) methods) w
  = (map (fun m => staticCall E c m []) methods,
     fold_left log_event (call_events (target c) methods) w).
Proof.
  revert w. induction methods as [| m ms IH]; intros w; [reflexivity |].
  cbn [map start_all call_events fold_left]. rewrite call_run.
  rewrite IH. reflexivity.
Qed.

Lemma settle_all_some_throw {X} (f : X -> Completion JsVal) xs :
  (exists x, In x xs /\ is_throw (f x) = true) ->
  exists x e, In x xs /\ f x = Throw e /\ settle_all (map f xs) = Throw e.
Proof.
  induction xs as [| y xs IH]; intros (x & Hin & Hx); [destruct Hin |].
  cbn [map settle_all]. destruct (f y) as [v | e] eqn:Hy.
  - destruct Hin as [-> | Hin]; [rewrite Hy in Hx; discriminate |].
    destruct IH as (x' & e & Hin' & Hx' & Hs); [exists x; auto |].
    exists x', e. rewrite Hs. split; [right; exact Hin' | auto].
  - exists y, e. split; [left; reflexivity | auto].
Qed.

Lemma Promise_all_calls c methods w :
  Promise_all (map (fun m => call E c m []) methods) w
  = (settle_all (map (fun m => staticCall E c m []) methods),
     fold_left log_event (call_events (target c) methods) w).
Proof. unfold Promise_all. rewrite start_all_run. reflexivity. Qed.

Lemma getProvider_trace w p w1 : getProvider w = (Normal p, w1) -> trace w1 = trace w.
Proof. intros H. pose proof (silent_getProvider w) as Hs. rewrite H in Hs. exact Hs. Qed.

Lemma runner_of_provider w p w1 :
  getProvider w = (Normal p, w1) -> runner_of None w = (Normal (RunnerProvider p), w1).
Proof. intros Hp. unfold runner_of. run Hp. reflexivity. Qed.

(** X21.  Once the provider is available, [getAgencyInfo] issues the four
    reads getCode, getName, getDepartment and getOwner, in this order and
    whatever their outcomes.  When all four succeed it returns the object
    made of the address and the four answers; when some read fails it throws
    the error of a read that failed. *)
Theorem getAgencyInfo_reads_in_parallel
    (agencyAddress : JsString) (w w1 : World) (p : JsonRpcProvider) :
  getProvider w = (Normal p, w1) ->
  let c := {| target := agencyAddress; interface := AgencyABI E;
              runner := RunnerProvider p |} in
  trace (snd (getAgencyInfo E agencyAddress w))
  = trace w ++ call_events agencyAddress agency_info_methods /\
  (forall code name department owner,
     staticCall E c "getCode" [] = Normal code ->
     staticCall E c "getName" [] = Normal name ->
     staticCall E c "getDepartment" [] = Normal department ->
     staticCall E c "getOwner" [] = Normal owner ->
     fst (getAgencyInfo E agencyAddress w)
     = Normal (VObject [("address", VString agencyAddress); ("code", code);
                        ("name", name); ("department", department);
                        ("owner", owner)]%string)) /\
  ((exists m, In m agency_info_methods /\ is_throw (staticCall E c m []) = true) ->
   exists m e,
     In m agency_info_methods /\ staticCall E c m [] = Throw e /\
     fst (getAgencyInfo E agencyAddress w) = Throw e).
Proof.
  intros Hp c.
  assert (Hc : getAgencyContract E agencyAddress None w = (Normal c, w1)).
  { unfold getAgencyContract. run (@runner_of_provider _ _ _ Hp). reflexivity. }
  assert (Hrun : getAgencyInfo E agencyAddress w
                 = bind (Promise_all (map (fun m => call E c m []) agency_info_methods))
                     (fun rs =>
                        match rs with
                        | [code; name; department; owner] =>
                            ret (VObject [("address", VString agencyAddress);
                                          ("code", code); ("name", name);
                                          ("department", department);
                                          ("owner", owner)]%string)
                        | _ => throw (Err "TypeError: undefined is not iterable")
                        end) w1).
  { unfold getAgencyInfo. run Hc. reflexivity. }
  rewrite Hrun. unfold bind. rewrite Promise_all_calls.
  split; [| split].
  - destruct (settle_all _) as [rs | e]; cbn [snd].
    + destruct rs as [| ? [| ? [| ? [| ? [| ? ?]]]]]; cbn [snd ret throw];
        rewrite trace_fold_log_event, (@getProvider_trace _ _ _ Hp); reflexivity.
    + rewrite trace_fold_log_event, (@getProvider_trace _ _ _ Hp). reflexivity.
  - intros code name department owner H1 H2 H3 H4.
    cbn [map agency_info_methods settle_all]. rewrite H1, H2, H3, H4. reflexivity.
  - intros Hsome.
    destruct (@settle_all_some_throw _ (fun m => staticCall E c m []) _ Hsome)
      as (m & e & Hin & Hm & Hs).
    exists m, e. rewrite Hs. auto.
Qed.

Lemma getDepartmentContract_provider a w p w1 :
  getProvider w = (Normal p, w1) ->
  getDepartmentContract E a None w
  = (Normal {| target := a; interface := DepartmentABI E; runner := RunnerProvider p |}, w1).
Proof.
  intros Hp. unfold getDepartmentContract. run (@runner_of_provider _ _ _ Hp). reflexivity.
Qed.

(** X22.  Once the provider is available, [getDepartmentInfo] issues its
    seven reads in the order of the source, whatever their outcomes.  When
    all succeed it returns the object made of the address and the answers,
    with [agencyCount] converted by [Number]; when some read fails it throws
    the error of a read that failed. *)
Theorem getDepartmentInfo_reads_in_parallel
    (departmentAddress : JsString) (w w1 : World) (p : JsonRpcProvider) :
  getProvider w = (Normal p, w1) ->
  let c := {| target := departmentAddress; interface := DepartmentABI E;
              runner := RunnerProvider p |} in
  trace (snd (getDepartmentInfo E departmentAddress w))
  = trace w ++ call_events departmentAddress department_info_methods /\
  (forall code name dbtc mainAgency isStandalone isActualDepartment agencyCount,
     staticCall E c "getCode" [] = Normal code ->
     staticCall E c "getName" [] = Normal name ->
     staticCall E c "getDBTC" [] = Normal dbtc ->
     staticCall E c "getMainAgency" [] = Normal mainAgency ->
     staticCall E c "isStandalone" [] = Normal isStandalone ->
     staticCall E c "getIsActualDepartment" [] = Normal isActualDepartment ->
     staticCall E c "getAgencyCount" [] = Normal agencyCount ->
     fst (getDepartmentInfo E departmentAddress w)
     = Normal (VObject [("address", VString departmentAddress); ("code", code);
                        ("name", name); ("dbtc", dbtc); ("mainAgency", mainAgency);
                        ("isStandalone", isStandalone);
                        ("isActualDepartment", isActualDepartment);
                        ("agencyCount", VNumber (Number E agencyCount))]%string)) /\
  ((exists m, In m department_info_methods /\ is_throw (staticCall E c m []) = true) ->
   exists m e,
     In m department_info_methods /\ staticCall E c m [] = Throw e /\
     fst (getDepartmentInfo E departmentAddress w) = Throw e).
Proof.
  intros Hp c.
  assert (Hrun : getDepartmentInfo E departmentAddress w
                 = bind (Promise_all (map (fun m => call E c m []) department_info_methods))
                     (fun rs =>
                        match rs with
                        | [code; name; dbtc; mainAgency; isStandalone; isActualDepartment;
                           agencyCount] =>
                            ret (VObject [("address", VString departmentAddress);
                                          ("code", code); ("name", name); ("dbtc", dbtc);
                                          ("mainAgency", mainAgency);
                                          ("isStandalone", isStandalone);
                                          ("isActualDepartment", isActualDepartment);
                                          ("agencyCount", VNumber (Number E agencyCount))]%string)
                        | _ => throw (Err "TypeError: undefined is not iterable")
                        end) w1).
  { unfold getDepartmentInfo. run (@getDepartmentContract_provider departmentAddress _ _ _ Hp).
    reflexivity. }
  rewrite Hrun. unfold bind. rewrite Promise_all_calls.
  split; [| split].
  - destruct (settle_all _) as [rs | e]; cbn [snd].
    + destruct rs as [| ? [| ? [| ? [| ? [| ? [| ? [| ? [| ? ?]]]]]]]]; cbn [snd ret throw];
        rewrite trace_fold_log_event, (@getProvider_trace _ _ _ Hp); reflexivity.
    + rewrite trace_fold_log_event, (@getProvider_trace _ _ _ Hp). reflexivity.
  - intros code name dbtc mainAgency isStandalone isActualDepartment agencyCount
      H1 H2 H3 H4 H5 H6 H7.
    cbn [map department_info_methods settle_all].
    rewrite H1, H2, H3, H4, H5, H6, H7. reflexivity.
  - intros Hsome.
    destruct (@settle_all_some_throw _ (fun m => staticCall E c m []) _ Hsome)
      as (m & e & Hin & Hm & Hs).
    exists m, e. rewrite Hs. auto.
Qed.
End Wrappers.

Lemma reviseProposal_returns_new_token_witness :
  exists v,
    fst (reviseProposal Sample.full_env (lit "0xAgency") (VBigInt 7) (lit "ipfs://m")
           Demo.proposal (lit "typo") None Demo.world)
    = Normal {| result := receipt_result Sample.full_receipt; value := v |} /\
    v = VString (lit "9").
Proof.
  destruct (@reviseProposal_returns_new_token Sample.full_env (lit "0xAgency") (VBigInt 7)
              (lit "ipfs://m") Demo.proposal (lit "typo") None Demo.world
              _ _ _ Sample.full_tx Sample.full_receipt
              eq_refl eq_refl eq_refl eq_refl)
    as (v & Hrun & Hnone & Hfirst).
  exists v. split; [exact Hrun |].
  apply (Hfirst [Demo.log "garbage" "x"; Demo.log "ProposalSubmitted" "";
            Demo.log "ProposalSubmitted" "7"; Demo.log "ProposalRevised" ""]
           (Demo.log "ProposalRevised" "9") _ _ eq_refl).
  - apply nothing_yielded. reflexivity.
  - eexists. split; [reflexivity | split; reflexivity].
Defined.

Lemma amendProposal_returns_new_token_witness :
  exists v,
    fst (amendProposal Sample.full_env (lit "0xAgency") (VBigInt 7) (lit "ipfs://m")
           Demo.proposal (lit "typo") None Demo.world)
    = Normal {| result := receipt_result Sample.full_receipt; value := v |} /\
    v = VString (lit "10").
Proof.
  destruct (@amendProposal_returns_new_token Sample.full_env (lit "0xAgency") (VBigInt 7)
              (lit "ipfs://m") Demo.proposal (lit "typo") None Demo.world
              _ _ _ Sample.full_tx Sample.full_receipt
              eq_refl eq_refl eq_refl eq_refl)
    as (v & Hrun & Hnone & Hfirst).
  exists v. split; [exact Hrun |].
  apply (Hfirst [Demo.log "garbage" "x"; Demo.log "ProposalSubmitted" "";
            Demo.log "ProposalSubmitted" "7"; Demo.log "ProposalRevised" "";
            Demo.log "ProposalRevised" "9"]
           (Demo.log "ProposalAmended" "10") _ _ eq_refl).
  - apply nothing_yielded. reflexivity.
  - eexists. split; [reflexivity | split; reflexivity].
Defined.

Lemma submitSeparateGAB_returns_token_witness :
  exists v,
    fst (submitSeparateGAB Sample.full_env (lit "0xAgency") (lit "ipfs://m")
           Demo.proposal None Demo.world)
    = Normal {| result := receipt_result Sample.full_receipt; value := v |} /\
    v = VString (lit "7").
Proof.
  destruct (@submitSeparateGAB_returns_token Sample.full_env (lit "0xAgency")
              (lit "ipfs://m") Demo.proposal None Demo.world
              _ _ _ Sample.full_tx Sample.full_receipt
              eq_refl eq_refl eq_refl eq_refl)
    as (v & Hrun & Hnone & Hfirst).
  exists v. split; [exact Hrun |].
  apply (Hfirst [Demo.log "garbage" "x"; Demo.log "ProposalSubmitted" ""]
           (Demo.log "ProposalSubmitted" "7") _ _ eq_refl).
  - apply nothing_yielded. reflexivity.
  - eexists. split; [reflexivity | split; reflexivity].
Defined.

Lemma submitJointGAB_returns_token_witness :
  exists v,
    fst (submitJointGAB Demo.quiet_env (lit "0xAgency") (VBigInt 1) (VBigInt 2)
           (lit "ipfs://m") Demo.proposal None Demo.world)
    = Normal {| result := receipt_result Demo.quiet_receipt; value := v |} /\
    v = VBigInt 0.
Proof.
  destruct (@submitJointGAB_returns_token Demo.quiet_env (lit "0xAgency") (VBigInt 1)
              (VBigInt 2) (lit "ipfs://m") Demo.proposal None Demo.world
              _ _ _ Demo.quiet_tx Demo.quiet_receipt
              eq_refl eq_refl eq_refl eq_refl)
    as (v & Hrun & Hnone & Hfirst).
  exists v. split; [exact Hrun |].
  apply Hnone. apply nothing_yielded. reflexivity.
Defined.

Lemma addRegularDepartment_returns_contract_witness :
  exists v,
    fst (addRegularDepartment Sample.full_env (lit "DPWH") (lit "Public Works")
           (lit "Office of the Secretary") (lit "0xOwner") None None Demo.world)
    = Normal {| result := receipt_result Sample.full_receipt; value := v |} /\
    v = VString (lit "0xDept").
Proof.
  destruct (@addRegularDepartment_returns_contract Sample.full_env (lit "DPWH")
              (lit "Public Works") (lit "Office of the Secretary") (lit "0xOwner")
              None None Demo.world _ _ _ _ Sample.full_tx Sample.full_receipt
              eq_refl eq_refl eq_refl eq_refl)
    as (v & Hrun & Hnone & Hfirst).
  exists v. split; [exact Hrun |].
  apply (Hfirst [Demo.log "garbage" "x"; Demo.log "ProposalSubmitted" "";
            Demo.log "ProposalSubmitted" "7"; Demo.log "ProposalRevised" "";
            Demo.log "ProposalRevised" "9"; Demo.log "ProposalAmended" "10";
            Demo.log "DepartmentAdded" "?"]
           (Demo.log "DepartmentAdded" "0xDept") _ _ eq_refl).
  - apply nothing_yielded. reflexivity.
  - eexists. split; [reflexivity | split; reflexivity].
Defined.

Lemma role_transactions_outcome_witness :
  fst (addDocumentManager Sample.dropping_env (lit "0xAgency") (lit "0xManager") None
         Demo.world)
  = Throw (Err "Transaction failed - no receipt") /\
  fst (setHouseAndSenate Sample.failing_env (lit "0xDept") (lit "0xHouse") (lit "0xSenate")
         None Demo.world)
  = Throw (Err "execution reverted") /\
  fst (transferAgencyOwnership Demo.env (lit "0xAgency") (lit "0xOwner") None Demo.world)
  = Normal (receipt_result Demo.receipt).
Proof.
  split; [| split].
  - rewrite (proj1 (@role_transactions_outcome Sample.dropping_env (lit "0xAgency")
                      (lit "0xManager") (lit "0xManager") None Demo.world _ _ eq_refl)).
    reflexivity.
  - rewrite (proj2 (proj2 (proj2
               (@role_transactions_outcome Sample.failing_env (lit "0xDept")
                  (lit "0xHouse") (lit "0xSenate") None Demo.world _ _ eq_refl)))).
    reflexivity.
  - rewrite (proj1 (proj2 (proj2
               (@role_transactions_outcome Demo.env (lit "0xAgency")
                  (lit "0xOwner") (lit "0xOwner") None Demo.world _ _ eq_refl)))).
    reflexivity.
Defined.

Lemma phase_transactions_outcome_witness :
  fst (assignPhaseResponsibility Demo.env 1 (lit "DBM") None None Demo.world)
  = Normal (receipt_result Demo.receipt) /\
  fst (advancePhase Sample.dropping_env None (Some (lit "0xD")) Demo.world)
  = Throw (Err "Transaction failed - no receipt").
Proof.
  split.
  - rewrite (proj1 (@phase_transactions_outcome Demo.env 1 (lit "DBM") None None
                      Demo.world _ _ _ eq_refl eq_refl)).
    reflexivity.
  - rewrite (proj2 (proj2 (@phase_transactions_outcome Sample.dropping_env 1 (lit "DBM")
                             None (Some (lit "0xD")) Demo.world _ _ _ eq_refl eq_refl))).
    reflexivity.
Defined.

Lemma signing_failure_is_reported_witness :
  invoke Demo.env (X_advancePhase None None) Sample.mainnet
  = (Throw (Err "No private key provided. Pass privateKey parameter or configure SDK with privateKey, or set PRIVATE_KEY environment variable."),
     Sample.mainnet) /\
  trace Sample.mainnet = trace Sample.mainnet.
Proof.
  apply (@signing_failure_is_reported Demo.env (X_advancePhase None None) None
           Sample.mainnet Sample.mainnet); reflexivity.
Defined.

Lemma rejected_proposals_are_not_submitted_witness :
  is_throw (fst (invoke Demo.env
                   (X_reviseProposal (lit "0xAgency") (VBigInt 7) (lit "ipfs://m")
                      Demo.long_proposal (lit "typo") None) Demo.world)) = true /\
  trace (snd (invoke Demo.env
                (X_reviseProposal (lit "0xAgency") (VBigInt 7) (lit "ipfs://m")
                   Demo.long_proposal (lit "typo") None) Demo.world))
  = trace Demo.world.
Proof.
  apply (@rejected_proposals_are_not_submitted Demo.env
           (X_reviseProposal (lit "0xAgency") (VBigInt 7) (lit "ipfs://m")
              Demo.long_proposal (lit "typo") None) Demo.long_proposal Demo.world);
    reflexivity.
Defined.

Lemma getAgencyInfo_reads_in_parallel_witness :
  trace (snd (getAgencyInfo Sample.full_env (lit "0xAgency") Demo.world))
  = trace Demo.world ++ call_events (lit "0xAgency") agency_info_methods /\
  is_throw (fst (getAgencyInfo Sample.full_env (lit "0xAgency") Demo.world)) = true /\
  fst (getAgencyInfo Demo.env (lit "0xAgency") Demo.world)
  = Normal (VObject [("address", VString (lit "0xAgency")); ("code", VBigInt 1);
                     ("name", VBigInt 1); ("department", VBigInt 1);
                     ("owner", VBigInt 1)]%string).
Proof.
  destruct (@getAgencyInfo_reads_in_parallel Sample.full_env (lit "0xAgency") Demo.world
              _ _ eq_refl) as (Htrace & _ & Hfail).
  destruct (@getAgencyInfo_reads_in_parallel Demo.env (lit "0xAgency") Demo.world
              _ _ eq_refl) as (_ & Hall & _).
  split; [exact Htrace |]. split.
  - destruct Hfail as (m & e & _ & _ & Hrun).
    + exists "getName"%string. split; [right; left; reflexivity | reflexivity].
    + rewrite Hrun. reflexivity.
  - apply Hall; reflexivity.
Defined.

Lemma getDepartmentInfo_reads_in_parallel_witness :
  trace (snd (getDepartmentInfo Sample.full_env (lit "0xDept") Demo.world))
  = trace Demo.world ++ call_events (lit "0xDept") department_info_methods /\
  is_throw (fst (getDepartmentInfo Sample.full_env (lit "0xDept") Demo.world)) = true /\
  fst (getDepartmentInfo Demo.env (lit "0xDept") Demo.world)
  = Normal (VObject [("address", VString (lit "0xDept")); ("code", VBigInt 1);
                     ("name", VBigInt 1); ("dbtc", VBigInt 1);
                     ("mainAgency", VBigInt 1); ("isStandalone", VBigInt 1);
                     ("isActualDepartment", VBigInt 1);
                     ("agencyCount", VNumber (NumInt 1))]%string).
Proof.
  destruct (@getDepartmentInfo_reads_in_parallel Sample.full_env (lit "0xDept") Demo.world
              _ _ eq_refl) as (Htrace & _ & Hfail).
  destruct (@getDepartmentInfo_reads_in_parallel Demo.env (lit "0xDept") Demo.world
              _ _ eq_refl) as (_ & Hall & _).
  split; [exact Htrace |]. split.
  - destruct Hfail as (m & e & _ & _ & Hrun).
    + exists "getName"%string. split; [right; left; reflexivity | reflexivity].
    + rewrite Hrun. reflexivity.
  - apply (Hall (VBigInt 1) (VBigInt 1) (VBigInt 1) (VBigInt 1) (VBigInt 1) (VBigInt 1)
             (VBigInt 1)); reflexivity.
Defined.

(* ===================================================================== *)
(** ** What a call does to the module state *)
(* ===================================================================== *)

Lemma configure_cases c w :
  (config_ok c /\ configure c w = (Normal tt, set_state w (Some c) None)) \/
  (exists e, configure c w = (Throw e, w)).
Proof.
  unfold configure.
  destruct (str_truthy (chainMode c)) eqn:Ht; cbn [negb orb];
    [| right; eexists; reflexivity].
  destruct (includes_mode (chainMode c)) eqn:Hi; cbn [negb];
    [| right; eexists; reflexivity].
  destruct (str_truthy (apiKey c)) eqn:Hk; cbn [negb];
    [| right; eexists; reflexivity].
  left. split.
  - split; [apply includes_mode_spec, Hi |].
    intros Hnil. rewrite Hnil in Hk. discriminate.
  - destruct c. reflexivity.
Qed.

Create HintDb keeps_db.

Section Frames.

Variable E : Env.
Variable R : World -> World -> Prop.
Hypothesis R_refl : forall w, R w w.
Hypothesis R_trans : forall w1 w2 w3, R w1 w2 -> R w2 w3 -> R w1 w3.
Hypothesis R_log : forall w e, R w (log_event w e).
Hypothesis R_getConfig : keeps R getConfig.
Hypothesis R_getProvider : keeps R getProvider.

Lemma keeps_ret {A} (a : A) : keeps R (ret a).
Proof. intros w. apply R_refl. Qed.

Lemma keeps_throw {A} (e : Exn) : keeps R (@throw A e).
Proof. intros w. apply R_refl. Qed.

Lemma keeps_lift {A} (c : Completion A) : keeps R (lift c).
Proof. intros w. apply R_refl. Qed.

Lemma keeps_get : keeps R get.
Proof. intros w. apply R_refl. Qed.

Lemma keeps_emit e : keeps R (emit e).
Proof. intros w. apply R_log. Qed.

Lemma keeps_bind {A B} (m : M A) (k : A -> M B) :
  keeps R m -> (forall a, keeps R (k a)) -> keeps R (bind m k).
Proof.
  intros Hm Hk w. unfold bind. specialize (Hm w).
  destruct (m w) as [[a | e] w1]; cbn [snd] in Hm |- *; [| exact Hm].
  eapply R_trans; [exact Hm | apply Hk].
Qed.

#[local] Hint Resolve keeps_ret keeps_throw keeps_lift keeps_get keeps_emit
  R_getConfig R_getProvider : keeps_db.

Ltac keep :=
  repeat first
    [ solve [auto with keeps_db nocore]
    | apply keeps_bind; [| intros ?]
    | progress cbv zeta
    | match goal with
      | |- keeps _ (if ?b then _ else _) => destruct b
      | |- keeps _ (match ?x with _ => _ end) => destruct x
      end ].

Lemma keeps_send c method ps : keeps R (send E c method ps).
Proof. unfold send. keep. Qed.

Lemma keeps_call c method ps : keeps R (call E c method ps).
Proof. unfold call. keep. Qed.

Lemma keeps_waitForTransaction tx : keeps R (waitForTransaction tx).
Proof. unfold waitForTransaction, await_wait. keep. Qed.

Lemma keeps_start_all ms w :
  Forall (fun m => keeps R m) ms -> R w (snd (start_all ms w)).
Proof.
  intros H. revert w. induction H as [| m ms Hm _ IH]; intros w; cbn [start_all].
  - apply R_refl.
  - specialize (Hm w). destruct (m w) as [c w1]. specialize (IH w1).
    destruct (start_all ms w1) as [cs w2]. cbn [snd] in *.
    eapply R_trans; eassumption.
Qed.

Lemma keeps_Promise_all ms :
  Forall (fun m => keeps R m) ms -> keeps R (Promise_all ms).
Proof.
  intros H w. unfold Promise_all. pose proof (keeps_start_all w H) as Hs.
  destruct (start_all ms w) as [cs w2]. exact Hs.
Qed.

#[local] Hint Resolve keeps_send keeps_call keeps_waitForTransaction : keeps_db.

Lemma keeps_getNetworkConfig : keeps R getNetworkConfig.
Proof. unfold getNetworkConfig. keep. Qed.

Lemma keeps_getContractAddresses : keeps R getContractAddresses.
Proof. unfold getContractAddresses. keep. Qed.

Lemma keeps_getChainMode : keeps R getChainMode.
Proof. unfold getChainMode. keep. Qed.

Lemma keeps_isTestnet : keeps R isTestnet.
Proof. unfold isTestnet. keep. Qed.

Lemma keeps_isMainnet : keeps R isMainnet.
Proof. unfold isMainnet. keep. Qed.

Lemma keeps_runner_of s : keeps R (runner_of s).
Proof. unfold runner_of. keep. Qed.

#[local] Hint Resolve keeps_getContractAddresses keeps_getChainMode keeps_isTestnet
  keeps_isMainnet keeps_runner_of : keeps_db.

Lemma keeps_getSigner pk : keeps R (getSigner E pk).
Proof. unfold getSigner, newWallet. keep. Qed.

Lemma keeps_getAgencyContract a s : keeps R (getAgencyContract E a s).
Proof. unfold getAgencyContract. keep. Qed.

Lemma keeps_getDepartmentContract a s : keeps R (getDepartmentContract E a s).
Proof. unfold getDepartmentContract. keep. Qed.

Lemma keeps_getDBTCContract a s : keeps R (getDBTCContract E a s).
Proof. unfold getDBTCContract. keep. Qed.

#[local] Hint Resolve keeps_getSigner keeps_getAgencyContract keeps_getDepartmentContract
  keeps_getDBTCContract : keeps_db.

Lemma keeps_getAgencyInfo a : keeps R (getAgencyInfo E a).
Proof.
  unfold getAgencyInfo. apply keeps_bind; [keep | intros c].
  apply keeps_bind; [| intros rs; keep].
  apply keeps_Promise_all. repeat constructor; apply keeps_call.
Qed.

Lemma keeps_getDepartmentInfo a : keeps R (getDepartmentInfo E a).
Proof.
  unfold getDepartmentInfo. apply keeps_bind; [keep | intros c].
  apply keeps_bind; [| intros rs; keep].
  apply keeps_Promise_all. repeat constructor; apply keeps_call.
Qed.

#[local] Hint Resolve keeps_getAgencyInfo keeps_getDepartmentInfo : keeps_db.

Lemma keeps_setContractAddresses d b m :
  (forall mode f, keeps R (assign_address mode f)) ->
  keeps R (setContractAddresses d b m).
Proof. intros Ha. unfold setContractAddresses. keep. Qed.

(** Every export other than [configure] and [setContractAddresses] is made of
    steps that keep [R]. *)
Lemma keeps_invoke x :
  is_configure x = false -> is_setContractAddresses x = false ->
  keeps R (invoke E x).
Proof.
  intros Hc Hs. destruct x; try discriminate; cbn [invoke]; unfold discard;
    cbv beta delta
      [submitProposal reviseProposal amendProposal submitSeparateGAB submitJointGAB
       addDocumentManager removeDocumentManager transferAgencyOwnership
       isDocumentManager getDocumentManagers
       addAgency setHouseAndSenate getAgency isAgencyRegistered getAgencyCodes
       getMainAgency getHouseAgency getSenateAgency getDepartmentOwner
       addDepartment addRegularDepartment assignPhaseResponsibility startBudgetCall
       advancePhase getCurrentPhase getCurrentFiscalYear getDepartment
       isDepartmentRegistered getDepartmentCodes getDepartmentCount
       getPhaseResponsibleDepartment getBudgetProposalContract getDBTCOwner];
    keep.
Qed.

End Frames.

(** [getConfig] keeps what the automatic configuration keeps. *)
Lemma keeps_getConfig_from (R : World -> World -> Prop) :
  (forall w, R w w) ->
  (forall c w, _config w = None -> R w (snd (configure c w))) ->
  keeps R getConfig.
Proof.
  intros Hrefl Hconf w. unfold getConfig, bind, get.
  destruct (_config w) as [c |] eqn:Hc; [apply Hrefl |].
  destruct (DBTC_CHAIN_MODE (process_env w)) as [[| m ms] |]; try apply Hrefl.
  destruct (DBTC_API_KEY (process_env w)) as [[| k ks] |]; try apply Hrefl.
  specialize (Hconf {| chainMode := m :: ms; apiKey := k :: ks;
                       privateKey := PRIVATE_KEY (process_env w) |} w Hc).
  destruct (configure _ w) as [[[] | e] w1]; cbn [snd] in *; [| exact Hconf].
  destruct (_config w1); exact Hconf.
Qed.

(** [getProvider] keeps what [getConfig] and the caching keep. *)
Lemma keeps_getProvider_from (R : World -> World -> Prop) :
  (forall w, R w w) ->
  (forall w1 w2 w3, R w1 w2 -> R w2 w3 -> R w1 w3) ->
  keeps R getConfig ->
  (forall p w, R w (snd (set_provider p w))) ->
  keeps R getProvider.
Proof.
  intros Hrefl Htrans Hcfg Hset. unfold getProvider, getNetworkConfig, getRpcUrl.
  assert (Hb : forall A B (m : M A) (k : A -> M B),
             keeps R m -> (forall a, keeps R (k a)) -> keeps R (bind m k)).
  { intros A B m k. apply keeps_bind, Htrans. }
  assert (Hr : forall A (a : A), keeps R (ret a)) by (intros A a w; apply Hrefl).
  assert (Ht : forall A e, keeps R (@throw A e)) by (intros A e w; apply Hrefl).
  apply Hb; [intros w; apply Hrefl | intros w0].
  destruct (_provider w0); [apply Hr |].
  apply Hb; [apply Hb; [exact Hcfg | intros c; apply Hr] | intros n].
  apply Hb; [apply Hb; [exact Hcfg | intros c] | intros url].
  - destruct (NETWORKS (chainMode c)); [apply Hr | apply Ht].
  - destruct n; [| apply Ht].
    apply Hb; [intros w; apply Hset | intros _; apply Hr].
Qed.

Lemma assign_address_state mode f w :
  _config (snd (assign_address mode f w)) = _config w /\
  _provider (snd (assign_address mode f w)) = _provider w /\
  process_env (snd (assign_address mode f w)) = process_env w.
Proof.
  unfold assign_address, bind, get.
  destruct (update_addresses (CONTRACT_ADDRESSES w) mode f); cbn; auto.
Qed.

Lemma configure_state c w :
  process_env (snd (configure c w)) = process_env w /\
  CONTRACT_ADDRESSES (snd (configure c w)) = CONTRACT_ADDRESSES w.
Proof.
  destruct (configure_cases c w) as [[_ H] | [e H]]; rewrite H; cbn; auto.
Qed.

Lemma getConfig_cases w :
  (exists c, _config w = Some c /\ getConfig w = (Normal c, w)) \/
  (exists c, _config w = None /\ config_ok c /\
             getConfig w = (Normal c, set_state w (Some c) None)) \/
  (exists e, _config w = None /\ getConfig w = (Throw e, w)).
Proof.
  destruct (_config w) as [c |] eqn:Hc.
  { left. exists c. split; [reflexivity | apply getConfig_stored, Hc]. }
  right. unfold getConfig, bind, get. rewrite Hc.
  destruct (DBTC_CHAIN_MODE (process_env w)) as [[| m ms] |];
    try (right; eexists; split; reflexivity).
  destruct (DBTC_API_KEY (process_env w)) as [[| k ks] |];
    try (right; eexists; split; reflexivity).
  destruct (configure_cases {| chainMode := m :: ms; apiKey := k :: ks;
                               privateKey := PRIVATE_KEY (process_env w) |} w)
    as [[Hok H] | [e H]]; rewrite H.
  - left. eexists. split; [reflexivity |]. split; [exact Hok | reflexivity].
  - right. eexists. split; reflexivity.
Qed.

Lemma getProvider_after_getConfig w c w1 :
  _provider w = None -> getConfig w = (Normal c, w1) -> _config w1 = Some c ->
  _provider w1 = None ->
  getProvider w = getProvider w1.
Proof.
  intros Hp Hrun Hc Hp1. unfold getProvider.
  run_by reflexivity. rewrite Hp. symmetry. run_by reflexivity. rewrite Hp1. symmetry.
  assert (H : getNetworkConfig w = getNetworkConfig w1).
  { rewrite (@getNetworkConfig_stored w1 c Hc). unfold getNetworkConfig.
    run Hrun. reflexivity. }
  unfold bind at 1. rewrite H. reflexivity.
Qed.

(** What [getProvider] does in a well-configured state. *)
Lemma getProvider_cases w :
  valid_state w -> coherent w ->
  (exists c, config_ok c /\
     (_config w = Some c \/ _config w = None) /\
     getProvider w = (Normal (provider_of c), set_state w (Some c) (Some (provider_of c)))) \/
  (exists e, _provider w = None /\ getProvider w = (Throw e, w)).
Proof.
  intros Hv Hco. destruct (_provider w) as [p |] eqn:Hp.
  - destruct (Hco p Hp) as (c & Hc & ->). left. exists c.
    split; [apply Hv, Hc |]. split; [left; exact Hc |].
    rewrite (@getProvider_cached w _ Hp). f_equal.
    rewrite <- Hc, <- Hp. apply world_eta.
  - destruct (getConfig_cases w) as [(c & Hc & Hrun) | [(c & Hc & Hok & Hrun) | (e & Hc & Hrun)]].
    + left. exists c. split; [apply Hv, Hc |]. split; [left; exact Hc |].
      apply getProvider_fresh; [exact Hp | exact Hc | apply Hv, Hc].
    + left. exists c. split; [exact Hok |]. split; [right; exact Hc |].
      rewrite (@getProvider_after_getConfig w c _ Hp Hrun) by reflexivity.
      rewrite (@getProvider_fresh (set_state w (Some c) None) c) by (reflexivity || exact Hok).
      reflexivity.
    + right. exists e. split; [reflexivity |].
      unfold getProvider. run_by reflexivity. rewrite Hp.
      erewrite bind_Throw; [reflexivity |].
      unfold getNetworkConfig. erewrite bind_Throw; [reflexivity | exact Hrun].
Qed.

Section Invariants.

Variable E : Env.

Lemma stays_configured_refl w : stays_configured w w.
Proof. intros H. exact H. Qed.

Lemma stays_configured_trans w1 w2 w3 :
  stays_configured w1 w2 -> stays_configured w2 w3 -> stays_configured w1 w3.
Proof. unfold stays_configured. tauto. Qed.

Lemma stays_configured_log w e : stays_configured w (log_event w e).
Proof. intros H. exact H. Qed.

Lemma stays_configured_configure c w : stays_configured w (snd (configure c w)).
Proof.
  intros [Hv Hco]. destruct (configure_cases c w) as [[Hok H] | [e H]]; rewrite H; cbn [snd].
  - split.
    + intros c' Hc'. cbn in Hc'. injection Hc' as <-. exact Hok.
    + intros p Hp. discriminate.
  - auto.
Qed.

Lemma stays_configured_getConfig : keeps stays_configured getConfig.
Proof.
  apply keeps_getConfig_from; [apply stays_configured_refl |].
  intros c w _. apply stays_configured_configure.
Qed.

Lemma stays_configured_getProvider : keeps stays_configured getProvider.
Proof.
  intros w [Hv Hco].
  destruct (getProvider_cases Hv Hco) as [(c & Hok & _ & H) | (e & _ & H)];
    rewrite H; cbn [snd]; [| auto].
  split.
  - intros c' Hc'. cbn in Hc'. injection Hc' as <-. exact Hok.
  - intros p Hp. cbn in Hp. injection Hp as <-. exists c. auto.
Qed.

Lemma stays_configured_assign_address mode f :
  keeps stays_configured (assign_address mode f).
Proof.
  intros w. destruct (assign_address_state mode f w) as (Hc & Hp & _).
  unfold stays_configured, valid_state, coherent. rewrite Hc, Hp. auto.
Qed.

Lemma stays_configured_invoke x : keeps stays_configured (invoke E x).
Proof.
  destruct (is_configure x) eqn:Hc; [| destruct (is_setContractAddresses x) eqn:Hs].
  - destruct x; try discriminate. intros w. apply stays_configured_configure.
  - destruct x; try discriminate. cbn [invoke].
    apply keeps_setContractAddresses;
      first [ exact stays_configured_refl | exact stays_configured_trans
            | exact stays_configured_getConfig | exact stays_configured_assign_address ].
  - apply keeps_invoke;
      first [ exact stays_configured_refl | exact stays_configured_trans
            | exact stays_configured_log | exact stays_configured_getConfig
            | exact stays_configured_getProvider | assumption ].
Qed.

(** X23.  Every exported function, whatever its arguments and its outcome,
    keeps the module state well configured: the stored configuration, if
    any, has the mode testnet or mainnet and a non-empty API key, and the
    cached provider, if any, is the provider of the stored configuration.
    Hence every sequence of calls that starts from the state of a freshly
    loaded module ends in such a state. *)
Theorem configuration_stays_valid (x : Export) (calls : list Export) (w : World) :
  (valid_state w -> coherent w ->
   valid_state (snd (invoke E x w)) /\ coherent (snd (invoke E x w))) /\
  (_config w = None -> _provider w = None ->
   valid_state (session E calls w) /\ coherent (session E calls w)).
Proof.
  split.
  - intros Hv Hco. apply stays_configured_invoke. auto.
  - intros Hc Hp.
    assert (H0 : valid_state w /\ coherent w).
    { split; [intros c Hc' | intros p Hp']; congruence. }
    clear Hc Hp. revert w H0. unfold session.
    induction calls as [| y calls IH]; intros w H0; cbn [fold_left]; [exact H0 |].
    apply IH, stays_configured_invoke, H0.
Qed.

End Invariants.

Lemma configuration_stays_valid_witness :
  (valid_state (snd (invoke Demo.env (X_configure Sample.mainnet_config) Demo.world)) /\
   coherent (snd (invoke Demo.env (X_configure Sample.mainnet_config) Demo.world))) /\
  (valid_state (session Demo.env [X_getConfig; X_getCurrentPhase None] Sample.from_env) /\
   coherent (session Demo.env [X_getConfig; X_getCurrentPhase None] Sample.from_env)).
Proof.
  split.
  - apply (proj1 (@configuration_stays_valid Demo.env (X_configure Sample.mainnet_config)
                    [] Demo.world)).
    + intros c Hc. injection Hc as <-. split; [left; reflexivity | discriminate].
    + intros p Hp. discriminate.
  - apply (proj2 (@configuration_stays_valid Demo.env X_getConfig
                    [X_getConfig; X_getCurrentPhase None] Sample.from_env));
      reflexivity.
Defined.

Section StateFrames.

Variable E : Env.

(** A relation that only looks at a part of the state that neither the
    cached provider nor the log of requests belongs to. *)
Lemma keeps_projection {X} (f : World -> X) (x : Export) :
  (forall w e, f (log_event w e) = f w) ->
  (forall w p, f (snd (set_provider p w)) = f w) ->
  (forall c w, f (snd (configure c w)) = f w) ->
  (is_setContractAddresses x = false \/
   forall mode g w, f (snd (assign_address mode g w)) = f w) ->
  keeps (fun w w' => f w' = f w) (invoke E x).
Proof.
  intros Hlog Hset Hconf Hx.
  set (R := fun w w' : World => f w' = f w).
  assert (Hrefl : forall w, R w w) by reflexivity.
  assert (Htrans : forall w1 w2 w3, R w1 w2 -> R w2 w3 -> R w1 w3).
  { unfold R. intros w1 w2 w3 H1 H2. rewrite H2. exact H1. }
  assert (Hcfg : keeps R getConfig).
  { apply keeps_getConfig_from; [exact Hrefl | intros c w _; apply Hconf]. }
  assert (Hprov : keeps R getProvider).
  { apply keeps_getProvider_from; auto. intros p w. apply Hset. }
  destruct (is_configure x) eqn:Hc; [| destruct (is_setContractAddresses x) eqn:Hs].
  - destruct x; try discriminate. intros w. apply Hconf.
  - destruct Hx as [Hx | Hx]; [discriminate |].
    destruct x; try discriminate. cbn [invoke].
    apply keeps_setContractAddresses; auto.
  - apply keeps_invoke; auto.
Qed.

(** X24.  No exported function changes the environment variables, and none
    but [setContractAddresses] changes the address book, whatever the
    arguments and the outcome of the call. *)
Theorem environment_and_addresses_are_kept (x : Export) (w : World) :
  process_env (snd (invoke E x w)) = process_env w /\
  (is_setContractAddresses x = false ->
   CONTRACT_ADDRESSES (snd (invoke E x w)) = CONTRACT_ADDRESSES w).
Proof.
  split.
  - apply (@keeps_projection _ process_env x); try reflexivity.
    + intros c w0. apply configure_state.
    + right. intros mode g w0. apply assign_address_state.
  - intros Hx. apply (@keeps_projection _ CONTRACT_ADDRESSES x); try reflexivity.
    + intros c w0. apply configure_state.
    + left. exact Hx.
Qed.

Lemma same_configuration_refl w : same_configuration w w.
Proof. split; auto. Qed.

Lemma same_configuration_trans w1 w2 w3 :
  same_configuration w1 w2 -> same_configuration w2 w3 -> same_configuration w1 w3.
Proof.
  intros [H1 H1'] [H2 H2']. split.
  - auto.
  - intros c p Hc Hp. apply (H2' c p); [apply H1, Hc | apply (H1' c p); assumption].
Qed.

Lemma same_configuration_log w e : same_configuration w (log_event w e).
Proof. split; auto. Qed.

Lemma same_configuration_getConfig : keeps same_configuration getConfig.
Proof.
  intros w.
  destruct (getConfig_cases w) as [(c & Hc & H) | [(c & Hc & _ & H) | (e & Hc & H)]];
    rewrite H; cbn [snd]; try apply same_configuration_refl.
  split; intros c' ?; congruence.
Qed.

Lemma same_configuration_getProvider : keeps same_configuration getProvider.
Proof.
  intros w. split.
  - apply (@keeps_getProvider_from
             (fun w w' => forall c, _config w = Some c -> _config w' = Some c)); auto.
    + intros w0. apply same_configuration_getConfig.
  - intros c p Hc Hp. rewrite (@getProvider_cached w p Hp). exact Hp.
Qed.

Lemma same_configuration_assign_address mode f :
  keeps same_configuration (assign_address mode f).
Proof.
  intros w. destruct (assign_address_state mode f w) as (Hc & Hp & _).
  unfold same_configuration. rewrite Hc, Hp. auto.
Qed.

(** X25.  Once a configuration is stored, no exported function other than
    [configure] replaces or removes it, and none of them drops a cached
    provider, whatever the arguments and the outcome of the call. *)
Theorem only_configure_replaces_configuration (x : Export) (w : World) (c : SDKConfig) :
  is_configure x = false ->
  _config w = Some c ->
  _config (snd (invoke E x w)) = Some c /\
  (forall p, _provider w = Some p -> _provider (snd (invoke E x w)) = Some p).
Proof.
  intros Hx Hc.
  assert (H : same_configuration w (snd (invoke E x w))).
  { destruct (is_setContractAddresses x) eqn:Hs.
    - destruct x; try discriminate. cbn [invoke].
      apply keeps_setContractAddresses;
        first [ exact same_configuration_refl | exact same_configuration_trans
              | exact same_configuration_getConfig
              | exact same_configuration_assign_address ].
    - apply keeps_invoke;
        first [ exact same_configuration_refl | exact same_configuration_trans
              | exact same_configuration_log | exact same_configuration_getConfig
              | exact same_configuration_getProvider | assumption ]. }
  destruct H as [H1 H2]. split; [apply H1, Hc |].
  intros p Hp. apply (H2 c p Hc Hp).
Qed.

End StateFrames.

Lemma environment_and_addresses_are_kept_witness :
  process_env (snd (invoke Demo.env (X_getCurrentPhase None) Demo.world))
  = process_env Demo.world /\
  CONTRACT_ADDRESSES (snd (invoke Demo.env (X_getCurrentPhase None) Demo.world))
  = CONTRACT_ADDRESSES Demo.world.
Proof.
  destruct (@environment_and_addresses_are_kept Demo.env (X_getCurrentPhase None) Demo.world)
    as [He Ha].
  split; [exact He | apply Ha; reflexivity].
Defined.

Lemma only_configure_replaces_configuration_witness :
  _config (snd (invoke Demo.env
                  (X_setContractAddresses (Some (lit "0xD")) None (Some (lit "mainnet")))
                  Demo.world)) = Some Demo.config /\
  (forall p, _provider Demo.world = Some p ->
             _provider (snd (invoke Demo.env
                               (X_setContractAddresses (Some (lit "0xD")) None
                                  (Some (lit "mainnet")))
                               Demo.world)) = Some p).
Proof.
  apply (@only_configure_replaces_configuration Demo.env
           (X_setContractAddresses (Some (lit "0xD")) None (Some (lit "mainnet")))
           Demo.world Demo.config); reflexivity.
Defined.

(* ===================================================================== *)
(** ** The requests of a call, whatever its outcome *)
(* ===================================================================== *)

Section Shapes.

Variable E : Env.

#[local] Hint Resolve silent_ret silent_throw silent_lift silent_get silent_set_config
  silent_set_provider silent_set_addresses silent_configure silent_getConfig
  silent_getNetworkConfig silent_getRpcUrl silent_getProvider silent_getChainMode
  silent_isTestnet silent_isMainnet silent_assign_address silent_setContractAddresses
  silent_getContractAddresses silent_runner_of silent_getSigner silent_getAgencyContract
  silent_getDepartmentContract silent_getDBTCContract : silent_db.

Lemma appends_silent (S : list Event -> Prop) {A} (m : M A) :
  S [] -> silent m -> appends S m.
Proof.
  intros H0 Hm w. exists []. rewrite app_nil_r. split; [apply Hm | exact H0].
Qed.

Lemma appends_after_silent (S : list Event -> Prop) {A B} (m : M A) (k : A -> M B) :
  S [] -> silent m -> (forall a, appends S (k a)) -> appends S (bind m k).
Proof.
  intros H0 Hm Hk w. unfold bind. specialize (Hm w).
  destruct (m w) as [[a | e] w1]; cbn [snd] in Hm |- *.
  - destruct (Hk a w1) as (evs & Ht & HS). exists evs. rewrite Ht, Hm. auto.
  - exists []. rewrite app_nil_r. auto.
Qed.

Lemma appends_send_wait {B} c method ps (k : TransactionResult -> M B) :
  (forall r, silent (k r)) ->
  appends send_prefix (tx <- send E c method ps ;; r <- waitForTransaction tx ;; k r).
Proof.
  intros Hk w. unfold bind at 1. rewrite send_run.
  destruct (transact E c method ps) as [tx | e]; cbn [snd].
  - unfold bind. rewrite waitForTransaction_outcome.
    exists [EvSend (target c) method ps; EvWait (tx_hash tx)]. split.
    + destruct (transaction_outcome tx) as [r | e]; cbn [snd];
        [rewrite Hk |]; cbn; rewrite <- app_assoc; reflexivity.
    + right. right. eauto.
  - exists [EvSend (target c) method ps]. split; [reflexivity |].
    right. left. eauto.
Qed.

Lemma appends_send_wait_tail c method ps :
  appends send_prefix (tx <- send E c method ps ;; waitForTransaction tx).
Proof.
  intros w. unfold bind. rewrite send_run.
  destruct (transact E c method ps) as [tx | e]; cbn [snd].
  - rewrite waitForTransaction_outcome.
    exists [EvSend (target c) method ps; EvWait (tx_hash tx)]. split.
    + cbn. rewrite <- app_assoc. reflexivity.
    + right. right. eauto.
  - exists [EvSend (target c) method ps]. split; [reflexivity |].
    right. left. eauto.
Qed.

Lemma appends_queries_bind {A B} (m : M A) (k : A -> M B) :
  appends all_queries m -> (forall a, appends all_queries (k a)) ->
  appends all_queries (bind m k).
Proof.
  intros Hm Hk w. unfold bind. destruct (Hm w) as (evs & Ht & HS).
  destruct (m w) as [[a | e] w1]; cbn [snd] in Ht |- *.
  - destruct (Hk a w1) as (evs' & Ht' & HS'). exists (evs ++ evs'). split.
    + rewrite Ht', Ht, app_assoc. reflexivity.
    + unfold all_queries in *. rewrite forallb_app, HS, HS'. reflexivity.
  - exists evs. auto.
Qed.

Lemma appends_call c method ps : appends all_queries (call E c method ps).
Proof.
  intros w. rewrite call_run. exists [EvCall (target c) method ps]. split; reflexivity.
Qed.

Lemma appends_Promise_all_calls c methods :
  appends all_queries (Promise_all (map (fun m => call E c m []) methods)).
Proof.
  intros w. rewrite Promise_all_calls. cbn [snd].
  exists (call_events (target c) methods). split; [apply trace_fold_log_event |].
  unfold all_queries, call_events. induction methods; [reflexivity | assumption].
Qed.

Ltac shape_of_mutation :=
  repeat first
    [ apply appends_send_wait_tail
    | apply appends_send_wait; intros; solve [silence]
    | apply appends_after_silent; [left; reflexivity | solve [silence] | intros ?] ].

Ltac shape_of_query :=
  repeat first
    [ apply appends_call
    | apply (appends_Promise_all_calls _ agency_info_methods)
    | apply (appends_Promise_all_calls _ department_info_methods)
    | apply appends_silent; [reflexivity | solve [silence]]
    | apply appends_queries_bind; [| intros ?] ].

Lemma appends_then_silent (S : list Event -> Prop) {A B} (m : M A) (k : A -> M B) :
  appends S m -> (forall a, silent (k a)) -> appends S (bind m k).
Proof.
  intros Hm Hk w. unfold bind. destruct (Hm w) as (evs & Ht & HS).
  destruct (m w) as [[a | e] w1]; cbn [snd] in Ht |- *; exists evs; [| auto].
  rewrite Hk. auto.
Qed.

(** X26.  Whatever its outcome, a call of an exported function that signs a
    transaction asks of the chain nothing, or one submission, or one
    submission followed by one wait, and never a read; a call of a read-only
    function of agency.ts, department.ts or dbtc.ts asks read-only queries
    only, also when it fails. *)
Theorem requests_of_a_call (x : Export) (w : World) :
  (mutation_export x = true ->
   exists evs, trace (snd (invoke E x w)) = trace w ++ evs /\ send_prefix evs) /\
  (query_export x = true ->
   exists evs, trace (snd (invoke E x w)) = trace w ++ evs /\ all_queries evs).
Proof.
  split; intros Hx.
  - assert (H : appends send_prefix (invoke E x)); [| apply H].
    destruct x; try discriminate; cbn [invoke]; unfold discard;
      (apply appends_then_silent; [| intros; solve [silence]]);
      cbv beta delta
        [submitProposal reviseProposal amendProposal submitSeparateGAB submitJointGAB
         addDocumentManager removeDocumentManager transferAgencyOwnership
         addAgency setHouseAndSenate addDepartment addRegularDepartment
         assignPhaseResponsibility startBudgetCall advancePhase];
      shape_of_mutation.
  - assert (H : appends all_queries (invoke E x)); [| apply H].
    destruct x; try discriminate; cbn [invoke]; unfold discard;
      (apply appends_then_silent; [| intros; solve [silence]]);
      cbv beta delta
        [getAgencyInfo getDepartmentInfo isDocumentManager getDocumentManagers
         getAgency isAgencyRegistered getAgencyCodes
         getMainAgency getHouseAgency getSenateAgency getDepartmentOwner
         getCurrentPhase getCurrentFiscalYear getDepartment
         isDepartmentRegistered getDepartmentCodes getDepartmentCount
         getPhaseResponsibleDepartment getBudgetProposalContract getDBTCOwner];
      shape_of_query.
Qed.

End Shapes.

Lemma requests_of_a_call_witness :
  (exists evs,
     trace (snd (invoke Sample.failing_env (X_advancePhase None None) Demo.world))
     = trace Demo.world ++ evs /\ send_prefix evs) /\
  (exists evs,
     trace (snd (invoke Sample.full_env (X_getAgencyInfo (lit "0xAgency")) Demo.world))
     = trace Demo.world ++ evs /\ all_queries evs).
Proof.
  split.
  - apply (proj1 (@requests_of_a_call Sample.failing_env (X_advancePhase None None)
                    Demo.world)).
    reflexivity.
  - apply (proj2 (@requests_of_a_call Sample.full_env (X_getAgencyInfo (lit "0xAgency"))
                    Demo.world)).
    reflexivity.
Defined.

(* ===================================================================== *)
(** ** utils.ts: identifiers and their codes *)
(* ===================================================================== *)

(** Whatever [stringToBytes32] encodes, [bytes32ToString] decodes. *)
Lemma stringToBytes32_decodes s h :
  well_formed s = true -> ~ In 0 s ->
  stringToBytes32 s = Normal h -> bytes32ToString h = Normal s.
Proof.
  intros Hwf Hnz Henc.
  destruct (utf8_roundtrip s Hwf) as (bs & cps & He & _ & Hl & _).
  assert (Hlen : length s <= 31).
  { unfold stringToBytes32 in Henc.
    destruct (Z.ltb_spec 31 (length s)); [discriminate | assumption]. }
  assert (Hfit : (utf8_length s <= 31)%nat).
  { unfold stringToBytes32 in Henc.
    replace (31 <? length s) with false in Henc by (symmetry; apply Z.ltb_ge; lia).
    unfold Ethers.encodeBytes32String in Henc. rewrite He in Henc.
    destruct (Nat.ltb_spec 31 (List.length bs)); [discriminate | lia]. }
  destruct (bytes32_roundtrip s Hlen Hnz Hwf Hfit) as (h' & Henc' & Hdec).
  congruence.
Qed.

(** X27.  [stringToBytes32] is injective where it succeeds: two different
    well-formed strings without null characters never get the same bytes32
    code. *)
Theorem stringToBytes32_injective (s1 s2 h1 h2 : JsString) :
  well_formed s1 = true -> ~ In 0 s1 ->
  well_formed s2 = true -> ~ In 0 s2 ->
  stringToBytes32 s1 = Normal h1 -> stringToBytes32 s2 = Normal h2 ->
  s1 <> s2 -> h1 <> h2.
Proof.
  intros Hw1 Hz1 Hw2 Hz2 H1 H2 Hne Heq. subst h2. apply Hne.
  pose proof (@stringToBytes32_decodes s1 h1 Hw1 Hz1 H1) as D1.
  pose proof (@stringToBytes32_decodes s2 h1 Hw2 Hz2 H2) as D2.
  congruence.
Qed.

Lemma stringToBytes32_injective_witness :
  exists h1 h2,
    stringToBytes32 (lit "PS-001") = Normal h1 /\
    stringToBytes32 Demo.mixed = Normal h2 /\
    h1 <> h2.
Proof.
  eexists. eexists. split; [reflexivity |]. split; [reflexivity |].
  apply (@stringToBytes32_injective (lit "PS-001") Demo.mixed);
    first [ reflexivity | discriminate | vm_compute; intuition discriminate ].
Defined.

Section Prepared.

Variable E : Env.

(** X28.  In the data that [prepareProposalData] returns, [bytes32ToString]
    gives back [prexcFpapId] and [uacsObjCode] of the input, when these are
    well-formed strings without null characters, and the amount is the input
    amount when that is a bigint or an integral number. *)
Theorem prepared_identifiers_decode (d : ProposalData) (pd : OnChainProposalData) :
  prepareProposalData E d = Normal pd ->
  (well_formed (prexcFpapId d) = true -> ~ In 0 (prexcFpapId d) ->
   bytes32ToString (oc_prexcFpapId pd) = Normal (prexcFpapId d)) /\
  (well_formed (uacsObjCode d) = true -> ~ In 0 (uacsObjCode d) ->
   bytes32ToString (oc_uacsObjCode pd) = Normal (uacsObjCode d)) /\
  (forall z, amount d = AmountBigInt z \/ amount d = AmountNumber (NumInt z) ->
   oc_amount pd = z).
Proof.
  intros Hp. destruct (@prepareProposalData_Normal E d pd Hp) as (H1 & H2 & H3 & _).
  split; [| split].
  - intros Hw Hz. apply stringToBytes32_decodes; assumption.
  - intros Hw Hz. apply stringToBytes32_decodes; assumption.
  - intros z [Ha | Ha]; rewrite Ha in H3; cbn in H3; congruence.
Qed.

End Prepared.

Lemma prepared_identifiers_decode_witness :
  exists pd,
    prepareProposalData Demo.env Demo.proposal = Normal pd /\
    bytes32ToString (oc_prexcFpapId pd) = Normal (lit "PREXC-001") /\
    bytes32ToString (oc_uacsObjCode pd) = Normal (lit "PS-001") /\
    oc_amount pd = 1000000.
Proof.
  eexists. split; [reflexivity |].
  destruct (@prepared_identifiers_decode Demo.env Demo.proposal _ eq_refl)
    as (H1 & H2 & H3).
  split; [| split].
  - apply H1; [reflexivity | vm_compute; intuition discriminate].
  - apply H2; [reflexivity | vm_compute; intuition discriminate].
  - apply H3. left. reflexivity.
Defined.

(* ===================================================================== *)
(** ** types.ts: names *)
(* ===================================================================== *)

Lemma lookup_name_absent names key :
  (forall k n, In (k, n) names -> k <> key) -> lookup_name names key = lit "Unknown".
Proof.
  induction names as [| [k n] names IH]; intros H; [reflexivity |].
  cbn [lookup_name]. destruct (Z.eqb_spec k key) as [-> | _].
  - exfalso. apply (H key n); [left; reflexivity | reflexivity].
  - apply IH. intros k' n' Hin. apply (H k' n'). right. exact Hin.
Qed.

(** X29.  [getPhaseName] returns 'Unknown' exactly for the numbers outside
    0..6 and gives different names to different phases; [getStatusName]
    returns 'Unknown' exactly for the numbers outside 0..7 and gives different
    names to different statuses. *)
Theorem names_of_phases_and_statuses :
  (forall phase, getPhaseName phase = lit "Unknown" <-> ~ (0 <= phase <= 6)) /\
  (forall p q, 0 <= p <= 6 -> 0 <= q <= 6 -> p <> q -> getPhaseName p <> getPhaseName q) /\
  (forall status, getStatusName status = lit "Unknown" <-> ~ (0 <= status <= 7)) /\
  (forall p q, 0 <= p <= 7 -> 0 <= q <= 7 -> p <> q ->
               getStatusName p <> getStatusName q).
Proof.
  assert (P : forall p, 0 <= p <= 6 ->
                p = 0 \/ p = 1 \/ p = 2 \/ p = 3 \/ p = 4 \/ p = 5 \/ p = 6) by lia.
  assert (S : forall p, 0 <= p <= 7 ->
                p = 0 \/ p = 1 \/ p = 2 \/ p = 3 \/ p = 4 \/ p = 5 \/ p = 6 \/ p = 7) by lia.
  split; [| split; [| split]].
  - intros phase. split.
    + intros H Hr. apply P in Hr.
      repeat (destruct Hr as [-> | Hr]; [vm_compute in H; discriminate |]).
      subst. vm_compute in H. discriminate.
    + intros Hout. unfold getPhaseName. apply lookup_name_absent.
      intros k n Hin. cbn in Hin.
      repeat (destruct Hin as [Hin | Hin]; [injection Hin as <- _; vm_compute; lia |]).
      destruct Hin.
  - intros p q Hp Hq Hne H. apply Hne. apply P in Hp. apply P in Hq.
    repeat (destruct Hp as [-> | Hp]);
      repeat (destruct Hq as [-> | Hq]);
      subst; try reflexivity; vm_compute in H; discriminate.
  - intros status. split.
    + intros H Hr. apply S in Hr.
      repeat (destruct Hr as [-> | Hr]; [vm_compute in H; discriminate |]).
      subst. vm_compute in H. discriminate.
    + intros Hout. unfold getStatusName. apply lookup_name_absent.
      intros k n Hin. cbn in Hin.
      repeat (destruct Hin as [Hin | Hin]; [injection Hin as <- _; vm_compute; lia |]).
      destruct Hin.
  - intros p q Hp Hq Hne H. apply Hne. apply S in Hp. apply S in Hq.
    repeat (destruct Hp as [-> | Hp]);
      repeat (destruct Hq as [-> | Hq]);
      subst; try reflexivity; vm_compute in H; discriminate.
Qed.

Lemma names_of_phases_and_statuses_witness :
  getPhaseName 7 = lit "Unknown" /\
  getStatusName (-1) = lit "Unknown" /\
  getPhaseName BudgetPhase.GAB_SEPARATE <> getPhaseName BudgetPhase.GAB_BICAM /\
  getStatusName ProposalStatus.REVISED <> getStatusName ProposalStatus.AMENDED.
Proof.
  destruct names_of_phases_and_statuses as (Hp & Hpi & Hs & Hsi).
  split; [| split; [| split]].
  - apply Hp. lia.
  - apply Hs. lia.
  - apply Hpi; [vm_compute; intuition discriminate | vm_compute; intuition discriminate
               | discriminate].
  - apply Hsi; [vm_compute; intuition discriminate | vm_compute; intuition discriminate
               | discriminate].
Defined.
